(** * Shallow embedding of the dispatch-and-metrics harness of Master-ASR-LLM

    Sources embedded here:
    - [src/test/utils/fs.py]          : [find_files]
    - [src/test/asr/processor.py]     : [ASRProcessor.transcribe / parse / metrics],
                                        [_transcriber_wrapper], [_parse_log_file]
    - [src/test/llm/processor.py]     : [LLMProcessor.summarize / metrics],
                                        [_summarizer_wrapper],
                                        [_extract_text_from_summary_file],
                                        [_parse_file_path]
    - [src/test/asr/{google,azure,yandex,sber}/scripts.py] : [extract_text],
                                        the operation log line of [transcribe_audio]
    - [src/test/logging_setup.py]     : [Formatter.format], [FileWriterFilter]
    - [src/test/utils/logs.py]        : [create_log_extra]

    Python strings are modelled as [list ascii] (ASCII subset of str);
    Python exceptions as the [None] / [Error] branch of an option or sum. *)

From Stdlib Require Import List String Ascii Bool Arith Lia ZArith QArith Btauto.
From Stdlib Require Import Permutation Sorting.Sorted.
Import ListNotations.

Set Warnings "-register-all".

Local Open Scope nat_scope.
Local Open Scope list_scope.

(* ------------------------------------------------------------------ *)
(** ** Python helpers: [str.split], [PurePath.name / stem / suffix]    *)
(* ------------------------------------------------------------------ *)

Module Py.

Definition str := list ascii.

Definition s (x : string) : str := list_ascii_of_string x.

Fixpoint str_eqb (a b : str) : bool :=
  match a, b with
  | [], [] => true
  | x :: a', y :: b' => Ascii.eqb x y && str_eqb a' b'
  | _, _ => false
  end.

Lemma str_eqb_eq a b : str_eqb a b = true <-> a = b.
Proof.
  revert b; induction a as [|x a IH]; intros [|y b]; simpl; split; intro H;
    try discriminate; try reflexivity.
  - apply andb_prop in H as [H1 H2]. apply Ascii.eqb_eq in H1.
    apply IH in H2. subst; reflexivity.
  - injection H as -> ->. rewrite Ascii.eqb_refl. simpl. apply IH. reflexivity.
Qed.

(** [s.split(c)] for a one-character separator. *)
Fixpoint split (c : ascii) (x : str) : list str :=
  match x with
  | [] => [[]]
  | y :: r =>
      let parts := split c r in
      if Ascii.eqb y c then [] :: parts
      else match parts with
           | p :: ps => (y :: p) :: ps
           | [] => [[y]]
           end
  end.

(** [s.rfind(c)]: index of the last occurrence, [None] for -1. *)
Fixpoint rfind (c : ascii) (x : str) : option nat :=
  match x with
  | [] => None
  | y :: r =>
      match rfind c r with
      | Some i => Some (S i)
      | None => if Ascii.eqb y c then Some 0 else None
      end
  end.

(** [PurePath(p).name] on a POSIX path string: the last component that is
    neither empty nor ["."]. *)
Definition name (p : str) : str :=
  let parts := filter (fun c => negb (str_eqb c []) && negb (str_eqb c (s "."))) (split "/" p) in
  last parts [].

(** [PurePath.stem] and [PurePath.suffix] (CPython <= 3.12):
    [i = name.rfind('.')]; a suffix exists iff [0 < i < len(name) - 1]. *)
Definition has_suffix_at (nm : str) (i : nat) : bool :=
  (0 <? i) && (i <? List.length nm - 1).

Definition stem_of_name (nm : str) : str :=
  match rfind "." nm with
  | Some i => if has_suffix_at nm i then firstn i nm else nm
  | None => nm
  end.

Definition suffix_of_name (nm : str) : str :=
  match rfind "." nm with
  | Some i => if has_suffix_at nm i then skipn i nm else []
  | None => []
  end.

Definition stem (p : str) : str := stem_of_name (name p).

(** [x is not None] *)
Definition is_not_none {A} (o : option A) : bool :=
  match o with Some _ => true | None => false end.

(** [list[i]] raising [IndexError] out of range. *)
Definition index {A} (l : list A) (i : nat) : option A := nth_error l i.

End Py.

(* ------------------------------------------------------------------ *)
(** ** The fragment of Python's [re] used by the log scrapers          *)
(* ------------------------------------------------------------------ *)

(** Every repetition in the scrapers' patterns is a greedy [+] over a single
    character class ([.], [\d], [\w], [[A-Z]], [[\w\.]], [[\d.]]), so a
    backtracking matcher in continuation-passing style only needs literals,
    greedy one-class repetition, named groups and concatenation. *)
Module Re.

Import Py.

Inductive re : Type :=
| Lit (l : str)
| Plus (cls : ascii -> bool)
| Group (nm : string) (r : re)
| Cat (r1 r2 : re).

Definition captures := list (string * str).

Fixpoint is_prefix (l x : str) : bool :=
  match l, x with
  | [], _ => true
  | a :: l', b :: x' => Ascii.eqb a b && is_prefix l' x'
  | _ :: _, [] => false
  end.

Fixpoint run_length (cls : ascii -> bool) (x : str) : nat :=
  match x with
  | c :: r => if cls c then S (run_length cls r) else 0
  | [] => 0
  end.

(** Greedy: try the longest run first, then give back one character at a
    time; at least one character must be taken. *)
Fixpoint try_runs (n : nat) (x : str) (caps : captures)
    (k : str -> captures -> option captures) : option captures :=
  match n with
  | 0 => None
  | S n' =>
      match k (skipn n x) caps with
      | Some c => Some c
      | None => try_runs n' x caps k
      end
  end.

Fixpoint mtch (r : re) (x : str) (caps : captures)
    (k : str -> captures -> option captures) : option captures :=
  match r with
  | Lit l => if is_prefix l x then k (skipn (List.length l) x) caps else None
  | Plus cls => try_runs (run_length cls x) x caps k
  | Group nm r' =>
      mtch r' x caps (fun x' caps' => k x' ((nm, firstn (List.length x - List.length x') x) :: caps'))
  | Cat r1 r2 => mtch r1 x caps (fun x' caps' => mtch r2 x' caps' k)
  end.

(** [pattern.match(x)]: anchored at the start, no end anchor. *)
Definition match_ (r : re) (x : str) : option captures :=
  mtch r x [] (fun _ c => Some c).

(** [pattern.search(x)]: leftmost starting position. *)
Fixpoint search (r : re) (x : str) : option captures :=
  match match_ r x with
  | Some c => Some c
  | None => match x with
            | [] => None
            | _ :: x' => search r x'
            end
  end.

Fixpoint group (nm : string) (c : captures) : str :=
  match c with
  | [] => []
  | (n, v) :: c' => if String.eqb n nm then v else group nm c'
  end.

(** Character classes (ASCII reading of Python's [str] classes). *)
Definition dot (c : ascii) : bool := negb (Ascii.eqb c "010"%char).
Definition is_digit (c : ascii) : bool :=
  let n := nat_of_ascii c in (48 <=? n) && (n <=? 57).
Definition is_upper (c : ascii) : bool :=
  let n := nat_of_ascii c in (65 <=? n) && (n <=? 90).
Definition is_lower (c : ascii) : bool :=
  let n := nat_of_ascii c in (97 <=? n) && (n <=? 122).
Definition is_word (c : ascii) : bool :=
  is_digit c || is_upper c || is_lower c || Ascii.eqb c "_"%char.
Definition word_or_dot (c : ascii) : bool := is_word c || Ascii.eqb c "."%char.
Definition digit_or_dot (c : ascii) : bool := is_digit c || Ascii.eqb c "."%char.

Fixpoint cats (rs : list re) : re :=
  match rs with
  | [] => Lit []
  | [r] => r
  | r :: rs' => Cat r (cats rs')
  end.

Definition L (x : string) : re := Lit (s x).

End Re.

(* ------------------------------------------------------------------ *)
(** ** Python's [float()] on a string matched by [[\d.]+]               *)
(* ------------------------------------------------------------------ *)

Module PyFloat.

Import Py.

Fixpoint digits_value (acc : Z) (x : str) : Z :=
  match x with
  | [] => acc
  | c :: r => digits_value (10 * acc + Z.of_nat (nat_of_ascii c - 48)) r
  end.

(** [float(x)] for [x] made of ASCII digits and dots: at most one dot and at
    least one digit, otherwise [ValueError] ([None]).  The value is the exact
    decimal, read as a rational. *)
Definition py_float (x : str) : option Q :=
  match split "." x with
  | [ip] => if Nat.eqb (List.length ip) 0 then None
            else Some (inject_Z (digits_value 0 ip))
  | [ip; fp] =>
      if Nat.eqb (List.length ip + List.length fp) 0 then None
      else Some (Qmake (digits_value 0 (ip ++ fp))
                       (Pos.of_nat (10 ^ List.length fp)))
  | _ => None
  end.

End PyFloat.

(* ------------------------------------------------------------------ *)
(** ** [asr/processor.py : _parse_log_file]                             *)
(* ------------------------------------------------------------------ *)

Module AsrLog.

Import Py Re PyFloat.

(** [re_header] *)
Definition re_header : re :=
  cats [Group "level" (Plus is_upper); L ", thread_id: ";
        Group "thread_id" (Plus is_digit); L ", logger_name: ";
        Group "logger_name" (Plus word_or_dot); L ", func_name: ";
        Group "func_name" (Plus is_word); L " - ";
        Group "message" (Plus dot)].

(** [re_complete] *)
Definition re_complete : re :=
  cats [L "transcription completed, output saved to: "; Plus dot;
        L " | extra_variables - current_file: "; Group "file_path" (Plus dot);
        L ", elapsed_time_sec: "; Group "elapsed" (Plus digit_or_dot)].

(** [re_operation_complete] *)
Definition re_operation_complete : re :=
  cats [L "extra_variables - current_file: "; Group "file_path" (Plus dot);
        L ", elapsed_time_sec: "; Group "elapsed" (Plus digit_or_dot)].

(** The per-file entry of the [events] dict: [{}] with optional keys
    ["total_elapsed_time"] and ["operation_elapsed_time"]. *)
Record event := { total_elapsed_time : option Q; operation_elapsed_time : option Q }.

Definition empty_event : event := {| total_elapsed_time := None; operation_elapsed_time := None |}.

(** [utils/logs.py : LogData] *)
Record LogData := {
  file_name : str;
  total_elapsed_time_sec : Q;
  operation_elapsed_time_sec : Q }.

(** A Python dict in insertion order. *)
Definition events_t := list (str * event).

Fixpoint lookup (p : str) (ev : events_t) : option event :=
  match ev with
  | [] => None
  | (q, e) :: r => if str_eqb q p then Some e else lookup p r
  end.

(** [events.setdefault(p, {})[key] = v], with [f] doing the key update. *)
Fixpoint setdefault_update (p : str) (f : event -> event) (ev : events_t) : events_t :=
  match ev with
  | [] => [(p, f empty_event)]
  | (q, e) :: r => if str_eqb q p then (q, f e) :: r else (q, e) :: setdefault_update p f r
  end.

Definition set_total (t : Q) (e : event) : event :=
  {| total_elapsed_time := Some t; operation_elapsed_time := operation_elapsed_time e |}.
Definition set_operation (t : Q) (e : event) : event :=
  {| total_elapsed_time := total_elapsed_time e; operation_elapsed_time := Some t |}.

(** What the body of the [for line in f] loop does with one line. *)
Inductive line_kind :=
| KComplete (file_path elapsed : str)
| KOperation (file_path elapsed : str)
| KSkip.

Definition classify (line : str) : line_kind :=
  match match_ re_header line with
  | None => KSkip
  | Some header =>
      match search re_complete line with
      | Some m => KComplete (group "file_path" m) (group "elapsed" m)
      | None =>
          if str_eqb (group "func_name" header) (s "transcribe_audio") then
            match search re_operation_complete (group "message" header) with
            | Some m => KOperation (group "file_path" m) (group "elapsed" m)
            | None => KSkip
            end
          else KSkip
      end
  end.

(** The loop over the lines; [float()] raising aborts the function. *)
Fixpoint scan (lines : list str) (events : events_t) : option events_t :=
  match lines with
  | [] => Some events
  | line :: rest =>
      match classify line with
      | KSkip => scan rest events
      | KComplete p e =>
          match py_float e with
          | Some t => scan rest (setdefault_update p (set_total t) events)
          | None => None
          end
      | KOperation p e =>
          match py_float e with
          | Some t => scan rest (setdefault_update p (set_operation t) events)
          | None => None
          end
      end
  end.

(** The final loop building the [LogData] list. *)
Fixpoint emit (events : events_t) : list LogData :=
  match events with
  | [] => []
  | (p, e) :: r =>
      match total_elapsed_time e with
      | None => emit r
      | Some t =>
          {| file_name := stem p;
             total_elapsed_time_sec := t;
             operation_elapsed_time_sec :=
               match operation_elapsed_time e with Some o => o | None => t end |}
          :: emit r
      end
  end.

(** [_parse_log_file] on the lines of the log (each with its newline). *)
Definition parse_log_file (lines : list str) : option (list LogData) :=
  match scan lines [] with
  | Some events => Some (emit events)
  | None => None
  end.

(** The elapsed text of the last line of [lines] classified as a completion
    line (resp. an operation line) for the path [p]. *)
Fixpoint last_complete (lines : list str) (p : str) : option str :=
  match lines with
  | [] => None
  | l :: r =>
      match last_complete r p with
      | Some e => Some e
      | None => match classify l with
                | KComplete q e => if str_eqb q p then Some e else None
                | _ => None
                end
      end
  end.

Fixpoint last_operation (lines : list str) (p : str) : option str :=
  match lines with
  | [] => None
  | l :: r =>
      match last_operation r p with
      | Some e => Some e
      | None => match classify l with
                | KOperation q e => if str_eqb q p then Some e else None
                | _ => None
                end
      end
  end.

Definition total_of (lines : list str) (p : str) : option Q :=
  match last_complete lines p with Some e => py_float e | None => None end.
Definition operation_of (lines : list str) (p : str) : option Q :=
  match last_operation lines p with Some e => py_float e | None => None end.

(** The record [emit] builds for path [p]. *)
Definition record_of (p : str) (t : Q) (o : option Q) : LogData :=
  {| file_name := stem p; total_elapsed_time_sec := t;
     operation_elapsed_time_sec := match o with Some o' => o' | None => t end |}.

(** Sample lines in the format of [logging_setup.Formatter]. *)
Definition nl : str := ["010"%char].
Definition completed_line (file elapsed : string) : str :=
  s ("INFO, thread_id: 140, logger_name: asr.processor, func_name: transcriber_wrapper - transcription completed, output saved to: 'out/cloud_s2t/a.json' | extra_variables - current_file: "
     ++ file ++ ", elapsed_time_sec: " ++ elapsed) ++ nl.
Definition operation_line (file elapsed : string) : str :=
  s ("INFO, thread_id: 141, logger_name: asr.google.scripts, func_name: transcribe_audio - recognition opeation with id 'op1' was finished | extra_variables - current_file: "
     ++ file ++ ", elapsed_time_sec: " ++ elapsed) ++ nl.
Definition starting_line (file : string) : str :=
  s ("INFO, thread_id: 140, logger_name: asr.processor, func_name: transcriber_wrapper - starting transcription | extra_variables - current_file: "
     ++ file) ++ nl.

End AsrLog.

(* ------------------------------------------------------------------ *)
(** ** [utils/fs.py : find_files]                                        *)
(* ------------------------------------------------------------------ *)

(** The file system is a tree of named entries.  [Path.is_file()] holds on a
    regular file and on a symbolic link to one; [rglob] does not descend into
    symbolic links to directories, which are therefore [Other] entries here,
    together with dangling links, fifos and sockets. *)
Module Fs.

Import Py.


(** A file system: a tree of directories whose leaves are regular files,
    symbolic links (with the target string [readlink] returns) and other
    files (pipes, sockets, devices).  A physical location is the list of
    names from [/] down to it, through directories only. *)
Inductive node :=
| Reg
| Link (target : str)
| Dir (entries : list (str * node))
| Other.

(** A [pathlib.Path]: absolute or relative, with its components. *)
Record path := { absolute : bool; parts : list str }.

(** [Path(directory)] for a POSIX path string: [""] and ["."] components
    are dropped, [".."] is kept. *)
Definition parse_path (directory : str) : path :=
  {| absolute := match directory with c :: _ => Ascii.eqb c "/"%char | [] => false end;
     parts := filter (fun c => negb (str_eqb c []) && negb (str_eqb c (s "."))) (split "/" directory) |}.

(** [p / rel] *)
Definition join (p : path) (rel : list str) : path :=
  {| absolute := absolute p; parts := parts p ++ rel |}.

Fixpoint entry (nm : str) (es : list (str * node)) : option node :=
  match es with
  | [] => None
  | (k, n) :: r => if str_eqb k nm then Some n else entry nm r
  end.

(** The node at a physical location. *)
Fixpoint lookup_node (n : node) (comps : list str) : option node :=
  match comps with
  | [] => Some n
  | c :: r =>
      match n with
      | Dir es => match entry c es with Some n' => lookup_node n' r | None => None end
      | _ => None
      end
  end.

(** [MAXSYMLINKS] of Linux: the most links followed in one resolution. *)
Definition maxsymlinks : nat := 40.

(** The kernel's path resolution, from the physical directory [cur]: each
    component is looked up in the current directory (which must be one,
    else [ENOTDIR]); [".."] goes to the parent of the physical directory
    ([/] is its own parent); a link is replaced by its target, read from
    the directory holding the link, or from [/] when the target is
    absolute, and followed by the components still to resolve.  [links]
    counts the links still allowed; following one more gives [ELOOP].
    The result is the physical location reached, [None] on an error. *)
Fixpoint walk (root : node) (links : nat) (cur : list str) (comps : list str) {struct links}
    : option (list str) :=
  let fix go (cur : list str) (comps : list str) {struct comps} : option (list str) :=
    match comps with
    | [] => Some cur
    | c :: r =>
        match lookup_node root cur with
        | Some (Dir es) =>
            if str_eqb c (s "..") then go (removelast cur) r
            else match entry c es with
                 | Some (Link t) =>
                     match links with
                     | 0 => None
                     | S links' =>
                         let tp := parse_path t in
                         walk root links' (if absolute tp then [] else cur) (parts tp ++ r)
                     end
                 | Some _ => go (cur ++ [c]) r
                 | None => None
                 end
        | _ => None
        end
    end in
  go cur comps.

(** [os.stat(p)], following links; a relative path is resolved from the
    working directory [cwd], a physical location.  [None] stands for the
    [OSError]s [Path.is_dir] and [Path.is_file] turn into [False]. *)
Definition stat (root : node) (cwd : list str) (p : path) : option node :=
  match walk root maxsymlinks (if absolute p then [] else cwd) (parts p) with
  | Some q => lookup_node root q
  | None => None
  end.

(** [Path.is_dir()] and [Path.is_file()]. *)
Definition is_dir (root : node) (cwd : list str) (p : path) : bool :=
  match stat root cwd p with Some (Dir _) => true | _ => false end.

Definition is_file (root : node) (cwd : list str) (p : path) : bool :=
  match stat root cwd p with Some Reg => true | _ => false end.

(** The directories [rglob] visits: the directory itself and, recursively,
    the subdirectories that are not links; each with its relative path and
    its listing.  The order is that of CPython 3.11 (3.12 visits the same
    directories in another order, which no statement below depends on). *)
Fixpoint dirs_of (rel : list str) (n : node) : list (list str * list (str * node)) :=
  match n with
  | Dir es =>
      (rel, es) ::
      (fix go (l : list (str * node)) :=
         match l with
         | [] => []
         | (nm, n') :: r => dirs_of (rel ++ [nm]) n' ++ go r
         end) es
  | _ => []
  end.

(** [directory_path.rglob"*"] on the directory with listing [n]: every
    entry of every visited directory, with its relative path. *)
Definition rglob (n : node) : list (list str * node) :=
  flat_map (fun d => map (fun e => (fst d ++ [fst e], snd e)) (snd d)) (dirs_of [] n).

Inductive error := InvalidDirectory (* ValueError"... is not a valid directory." *).

(** [find_files(directory, extension)]: the [is_dir] check runs when the
    function is called, before the generator yields anything; [rglob] lists
    the directory [directory_path] resolves to; each path it yields is
    [directory_path] joined with the entry's relative path, and
    [path.is_file()] resolves that path again. *)
Definition find_files (root : node) (cwd : list str) (directory extension : str)
    : error + list path :=
  let dp := parse_path directory in
  match stat root cwd dp with
  | Some (Dir es) =>
      inr (map (join dp)
             (filter (fun rel => is_file root cwd (join dp rel) &&
                                 str_eqb (suffix_of_name (last rel [])) extension)
                (map fst (rglob (Dir es)))))
  | _ => inl InvalidDirectory
  end.

(** Directory chains: [dreach es sfx es'] when following the subdirectory
    names [sfx] from a directory listing [es] (never through a link) reaches
    the listing [es']. *)
Inductive dreach : list (str * node) -> list str -> list (str * node) -> Prop :=
| dreach_here es : dreach es [] es
| dreach_sub es nm es1 sfx es' :
    In (nm, Dir es1) es -> dreach es1 sfx es' -> dreach es (nm :: sfx) es'.

(** A listing as a real file system has it, down the whole tree: no two
    entries share a name, and no entry is called [".."]. *)
Fixpoint wf (n : node) : bool :=
  match n with
  | Dir es =>
      (fix nodup (l : list str) :=
         match l with
         | [] => true
         | x :: r => negb (existsb (str_eqb x) r) && nodup r
         end) (map fst es) &&
      (fix go (l : list (str * node)) :=
         match l with
         | [] => true
         | (nm, n') :: r => negb (str_eqb nm (s "..")) && wf n' && go r
         end) es
  | _ => true
  end.

(** Induction on [node] through its listings. *)
Fixpoint node_ind' (P : node -> Prop) (HReg : P Reg) (HLink : forall t, P (Link t)) (HOther : P Other)
    (HDir : forall es, Forall (fun e => P (snd e)) es -> P (Dir es)) (n : node) : P n :=
  match n with
  | Reg => HReg
  | Link t => HLink t
  | Other => HOther
  | Dir es =>
      HDir es ((fix go (l : list (str * node)) : Forall (fun e => P (snd e)) l :=
                  match l with
                  | [] => Forall_nil _
                  | e :: r => Forall_cons e (node_ind' P HReg HLink HOther HDir (snd e)) (go r)
                  end) es)
  end.

End Fs.

(* ------------------------------------------------------------------ *)
(** ** Python exceptions as an error monad                              *)
(* ------------------------------------------------------------------ *)

Module Exn.

Inductive exn := KeyError | TypeError | IndexError | ValueError.

Definition bind {A B} (m : exn + A) (k : A -> exn + B) : exn + B :=
  match m with inl e => inl e | inr a => k a end.

Notation "x <- m ;; k" := (bind m (fun x => k)) (at level 61, m at next level, right associativity).

(** A list comprehension whose element expression may raise. *)
Fixpoint map_m {A B} (f : A -> exn + B) (l : list A) : exn + list B :=
  match l with
  | [] => inr []
  | x :: r => y <- f x ;; ys <- map_m f r ;; inr (y :: ys)
  end.

End Exn.

(* ------------------------------------------------------------------ *)
(** ** Batch runners: [ASRProcessor.transcribe], [LLMProcessor.summarize] *)
(* ------------------------------------------------------------------ *)

(** The output directory is modelled by the list of its file names; the
    vendor callable by [raises], telling whether the call raises on an
    input.  A successful call leaves the output file
    [<output_dir>/<stem of the input><ext>]: written by the ASR vendor
    script itself ([Path(output_dir) / f"{Path(file_path).stem}.json"]) or
    by [summarizer_wrapper] after the LLM call returned. *)
Module Runner.

Import Py.

Definition name_of (p : Fs.path) : str := last (Fs.parts p) [].
Definition stem_of (p : Fs.path) : str := stem_of_name (name_of p).

(** [open(path, "w")]: creates the file or truncates the existing one. *)
Definition write (nm : str) (dir : list str) : list str :=
  if existsb (str_eqb nm) dir then dir else dir ++ [nm].

(** The loop state: the success counter, the output directory, and the set
    of output files written by this run. *)
Record state := { count : nat; out_dir : list str; written : list str }.

Definition init (dir : list str) : state := {| count := 0; out_dir := dir; written := [] |}.

(** The loop [count += 1 if result is not None else 0] over the results of
    the per-unit wrapper, in the order the results are collected. *)
Fixpoint run (unit_call : Fs.path -> option str) (files : list Fs.path) (st : state) : state :=
  match files with
  | [] => st
  | p :: r =>
      run unit_call r
        (match unit_call p with
         | Some nm => {| count := S (count st); out_dir := write nm (out_dir st);
                         written := write nm (written st) |}
         | None => st
         end)
  end.

Section Wrappers.

Variable raises : Fs.path -> bool.

(** [_transcriber_wrapper(transcriber)]: [except Exception: return None]. *)
Definition transcriber_wrapper (ext : str) (p : Fs.path) : option str :=
  if raises p then None else Some (stem_of p ++ ext).

(** [_summarizer_wrapper(summarizer)]: the output is [<stem>.json]. *)
Definition summarizer_wrapper (p : Fs.path) : option str :=
  if raises p then None else Some (stem_of p ++ s ".json").

(** [ASRProcessor.transcribe]: result is [(count_proccessed_file, len(mp3_files))]
    as logged at the end, with the final state.  With a pool, the results
    are collected by [as_completed] in some completion order [order]. *)
Inductive transcribe (supports_multithreading : bool) (max_threads : Z) (ext : str)
    (mp3_files : list Fs.path) (dir0 : list str) : nat * nat * state -> Prop :=
| transcribe_pool order :
    supports_multithreading && (1 <? max_threads)%Z = true ->
    Permutation mp3_files order ->
    let st := run (transcriber_wrapper ext) order (init dir0) in
    transcribe supports_multithreading max_threads ext mp3_files dir0
      (count st, List.length mp3_files, st)
| transcribe_seq :
    supports_multithreading && (1 <? max_threads)%Z = false ->
    let st := run (transcriber_wrapper ext) mp3_files (init dir0) in
    transcribe supports_multithreading max_threads ext mp3_files dir0
      (count st, List.length mp3_files, st).

(** [exist_transcripts]: stems of the [.json] files of the output directory. *)
Definition exist_transcripts (dir : list str) : list str :=
  map stem_of_name (filter (fun nm => str_eqb (suffix_of_name nm) (s ".json")) dir).

(** [transcript_paths]: the discovered inputs whose stem has no output. *)
Definition transcript_paths (dir : list str) (files : list Fs.path) : list Fs.path :=
  filter (fun p => negb (existsb (str_eqb (stem_of p)) (exist_transcripts dir))) files.

(** [LLMProcessor.summarize]: always through the pool; the logged pair is
    [(count_processed_transcript, len(transcript_paths))].
    [ThreadPoolExecutor(max_workers=max_threads)] raises [ValueError] when
    [max_threads <= 0], after the inputs are found and before any is
    dispatched. *)
Inductive summarize (max_threads : Z) (files : list Fs.path) (dir0 : list str)
    : Exn.exn + (nat * nat * state) -> Prop :=
| summarize_pool order :
    (0 < max_threads)%Z ->
    Permutation (transcript_paths dir0 files) order ->
    let st := run summarizer_wrapper order (init dir0) in
    summarize max_threads files dir0 (inr (count st, List.length (transcript_paths dir0 files), st))
| summarize_max_workers :
    (max_threads <= 0)%Z ->
    summarize max_threads files dir0 (inl Exn.ValueError).

End Wrappers.

End Runner.


(* ------------------------------------------------------------------ *)
(** ** JSON values and [_extract_text_from_summary_file]                *)
(* ------------------------------------------------------------------ *)

Module Json.

Import Py Exn.

Inductive json :=
| JNull
| JBool (b : bool)
| JNum (n : Z)
| JStr (x : str)
| JArr (l : list json)
| JObj (kvs : list (str * json)).

(** What [json.loads(f.read())] makes of a file's text: a
    [JSONDecodeError] or a value. *)
Inductive content := Invalid | Valid (v : json).

(** [d[k]] on a decoded object: with duplicate keys the last one wins. *)
Fixpoint obj_get (k : str) (kvs : list (str * json)) : option json :=
  match kvs with
  | [] => None
  | (k', v) :: r =>
      match obj_get k r with
      | Some x => Some x
      | None => if str_eqb k' k then Some v else None
      end
  end.

(** Keys of a decoded object, in first-insertion order. *)
Definition dict_keys (kvs : list (str * json)) : list str :=
  fold_left (fun acc kv => if existsb (str_eqb (fst kv)) acc then acc else acc ++ [fst kv]) kvs [].

(** [v[k]]: [KeyError] on a dict without [k], [TypeError] on a non-dict. *)
Definition getitem (v : json) (k : str) : exn + json :=
  match v with
  | JObj kvs => match obj_get k kvs with Some x => inr x | None => inl KeyError end
  | _ => inl TypeError
  end.

(** [*v] in a list display: lists give their items, strings their
    characters, dicts their keys; anything else raises [TypeError]. *)
Definition iter (v : json) : exn + list json :=
  match v with
  | JArr l => inr l
  | JStr x => inr (map (fun c => JStr [c]) x)
  | JObj kvs => inr (map JStr (dict_keys kvs))
  | _ => inl TypeError
  end.

(** [sep.join(items)]: every item must be a [str]. *)
Definition as_str (v : json) : exn + str :=
  match v with JStr x => inr x | _ => inl TypeError end.

Definition str_join (sep : str) (l : list str) : str :=
  match l with
  | [] => []
  | x :: r => x ++ List.concat (map (fun y => sep ++ y) r)
  end.

(** [_extract_text_from_summary_file]: only [JSONDecodeError] is caught. *)
Definition extract_text_from_summary_file (c : content) : exn + str :=
  match c with
  | Invalid => inr []
  | Valid sum_resp =>
      title <- getitem sum_resp (s "title") ;;
      tldr <- getitem sum_resp (s "tldr") ;;
      resume <- getitem sum_resp (s "resume") ;;
      items <- iter resume ;;
      conclusion <- getitem sum_resp (s "conclusion") ;;
      parts <- map_m as_str ([title; tldr] ++ items ++ [conclusion]) ;;
      inr (str_join (s " ") parts)
  end.

(** [k in v] for a decoded object; a non-object has no keys. *)
Definition has_key (v : json) (k : str) : Prop :=
  match v with JObj kvs => obj_get k kvs <> None | _ => False end.

End Json.

(* ------------------------------------------------------------------ *)
(** ** [LLMProcessor.metrics]                                            *)
(* ------------------------------------------------------------------ *)

Module LlmMetrics.

Import Py Exn Json Re PyFloat.

(** A row of [result]: the identity fields, the formatted metric fields
    (ROUGE, BERTScore, BLEU, METEOR), and the elapsed time. *)
Record row := {
  file_name : str;
  person_count : str;
  time_in_minute : str;
  metric_fields : list str;
  elapsed_time_sec : Q }.

(** [_parse_file_path(str(path))] on the path's stem. *)
Definition parse_file_path (file_name : str) : exn + (str * str * str) :=
  let file_name_parts := split "." file_name in
  match index file_name_parts 3 with
  | None => inl IndexError
  | Some p3 =>
      let people_count := hd [] (split "_" p3) in
      match index file_name_parts 4 with
      | None => inl IndexError
      | Some p4 => inr (file_name, people_count, hd [] (split "_" p4))
      end
  end.

(** [re_complete] of the LLM log scraper (no header check). *)
Definition re_complete : re :=
  cats [L "summarization completed, output saved to: "; Plus dot;
        L " | extra_variables - current_file: "; Group "file_path" (Plus dot);
        L ", elapsed_time_sec: "; Group "elapsed" (Plus digit_or_dot)].

Fixpoint dict_set (k : str) (v : Q) (d : list (str * Q)) : list (str * Q) :=
  match d with
  | [] => [(k, v)]
  | (k', v') :: r => if str_eqb k' k then (k', v) :: r else (k', v') :: dict_set k v r
  end.

Fixpoint dict_get (k : str) (d : list (str * Q)) (default : Q) : Q :=
  match d with
  | [] => default
  | (k', v) :: r => if str_eqb k' k then v else dict_get k r default
  end.

(** [_parse_log_file] of [llm/processor.py]. *)
Fixpoint parse_log_file_from (lines : list str) (result : list (str * Q)) : exn + list (str * Q) :=
  match lines with
  | [] => inr result
  | line :: rest =>
      match search re_complete line with
      | None => parse_log_file_from rest result
      | Some m =>
          match py_float (group "elapsed" m) with
          | None => inl ValueError
          | Some t => parse_log_file_from rest (dict_set (stem (group "file_path" m)) t result)
          end
      end
  end.

Definition parse_log_file (lines : list str) : exn + list (str * Q) :=
  parse_log_file_from lines [].

(** [str] ordering: lexicographic on code points. *)
Fixpoint str_ltb (a b : str) : bool :=
  match a, b with
  | [], [] => false
  | [], _ :: _ => true
  | _ :: _, [] => false
  | x :: a', y :: b' =>
      if nat_of_ascii x <? nat_of_ascii y then true
      else if nat_of_ascii y <? nat_of_ascii x then false
      else str_ltb a' b'
  end.

(** Tuple order on the sort key [(x[2], x[1])]. *)
Definition key_ltb (x y : row) : bool :=
  str_ltb (time_in_minute x) (time_in_minute y) ||
  (str_eqb (time_in_minute x) (time_in_minute y) && str_ltb (person_count x) (person_count y)).

(** [result.sort(key=...)]: a stable sort, here by insertion. *)
Fixpoint insert_row (x : row) (l : list row) : list row :=
  match l with
  | [] => [x]
  | y :: r => if key_ltb x y then x :: l else y :: insert_row x r
  end.

Definition sort_rows (l : list row) : list row :=
  fold_left (fun acc x => insert_row x acc) l [].

(** [x] may come before [y] in the sorted result. *)
Definition key_le (x y : row) : Prop := key_ltb y x = false.

Definition non_empty (x : str) : bool := negb (Nat.eqb (List.length x) 0).

Section Metrics.

(** The metric libraries, assumed not to raise: given the non-empty
    reference texts and the hypothesis text, the formatted fields. *)
Variable metric_fields_of : list str -> str -> list str.

(** [references_paths_by_filename[stem]]: the references of that stem, in
    discovery order. *)
Definition references_of (references : list (Fs.path * content)) (st : str) : list content :=
  map snd (filter (fun r => str_eqb (Runner.stem_of (fst r)) st) references).

(** The body of [for hypotheses_path in hypotheses_paths]: [inr None] for a
    [continue], [inr (Some r)] for [result.append(r)]. *)
Definition metrics_step (references : list (Fs.path * content)) (log_data : list (str * Q))
    (h : Fs.path * content) : exn + option row :=
  let st := Runner.stem_of (fst h) in
  match references_of references st with
  | [] => inr None
  | ref_files =>
      refs0 <- map_m extract_text_from_summary_file ref_files ;;
      let refs := filter non_empty refs0 in
      hyp <- extract_text_from_summary_file (snd h) ;;
      if negb (non_empty hyp) || Nat.eqb (List.length refs) 0 then inr None
      else
        let fields := metric_fields_of refs hyp in
        ids <- parse_file_path st ;;
        let '(fname, pcount, tminute) := ids in
        inr (Some {| file_name := fname; person_count := pcount; time_in_minute := tminute;
                     metric_fields := fields; elapsed_time_sec := dict_get st log_data 0%Q |})
  end.

Fixpoint metrics_loop (references : list (Fs.path * content)) (log_data : list (str * Q))
    (hypotheses : list (Fs.path * content)) : exn + list row :=
  match hypotheses with
  | [] => inr []
  | h :: r =>
      o <- metrics_step references log_data h ;;
      rest <- metrics_loop references log_data r ;;
      inr (match o with Some x => x :: rest | None => rest end)
  end.

(** [LLMProcessor.metrics]: [inr rows] when [metrics.csv] is written with
    the header and [rows]; [inl e] when an exception escapes (no CSV). *)
Definition metrics (references hypotheses : list (Fs.path * content)) (log_lines : list str)
    : exn + list row :=
  log_data <- parse_log_file log_lines ;;
  result <- metrics_loop references log_data hypotheses ;;
  inr (sort_rows result).

End Metrics.

End LlmMetrics.

(* ------------------------------------------------------------------ *)
(** ** [ASRProcessor.metrics]                                            *)
(* ------------------------------------------------------------------ *)

Module AsrMetrics.

Import Py Exn.

(** A row of [result]: the hypothesis file name, the formatted jiwer
    fields (wer, mer, wil, wip, cer) and the two elapsed times. *)
Record arow := {
  a_file_name : str;
  a_fields : list str;
  a_total_sec : Q;
  a_operation_sec : Q }.

(** The state of [<hypotheses_dir>/metrics.csv]: absent, or the fixed header
    followed by rows. *)
Definition csv_state := option (list arow).

(** [name_to_reference_file[name]] (dict comprehension: the last reference
    of a name wins), given with the reference file's text. *)
Fixpoint name_to_reference (refs : list (Fs.path * str)) (nm : str) : option str :=
  match refs with
  | [] => None
  | (p, t) :: r =>
      match name_to_reference r nm with
      | Some x => Some x
      | None => if str_eqb (Runner.name_of p) nm then Some t else None
      end
  end.

(** [file_name_to_log_data.get(stem)] (last record of a stem wins). *)
Fixpoint log_data_of (logs : list AsrLog.LogData) (st : str) : option AsrLog.LogData :=
  match logs with
  | [] => None
  | l :: r =>
      match log_data_of r st with
      | Some x => Some x
      | None => if str_eqb (AsrLog.file_name l) st then Some l else None
      end
  end.

Section Metrics.

(** jiwer's [wer/mer/wil/wip/cer] on (reference text, hypothesis text),
    formatted; jiwer may raise (e.g. on an empty reference). *)
Variable scores_of : str -> str -> exn + list str.

(** The body of the loop: [inr None] for the [continue] after the warning. *)
Definition metrics_step (refs : list (Fs.path * str)) (logs : list AsrLog.LogData)
    (h : Fs.path * str) : exn + option arow :=
  let file_name := Runner.name_of (fst h) in
  match name_to_reference refs file_name with
  | None => inr None
  | Some rf_text =>
      fields <- scores_of rf_text (snd h) ;;
      let log_data := log_data_of logs (Runner.stem_of (fst h)) in
      inr (Some {| a_file_name := file_name; a_fields := fields;
                   a_total_sec := match log_data with
                                  | Some l => AsrLog.total_elapsed_time_sec l | None => 0%Q end;
                   a_operation_sec := match log_data with
                                      | Some l => AsrLog.operation_elapsed_time_sec l | None => 0%Q end |})
  end.

(** The source's loop: after each appended row, [metrics.csv] is rewritten
    with the header and all rows so far. *)
Fixpoint metrics_loop (refs : list (Fs.path * str)) (logs : list AsrLog.LogData)
    (hyps : list (Fs.path * str)) (result : list arow) (csv : csv_state)
    : (exn + unit) * csv_state :=
  match hyps with
  | [] => (inr tt, csv)
  | h :: r =>
      match metrics_step refs logs h with
      | inl e => (inl e, csv)
      | inr None => metrics_loop refs logs r result csv
      | inr (Some x) =>
          let result' := result ++ [x] in
          metrics_loop refs logs r result' (Some result')
      end
  end.

(** [ASRProcessor.metrics] from an initial state [csv0] of the CSV file. *)
Definition metrics (refs hyps : list (Fs.path * str)) (log_lines : list str) (csv0 : csv_state)
    : (exn + unit) * csv_state :=
  match AsrLog.parse_log_file log_lines with
  | None => (inl ValueError, csv0)
  | Some logs => metrics_loop refs logs hyps [] csv0
  end.

(** The rows appended by the loop, in the order of [hypotheses_files]. *)
Definition step_rows (refs : list (Fs.path * str)) (logs : list AsrLog.LogData)
    (hyps : list (Fs.path * str)) : list arow :=
  flat_map (fun h => match metrics_step refs logs h with inr (Some r) => [r] | _ => [] end) hyps.

(** The variant the spec allows: collect all rows, then write the CSV once
    after the loop. *)
Fixpoint collect_rows (refs : list (Fs.path * str)) (logs : list AsrLog.LogData)
    (hyps : list (Fs.path * str)) : exn + list arow :=
  match hyps with
  | [] => inr []
  | h :: r =>
      o <- metrics_step refs logs h ;;
      rest <- collect_rows refs logs r ;;
      inr (match o with Some x => x :: rest | None => rest end)
  end.

Definition metrics_write_once (refs hyps : list (Fs.path * str)) (log_lines : list str)
    (csv0 : csv_state) : (exn + unit) * csv_state :=
  match AsrLog.parse_log_file log_lines with
  | None => (inl ValueError, csv0)
  | Some logs =>
      match collect_rows refs logs hyps with
      | inl e => (inl e, csv0)
      | inr rows => (inr tt, Some rows)
      end
  end.

End Metrics.

End AsrMetrics.

(* ------------------------------------------------------------------ *)
(** ** [ASRProcessor.parse]                                              *)
(* ------------------------------------------------------------------ *)

Module AsrParse.

Import Py Exn.

Section Parse.

(** [parsers[system]] on a [.json] file: the vendor's [extract_text]. *)
Variable parser : Fs.path -> exn + str.

(** [file_path.with_name(file_path.stem + ".txt")] *)
Definition output_path (p : Fs.path) : Fs.path :=
  {| Fs.absolute := Fs.absolute p;
     Fs.parts := removelast (Fs.parts p) ++ [Runner.stem_of p ++ s ".txt"] |}.

(** The loop over [json_files] (no [try]); [written] lists the output
    files written, in order. *)
Fixpoint parse_loop (json_files : list Fs.path) (written : list (Fs.path * str))
    : (exn + unit) * list (Fs.path * str) :=
  match json_files with
  | [] => (inr tt, written)
  | p :: r =>
      match parser p with
      | inl e => (inl e, written)
      | inr result => parse_loop r (written ++ [(output_path p, result)])
      end
  end.

Definition parse (json_files : list Fs.path) : (exn + unit) * list (Fs.path * str) :=
  parse_loop json_files [].

End Parse.

End AsrParse.

(* ------------------------------------------------------------------ *)
(** ** Sample inputs                                                    *)
(* ------------------------------------------------------------------ *)
(** ** The vendors' [extract_text] ([asr/<vendor>/scripts.py])          *)
(* ------------------------------------------------------------------ *)
(** ** Reading of [LLMProcessor._parse_log_file]                        *)
(* ------------------------------------------------------------------ *)

Module LlmLog.

Import Py Re LlmMetrics.

(** The elapsed-time text of the last line of [lines] that [re_complete]
    matches with a file of stem [st]. *)
Fixpoint last_completion (lines : list str) (st : str) : option str :=
  match lines with
  | [] => None
  | line :: r =>
      match last_completion r st with
      | Some e => Some e
      | None =>
          match search re_complete line with
          | Some m => if str_eqb (stem (group "file_path" m)) st then Some (group "elapsed" m) else None
          | None => None
          end
      end
  end.

End LlmLog.

(* ------------------------------------------------------------------ *)

Module AsrVendor.

Import Py Exn Json.

(** [v[i]] with an [int] index: a list or a string item, [IndexError] out
    of range; a dict has only [str] keys, so [KeyError]. *)
Definition getindex (v : json) (i : nat) : exn + json :=
  match v with
  | JArr l => match nth_error l i with Some x => inr x | None => inl IndexError end
  | JStr x => match nth_error x i with Some c => inr (JStr [c]) | None => inl IndexError end
  | JObj _ => inl KeyError
  | _ => inl TypeError
  end.

(** [len(v)] *)
Definition py_len (v : json) : exn + nat :=
  match v with
  | JArr l => inr (List.length l)
  | JStr x => inr (List.length x)
  | JObj kvs => inr (List.length (dict_keys kvs))
  | _ => inl TypeError
  end.

(** [sep.join(result)]: [TypeError] on an item that is not a [str]. *)
Definition join_values (sep : str) (result : list json) : exn + str :=
  parts <- map_m as_str result ;; inr (str_join sep parts).

(** Exceptions of [google.extract_text]: those of [Exn], and the
    [AttributeError] of [.keys()] on a value that is not a dict. *)
Inductive error := PyError (e : exn) | AttributeError.

Definition lift {A} (m : exn + A) : error + A :=
  match m with inl e => inl (PyError e) | inr a => inr a end.

Definition ebind {A B} (m : error + A) (k : A -> error + B) : error + B :=
  match m with inl e => inl e | inr a => k a end.

Notation "x <-- m ;; k" := (ebind m (fun x => k)) (at level 61, m at next level, right associativity).

(** [v.keys()] *)
Definition keys (v : json) : error + list str :=
  match v with JObj kvs => inr (dict_keys kvs) | _ => inl AttributeError end.

(** The [for part in parts] loop of [google.extract_text]. *)
Fixpoint google_parts (parts : list json) : exn + list json :=
  match parts with
  | [] => inr []
  | part :: r =>
      alternatives <- getitem part (s "alternatives") ;;
      n <- py_len alternatives ;;
      if 0 <? n then
        a0 <- getindex alternatives 0 ;;
        t <- getitem a0 (s "transcript") ;;
        rest <- google_parts r ;;
        inr (t :: rest)
      else google_parts r
  end.

(** [asr/google/scripts.py : extract_text] on the file's content
    ([JSONDecodeError], a [ValueError], on invalid JSON). *)
Definition google_extract_text (c : content) : error + str :=
  match c with
  | Invalid => inl (PyError ValueError)
  | Valid json_object =>
      results <-- lift (getitem json_object (s "results")) ;;
      ks <-- keys results ;;
      gs_key <-- lift (match ks with k :: _ => inr k | [] => inl IndexError end) ;;
      parts <-- lift (r <- getitem json_object (s "results") ;;
                      g <- getitem r gs_key ;;
                      t <- getitem g (s "transcript") ;;
                      getitem t (s "results")) ;;
      items <-- lift (iter parts) ;;
      result <-- lift (google_parts items) ;;
      lift (join_values [] result)
  end.

(** [asr/azure/scripts.py : extract_text] on the file's lines, each read
    by [json.loads]. *)
Fixpoint azure_loop (lines : list content) : exn + list json :=
  match lines with
  | [] => inr []
  | Invalid :: _ => inl ValueError
  | Valid json_object :: r =>
      t <- getitem json_object (s "DisplayText") ;;
      rest <- azure_loop r ;;
      inr (t :: rest)
  end.

Definition azure_extract_text (lines : list content) : exn + str :=
  result <- azure_loop lines ;; join_values (s " ") result.

(** The expression inside the [try] of [asr/yandex/scripts.py]. *)
Definition yandex_text (json_object : json) : exn + json :=
  r <- getitem json_object (s "result") ;;
  f <- getitem r (s "finalRefinement") ;;
  n <- getitem f (s "normalizedText") ;;
  a <- getitem n (s "alternatives") ;;
  a0 <- getindex a 0 ;;
  getitem a0 (s "text").

(** [except (KeyError, IndexError): pass]; other exceptions propagate. *)
Fixpoint yandex_loop (lines : list content) : exn + list json :=
  match lines with
  | [] => inr []
  | Invalid :: _ => inl ValueError
  | Valid json_object :: r =>
      match yandex_text json_object with
      | inr t => rest <- yandex_loop r ;; inr (t :: rest)
      | inl KeyError | inl IndexError => yandex_loop r
      | inl e => inl e
      end
  end.

(** [asr/yandex/scripts.py : extract_text] *)
Definition yandex_extract_text (lines : list content) : exn + str :=
  result <- yandex_loop lines ;; join_values (s " ") result.

(** The [for part in json_object] loop of [asr/sber/scripts.py]. *)
Fixpoint sber_parts (parts : list json) : exn + list json :=
  match parts with
  | [] => inr []
  | part :: r =>
      rs <- getitem part (s "results") ;;
      r0 <- getindex rs 0 ;;
      t <- getitem r0 (s "normalized_text") ;;
      rest <- sber_parts r ;;
      inr (t :: rest)
  end.

(** [asr/sber/scripts.py : extract_text] *)
Definition sber_extract_text (c : content) : exn + str :=
  match c with
  | Invalid => inl ValueError
  | Valid json_object =>
      items <- iter json_object ;;
      result <- sber_parts items ;;
      join_values [] result
  end.

(** The text [google.extract_text] reads from well-formed parts: the first
    alternative of each part that has one, in order. *)
Fixpoint google_first_transcripts (parts : list (list str)) : str :=
  match parts with
  | [] => []
  | [] :: r => google_first_transcripts r
  | (t :: _) :: r => t ++ google_first_transcripts r
  end.

(** A part [{"alternatives": [{"transcript": t}, ...]}]. *)
Definition google_part (alternatives : list str) : json :=
  JObj [(s "alternatives", JArr (map (fun t => JObj [(s "transcript", JStr t)]) alternatives))].

(** A line [{"result": {"finalRefinement": {"normalizedText":
    {"alternatives": [{"text": t}, ...]}}}}] of a Yandex result. *)
Definition yandex_result (alternatives : list str) : json :=
  JObj [(s "result", JObj [(s "finalRefinement", JObj [(s "normalizedText",
    JObj [(s "alternatives", JArr (map (fun t => JObj [(s "text", JStr t)]) alternatives))])])])].

(** A part [{"results": [{"normalized_text": t}]}] of a Sber result. *)
Definition sber_part (t : str) : json :=
  JObj [(s "results", JArr [JObj [(s "normalized_text", JStr t)]])].

(** The first alternative of each list that has one. *)
Definition first_texts (alternatives : list (list str)) : list str :=
  flat_map (fun a => match a with t :: _ => [t] | [] => [] end) alternatives.

End AsrVendor.

(* ------------------------------------------------------------------ *)
(** ** [logging_setup.py] and [utils/logs.py]: the log file             *)
(* ------------------------------------------------------------------ *)

Module LogFormat.

Import Py.

Definition newline : str := ["010"%char].

(** [create_log_extra(...)]: each value is kept as the text [str(value)]
    that the formatter prints, [None] when not given. *)
Record log_extra := {
  current_file : option str;
  elapsed_time_sec : option str;
  write_to_file : bool }.

Definition create_log_extra (current_file elapsed_time_sec : option str) (write_to_file : bool)
    : log_extra :=
  {| current_file := current_file; elapsed_time_sec := elapsed_time_sec;
     write_to_file := write_to_file |}.

(** A [LogRecord]: [%(thread)d] is kept as its decimal text, [message] is
    [record.getMessage()], [exc_text] the traceback of [logger.exception]. *)
Record log_record := {
  levelname : str;
  thread : str;
  name : str;
  funcName : str;
  message : str;
  exc_text : option str;
  extra : log_extra }.

(** [s[-1:]] *)
Definition lastn_char (x : str) : str := match rev x with c :: _ => [c] | [] => [] end.

(** [Formatter.format]: the base format, the traceback on its own lines,
    then the non-[None] extras. *)
Definition format (r : log_record) : str :=
  let msg := levelname r ++ s ", thread_id: " ++ thread r ++ s ", logger_name: " ++ name r ++
             s ", func_name: " ++ funcName r ++ s " - " ++ message r in
  let msg := match exc_text r with
             | None => msg
             | Some t => (if str_eqb (lastn_char msg) newline then msg else msg ++ newline) ++ t
             end in
  let extra_parts :=
    match current_file (extra r) with Some v => [s "current_file: " ++ v] | None => [] end ++
    match elapsed_time_sec (extra r) with Some v => [s "elapsed_time_sec: " ++ v] | None => [] end in
  if 0 <? List.length extra_parts
  then msg ++ s " | extra_variables - " ++ Json.str_join (s ", ") extra_parts
  else msg.

(** The file handler: [FileWriterFilter] drops a record whose extra
    [write_to_file] is false; [emit] adds the terminator. *)
Definition log_text (records : list log_record) : str :=
  List.concat (map (fun r => if write_to_file (extra r) then format r ++ newline else []) records).

(** [for line in f]: the lines of a text, each with its newline. *)
Fixpoint lines_of (x : str) : list str :=
  match x with
  | [] => []
  | c :: r =>
      if Ascii.eqb c "010"%char then [c] :: lines_of r
      else match lines_of r with
           | l :: ls => (c :: l) :: ls
           | [] => [[c]]
           end
  end.

(** The records of [_transcriber_wrapper] ([logger] of [asr.processor]). *)
Definition starting_record (thread file_path : str) : log_record :=
  {| levelname := s "INFO"; thread := thread; name := s "asr.processor";
     funcName := s "transcriber_wrapper"; message := s "starting transcription"; exc_text := None;
     extra := create_log_extra (Some file_path) None true |}.

Definition completed_record (thread file_path output_path elapsed : str) : log_record :=
  {| levelname := s "INFO"; thread := thread; name := s "asr.processor";
     funcName := s "transcriber_wrapper";
     message := s "transcription completed, output saved to: '" ++ output_path ++ s "'";
     exc_text := None;
     extra := create_log_extra (Some file_path) (Some elapsed) true |}.

(** The record of [transcribe_audio] in [asr/google/scripts.py] and
    [asr/yandex/scripts.py] when the recognition operation has finished. *)
Definition operation_record (logger thread file_path operation_id elapsed : str) : log_record :=
  {| levelname := s "INFO"; thread := thread; name := logger; funcName := s "transcribe_audio";
     message := s "recognition opeation with id '" ++ operation_id ++ s "' was finished";
     exc_text := None;
     extra := create_log_extra (Some file_path) (Some elapsed) true |}.

(** The records of [_summarizer_wrapper] ([logger] of [llm.processor]). *)
Definition summary_starting_record (thread transcript_path : str) : log_record :=
  {| levelname := s "INFO"; thread := thread; name := s "llm.processor";
     funcName := s "summarizer_wrapper"; message := s "starting summarization"; exc_text := None;
     extra := create_log_extra (Some transcript_path) None true |}.

Definition summary_completed_record (thread transcript_path output_path elapsed : str) : log_record :=
  {| levelname := s "INFO"; thread := thread; name := s "llm.processor";
     funcName := s "summarizer_wrapper";
     message := s "summarization completed, output saved to: '" ++ output_path ++ s "'";
     exc_text := None;
     extra := create_log_extra (Some transcript_path) (Some elapsed) true |}.

End LogFormat.

(* ------------------------------------------------------------------ *)
(** ** Character adjacency, to locate literals in a line               *)
(* ------------------------------------------------------------------ *)

Module Adj.

Import Py.

(** [c1 + c2 in x] *)
Fixpoint adjb (c1 c2 : ascii) (x : str) : bool :=
  match x with
  | a :: ((b :: _) as r) => (Ascii.eqb a c1 && Ascii.eqb b c2) || adjb c1 c2 r
  | _ => false
  end.

(** [x.endswith(c)] and [x.startswith(c)] *)
Definition ends_with (c : ascii) (x : str) : bool :=
  match rev x with a :: _ => Ascii.eqb a c | [] => false end.

Definition starts_with (c : ascii) (x : str) : bool :=
  match x with a :: _ => Ascii.eqb a c | [] => false end.

End Adj.

(* ------------------------------------------------------------------ *)

Module Samples.

Import Py Json.

(** [<dir>/<name>] *)
Definition path_of (absolute : bool) (dir name : string) : Fs.path :=
  {| Fs.absolute := absolute; Fs.parts := [s dir; s name] |}.

(** A summary in the format the summarizers write. *)
Definition good_summary : content :=
  Valid (JObj [(s "title", JStr (s "Title")); (s "tldr", JStr (s "Short"));
               (s "resume", JArr [JStr (s "Point one"); JStr (s "Point two")]);
               (s "conclusion", JStr (s "End"))]).

(** A hypothesis named like the dataset files: [<...>.N_people.M_mins]. *)
Definition llm_hyp_name (people mins : string) : string :=
  String.append "meeting.ru.v1." (String.append people
    (String.append "_people." (String.append mins "_mins.json"))).

(** A summary missing its ["conclusion"] key. *)
Definition summary_without_conclusion : content :=
  Valid (JObj [(s "title", JStr (s "Title")); (s "tldr", JStr (s "Short"));
               (s "resume", JArr [JStr (s "Point one")])]).

(** [/home/data] holds [a.mp3], [b.txt] and [sub/c.mp3], a link to
    [../a.mp3]; [/home/link] is a link to [data]; [/home/work] is empty. *)
Definition sample_root : Fs.node :=
  Fs.Dir [(s "home", Fs.Dir [(s "data", Fs.Dir [(s "a.mp3", Fs.Reg); (s "b.txt", Fs.Reg);
                                               (s "sub", Fs.Dir [(s "c.mp3", Fs.Link (s "../a.mp3"))])]);
                            (s "link", Fs.Link (s "data"));
                            (s "work", Fs.Dir [])])].

(** An [extract_text] that fails on files named [bad.json]. *)
Definition sample_parser (p : Fs.path) : Exn.exn + str :=
  if str_eqb (Runner.name_of p) (s "bad.json") then inl Exn.KeyError else inr (s "text").

(** No exception from the vendor callable. *)
Definition never (_ : Fs.path) : bool := false.

End Samples.

(** *** Lemmas on the [events] dict *)
Module AsrLogFacts.

Import Py PyFloat AsrLog.

Definition get_total (p : str) (ev : events_t) : option Q :=
  match lookup p ev with Some e => total_elapsed_time e | None => None end.
Definition get_operation (p : str) (ev : events_t) : option Q :=
  match lookup p ev with Some e => operation_elapsed_time e | None => None end.

Lemma str_eqb_sym a b : str_eqb a b = str_eqb b a.
Proof.
  destruct (str_eqb a b) eqn:E1, (str_eqb b a) eqn:E2; auto.
  - apply str_eqb_eq in E1; subst. rewrite (proj2 (str_eqb_eq b b) eq_refl) in E2. discriminate.
  - apply str_eqb_eq in E2; subst. rewrite (proj2 (str_eqb_eq a a) eq_refl) in E1. discriminate.
Qed.

Lemma lookup_setdefault p q f ev :
  lookup p (setdefault_update q f ev) =
  if str_eqb q p then Some (f (match lookup p ev with Some e => e | None => empty_event end))
  else lookup p ev.
Proof.
  induction ev as [|[k e] r IH]; simpl.
  - destruct (str_eqb q p); reflexivity.
  - destruct (str_eqb k q) eqn:Ekq.
    + apply str_eqb_eq in Ekq; subst k. simpl.
      destruct (str_eqb q p); reflexivity.
    + simpl. rewrite IH. destruct (str_eqb k p) eqn:Ekp; [|reflexivity].
      apply str_eqb_eq in Ekp; subst k.
      destruct (str_eqb q p) eqn:Eqp; [|reflexivity].
      apply str_eqb_eq in Eqp; subst q.
      rewrite (proj2 (str_eqb_eq p p) eq_refl) in Ekq. discriminate.
Qed.

Lemma in_keys_setdefault q f ev k :
  In k (map fst (setdefault_update q f ev)) <-> In k (map fst ev) \/ k = q.
Proof.
  induction ev as [|[k' e] r IH]; simpl.
  - intuition.
  - destruct (str_eqb k' q) eqn:E; simpl.
    + apply str_eqb_eq in E; subst. intuition.
    + rewrite IH. intuition.
Qed.

Lemma nodup_setdefault q f ev :
  NoDup (map fst ev) -> NoDup (map fst (setdefault_update q f ev)).
Proof.
  induction ev as [|[k e] r IH]; simpl; intros H.
  - constructor; [intros []|constructor].
  - inversion H as [|? ? Hk Hr]; subst.
    destruct (str_eqb k q) eqn:E; simpl.
    + constructor; assumption.
    + constructor; [|apply IH; assumption].
      rewrite in_keys_setdefault. intros [Hin| ->]; [contradiction|].
      rewrite (proj2 (str_eqb_eq q q) eq_refl) in E. discriminate.
Qed.

Lemma scan_nodup lines ev ev' :
  scan lines ev = Some ev' -> NoDup (map fst ev) -> NoDup (map fst ev').
Proof.
  revert ev; induction lines as [|l r IH]; simpl; intros ev Hs Hn.
  - injection Hs as <-; assumption.
  - destruct (classify l) as [p e|p e|].
    + destruct (py_float e); [|discriminate].
      eapply IH; [eassumption|apply nodup_setdefault; assumption].
    + destruct (py_float e); [|discriminate].
      eapply IH; [eassumption|apply nodup_setdefault; assumption].
    + eapply IH; eassumption.
Qed.

Lemma scan_total lines ev ev' p :
  scan lines ev = Some ev' ->
  get_total p ev' =
  match last_complete lines p with Some e => py_float e | None => get_total p ev end.
Proof.
  revert ev; induction lines as [|l r IH]; simpl; intros ev Hs.
  - injection Hs as <-; reflexivity.
  - destruct (classify l) as [q e|q e|] eqn:Hc.
    + destruct (py_float e) as [t|] eqn:Hf; [|discriminate].
      rewrite (IH _ Hs). destruct (last_complete r p); [reflexivity|].
      unfold get_total. rewrite lookup_setdefault.
      destruct (str_eqb q p); simpl; [rewrite Hf|]; reflexivity.
    + destruct (py_float e) as [t|] eqn:Hf; [|discriminate].
      rewrite (IH _ Hs). destruct (last_complete r p); [reflexivity|].
      unfold get_total. rewrite lookup_setdefault.
      destruct (str_eqb q p); [|reflexivity].
      destruct (lookup p ev); reflexivity.
    + rewrite (IH _ Hs). destruct (last_complete r p); reflexivity.
Qed.

Lemma scan_operation lines ev ev' p :
  scan lines ev = Some ev' ->
  get_operation p ev' =
  match last_operation lines p with Some e => py_float e | None => get_operation p ev end.
Proof.
  revert ev; induction lines as [|l r IH]; simpl; intros ev Hs.
  - injection Hs as <-; reflexivity.
  - destruct (classify l) as [q e|q e|] eqn:Hc.
    + destruct (py_float e) as [t|] eqn:Hf; [|discriminate].
      rewrite (IH _ Hs). destruct (last_operation r p); [reflexivity|].
      unfold get_operation. rewrite lookup_setdefault.
      destruct (str_eqb q p); [|reflexivity].
      destruct (lookup p ev); reflexivity.
    + destruct (py_float e) as [t|] eqn:Hf; [|discriminate].
      rewrite (IH _ Hs). destruct (last_operation r p); [reflexivity|].
      unfold get_operation. rewrite lookup_setdefault.
      destruct (str_eqb q p); simpl; [rewrite Hf|]; reflexivity.
    + rewrite (IH _ Hs). destruct (last_operation r p); reflexivity.
Qed.

Lemma lookup_in ev p e :
  NoDup (map fst ev) -> (lookup p ev = Some e <-> In (p, e) ev).
Proof.
  induction ev as [|[k e'] r IH]; simpl; intros Hn.
  - split; [discriminate|intros []].
  - inversion Hn as [|? ? Hk Hr]; subst.
    destruct (str_eqb k p) eqn:E.
    + apply str_eqb_eq in E; subst k. split.
      * injection 1 as <-. left; reflexivity.
      * intros [H|H]; [injection H as <-; reflexivity|].
        exfalso; apply Hk. apply (in_map fst) in H; exact H.
    + rewrite IH by assumption. split; [right; assumption|].
      intros [H|H]; [|assumption].
      injection H as -> ->. rewrite (proj2 (str_eqb_eq p p) eq_refl) in E. discriminate.
Qed.

Lemma in_emit ev r :
  NoDup (map fst ev) ->
  In r (emit ev) <->
  exists p t, get_total p ev = Some t /\ r = record_of p t (get_operation p ev).
Proof.
  intros Hn. unfold get_total, get_operation.
  induction ev as [|[k e] rest IH]; simpl.
  - split; [intros []|intros (p & t & H & _); discriminate].
  - inversion Hn as [|? ? Hk Hr]; subst. specialize (IH Hr).
    assert (Hkk : str_eqb k k = true) by (apply str_eqb_eq; reflexivity).
    assert (Hnot : lookup k rest = None).
    { destruct (lookup k rest) as [e0|] eqn:L; [|reflexivity].
      exfalso. apply Hk. apply (lookup_in rest k e0 Hr) in L.
      apply (in_map fst) in L. exact L. }
    assert (Hrest : In r (emit rest) <->
      exists p t, str_eqb k p = false /\
        match lookup p rest with Some e0 => total_elapsed_time e0 | None => None end = Some t /\
        r = record_of p t (match lookup p rest with Some e0 => operation_elapsed_time e0 | None => None end)).
    { rewrite IH. split.
      - intros (p & t & H1 & H2). exists p, t. split; [|auto].
        destruct (str_eqb k p) eqn:E; [|reflexivity].
        apply str_eqb_eq in E; subst k. rewrite Hnot in H1. discriminate.
      - intros (p & t & _ & H1 & H2). eauto. }
    split.
    + intros Hin.
      assert (Hcase : (exists t, total_elapsed_time e = Some t /\
                        r = record_of k t (operation_elapsed_time e)) \/ In r (emit rest)).
      { destruct (total_elapsed_time e) as [t|]; [|right; exact Hin].
        destruct Hin as [<-|Hin]; [left; exists t; split; reflexivity|right; exact Hin]. }
      destruct Hcase as [(t & Ht & ->)|Hin'].
      * exists k, t. rewrite Hkk. auto.
      * apply Hrest in Hin'. destruct Hin' as (p & t & E & H1 & H2).
        exists p, t. rewrite E. auto.
    + intros (p & t & H1 & H2). destruct (str_eqb k p) eqn:E.
      * apply str_eqb_eq in E; subst k. rewrite H1. left. subst r. reflexivity.
      * assert (Hin : In r (emit rest)) by (apply Hrest; exists p, t; auto).
        destruct (total_elapsed_time e); [right|]; exact Hin.
Qed.


Lemma scan_total_of lines ev p :
  scan lines [] = Some ev -> get_total p ev = total_of lines p.
Proof.
  intros Hs. rewrite (scan_total _ _ _ p Hs). unfold total_of.
  destruct (last_complete lines p); reflexivity.
Qed.

Lemma scan_operation_of lines ev p :
  scan lines [] = Some ev -> get_operation p ev = operation_of lines p.
Proof.
  intros Hs. rewrite (scan_operation _ _ _ p Hs). unfold operation_of.
  destruct (last_operation lines p); reflexivity.
Qed.

Lemma parse_log_file_members lines out :
  parse_log_file lines = Some out ->
  forall r, In r out <->
    exists p t, total_of lines p = Some t /\ r = record_of p t (operation_of lines p).
Proof.
  unfold parse_log_file. destruct (scan lines []) as [ev|] eqn:Hs; [|discriminate].
  injection 1 as <-. intros r.
  rewrite in_emit by (eapply scan_nodup; [exact Hs|constructor]).
  split; intros (p & t & H1 & H2); exists p, t.
  - rewrite <- (scan_total_of _ _ p Hs), <- (scan_operation_of _ _ p Hs). auto.
  - rewrite (scan_total_of _ _ p Hs), (scan_operation_of _ _ p Hs). auto.
Qed.

End AsrLogFacts.

(** *** Lemmas on [rglob] *)
Module FsFacts.

Import Py Fs.

Lemma dirs_of_Dir rel es :
  dirs_of rel (Dir es) = (rel, es) :: flat_map (fun e => dirs_of (rel ++ [fst e]) (snd e)) es.
Proof.
  simpl. f_equal. induction es as [|[nm n] r IH]; simpl; [reflexivity|].
  rewrite IH. reflexivity.
Qed.

Lemma dirs_of_spec n : forall rel d es',
  In (d, es') (dirs_of rel n) <->
  match n with Dir es => exists sfx, d = rel ++ sfx /\ dreach es sfx es' | _ => False end.
Proof.
  induction n as [|t| |es IH] using node_ind'; intros rel d es'; [simpl; tauto..|].
  rewrite dirs_of_Dir. simpl. rewrite in_flat_map. split.
  - intros [H|(e & He & Hin)].
    + injection H as -> ->. exists []. rewrite app_nil_r. split; [reflexivity|constructor].
    + rewrite Forall_forall in IH. apply (IH e He) in Hin.
      destruct e as [nm [|t|es1|]]; simpl in Hin; try contradiction.
      destruct Hin as (sfx & -> & Hr). exists (nm :: sfx).
      rewrite <- app_assoc. split; [reflexivity|]. econstructor; eassumption.
  - intros (sfx & -> & Hr). inversion Hr as [|? nm es1 sfx' ? Hin Hr']; subst.
    + left. rewrite app_nil_r. reflexivity.
    + right. exists (nm, Dir es1). split; [exact Hin|].
      rewrite Forall_forall in IH. apply (IH _ Hin). simpl.
      exists sfx'. rewrite <- app_assoc. split; [reflexivity|exact Hr'].
Qed.

Lemma in_rglob es rel n :
  In (rel, n) (rglob (Dir es)) <->
  exists d es' nm, dreach es d es' /\ In (nm, n) es' /\ rel = d ++ [nm].
Proof.
  unfold rglob. rewrite in_flat_map. split.
  - intros ([d es'] & Hd & Hin). apply dirs_of_spec in Hd. simpl in Hd.
    destruct Hd as (sfx & -> & Hr). simpl in Hin.
    apply in_map_iff in Hin. destruct Hin as ([nm n'] & Heq & Hin). simpl in Heq.
    injection Heq as <- <-. exists sfx, es', nm. auto.
  - intros (d & es' & nm & Hr & Hin & ->). exists (d, es'). split.
    + apply dirs_of_spec. exists d. auto.
    + simpl. apply in_map_iff. exists (nm, n). auto.
Qed.

Lemma last_snoc (d : list str) (nm : str) : last (d ++ [nm]) [] = nm.
Proof. induction d as [|x d IH]; simpl; [reflexivity|]. rewrite IH. destruct (d ++ [nm]) eqn:E; [destruct d; discriminate|reflexivity]. Qed.

Lemma find_files_ok root cwd dir ext es :
  stat root cwd (parse_path dir) = Some (Dir es) ->
  exists l, find_files root cwd dir ext = inr l /\
    forall q, In q l <->
      exists d es' nm n, dreach es d es' /\ In (nm, n) es' /\
        is_file root cwd (join (parse_path dir) (d ++ [nm])) = true /\
        suffix_of_name nm = ext /\ q = join (parse_path dir) (d ++ [nm]).
Proof.
  intros H. unfold find_files. rewrite H. eexists; split; [reflexivity|].
  intros q. rewrite in_map_iff. split.
  - intros (rel & <- & Hf). apply filter_In in Hf. destruct Hf as [Hin Hb].
    apply andb_prop in Hb. destruct Hb as [Hfile Hsuf].
    apply in_map_iff in Hin as ([rel' n] & Heq & Hin). simpl in Heq. subst rel'.
    apply in_rglob in Hin. destruct Hin as (d & es' & nm & Hr & Hin & ->).
    rewrite last_snoc in Hsuf. apply str_eqb_eq in Hsuf.
    exists d, es', nm, n. auto.
  - intros (d & es' & nm & n & Hr & Hin & Hfile & Hsuf & ->).
    exists (d ++ [nm]). split; [reflexivity|]. apply filter_In. split.
    + apply in_map_iff. exists (d ++ [nm], n). split; [reflexivity|].
      apply in_rglob. exists d, es', nm. auto.
    + rewrite last_snoc, Hfile. simpl. apply str_eqb_eq. exact Hsuf.
Qed.

Lemma walk_cons root b cur c r :
  walk root b cur (c :: r) =
  match lookup_node root cur with
  | Some (Dir es) =>
      if str_eqb c (s "..") then walk root b (removelast cur) r
      else match entry c es with
           | Some (Link t) =>
               match b with
               | 0 => None
               | S b' => walk root b' (if absolute (parse_path t) then [] else cur)
                           (parts (parse_path t) ++ r)
               end
           | Some _ => walk root b (cur ++ [c]) r
           | None => None
           end
  | _ => None
  end.
Proof. destruct b; reflexivity. Qed.

(** Resolving [c1 ++ c2] resolves [c1], then [c2] from there with the
    links left. *)
Lemma walk_app root b : forall cur c1 q,
  walk root b cur c1 = Some q ->
  exists b', b' <= b /\ forall c2, walk root b cur (c1 ++ c2) = walk root b' q c2.
Proof.
  induction b as [|b IHb]; intros cur c1; revert cur;
    induction c1 as [|c r IH]; intros cur q H.
  1, 3: injection H as <-;
        match goal with |- exists b', b' <= ?B /\ _ => exists B end;
        split; [lia|intros c2; reflexivity].
  all: rewrite walk_cons in H; simpl app; setoid_rewrite walk_cons.
  all: destruct (lookup_node root cur) as [[|t|es|]|]; try discriminate.
  all: destruct (str_eqb c (s "..")); [apply IH; exact H|].
  all: destruct (entry c es) as [[|t|es1|]|]; try discriminate; try (apply IH; exact H).
  destruct (IHb _ _ _ H) as (b' & Hle & Hw). exists b'. split; [lia|].
  intros c2. rewrite app_assoc. apply Hw.
Qed.

Lemma lookup_app n a b :
  lookup_node n (a ++ b) = match lookup_node n a with Some m => lookup_node m b | None => None end.
Proof.
  revert n; induction a as [|c a IH]; intros n; [reflexivity|].
  simpl. destruct n as [| |es|]; try reflexivity.
  destruct (entry c es); [apply IH|reflexivity].
Qed.

Lemma wf_cons k m r :
  wf (Dir ((k, m) :: r)) =
  negb (existsb (str_eqb k) (map fst r)) && negb (str_eqb k (s "..")) && wf m && wf (Dir r).
Proof.
  simpl. btauto.
Qed.

Lemma wf_entry es nm n :
  wf (Dir es) = true -> In (nm, n) es ->
  entry nm es = Some n /\ str_eqb nm (s "..") = false /\ wf n = true.
Proof.
  induction es as [|[k m] r IH]; intros Hw Hin; [destruct Hin|].
  rewrite wf_cons in Hw. apply andb_prop in Hw as [Hw Hr]. apply andb_prop in Hw as [Hw Hm].
  apply andb_prop in Hw as [Hk Hdd]. apply negb_true_iff in Hk, Hdd.
  destruct Hin as [E|Hin].
  - injection E as -> ->. simpl. rewrite (proj2 (str_eqb_eq nm nm) eq_refl). auto.
  - destruct (IH Hr Hin) as (He & Hd & Hn). simpl.
    destruct (str_eqb k nm) eqn:E.
    + apply str_eqb_eq in E. subst k. exfalso.
      assert (existsb (str_eqb nm) (map fst r) = true) as C.
      { apply existsb_exists. exists nm. split; [apply in_map_iff; exists (nm, n); auto|].
        apply str_eqb_eq. reflexivity. }
      congruence.
    + auto.
Qed.

(** Down a chain of real directories, resolution goes name by name. *)
Lemma walk_dreach root es d es' : dreach es d es' ->
  forall q b rest, lookup_node root q = Some (Dir es) -> wf (Dir es) = true ->
    walk root b q (d ++ rest) = walk root b (q ++ d) rest /\
    lookup_node root (q ++ d) = Some (Dir es') /\ wf (Dir es') = true.
Proof.
  induction 1 as [es|es nm es1 sfx es' Hin Hr IH]; intros q b rest Hq Hw.
  - rewrite app_nil_r. auto.
  - destruct (wf_entry es nm (Dir es1) Hw Hin) as (He & Hd & Hw1).
    assert (Hq1 : lookup_node root (q ++ [nm]) = Some (Dir es1))
      by (rewrite lookup_app, Hq; simpl; rewrite He; reflexivity).
    destruct (IH (q ++ [nm]) b rest Hq1 Hw1) as (H1 & H2 & H3).
    replace (q ++ nm :: sfx) with ((q ++ [nm]) ++ sfx) by (rewrite <- app_assoc; reflexivity).
    split; [|split; assumption].
    simpl app. rewrite walk_cons, Hq, Hd, He. exact H1.
Qed.

(** An entry under the directory [dir] resolves to, other than a link,
    is what [stat] finds at [dir] joined with the entry's relative path. *)
Lemma stat_entry root cwd dir es d es' nm n :
  stat root cwd (parse_path dir) = Some (Dir es) -> wf (Dir es) = true ->
  dreach es d es' -> In (nm, n) es' -> (forall t, n <> Link t) ->
  stat root cwd (join (parse_path dir) (d ++ [nm])) = Some n.
Proof.
  intros Hs Hw Hr Hin Hn. unfold stat in *. simpl.
  destruct (walk root maxsymlinks _ (parts (parse_path dir))) as [q|] eqn:Ew; [|discriminate].
  destruct (walk_app _ _ _ _ _ Ew) as (b & _ & Hb). rewrite Hb.
  destruct (walk_dreach root es d es' Hr q b [nm] Hs Hw) as (H1 & H2 & H3). rewrite H1.
  destruct (wf_entry es' nm n H3 Hin) as (He & Hd & _).
  rewrite walk_cons, H2, Hd, He.
  assert (Hw' : walk root b ((q ++ d) ++ [nm]) [] = Some ((q ++ d) ++ [nm])) by (destruct b; reflexivity).
  destruct n as [|t| |]; [| exfalso; exact (Hn t eq_refl) | |];
    rewrite Hw', lookup_app, H2; simpl; rewrite He; reflexivity.
Qed.

End FsFacts.

(** *** Lemmas on the batch runners *)
Module RunnerFacts.

Import Py Runner.

Lemma in_write nm d x : In x (write nm d) <-> In x d \/ x = nm.
Proof.
  unfold write. destruct (existsb (str_eqb nm) d) eqn:E.
  - apply existsb_exists in E. destruct E as (y & Hy & Heq).
    apply str_eqb_eq in Heq; subst y. intuition (subst; assumption).
  - rewrite in_app_iff. simpl. intuition.
Qed.

Lemma nodup_write nm d : NoDup d -> NoDup (write nm d).
Proof.
  unfold write. destruct (existsb (str_eqb nm) d) eqn:E; intros H; [exact H|].
  apply NoDup_app; [exact H|repeat constructor; simpl; tauto|].
  intros x Hx [->|[]]. assert (existsb (str_eqb x) d = true) as E'.
  { apply existsb_exists. exists x. split; [exact Hx|]. apply str_eqb_eq. reflexivity. }
  rewrite E' in E. discriminate.
Qed.

Lemma run_count f files st :
  count (run f files st) = count st + List.length (filter (fun p => is_not_none (f p)) files).
Proof.
  revert st; induction files as [|p r IH]; intros st; simpl; [lia|].
  rewrite IH. destruct (f p); simpl; lia.
Qed.

Lemma run_written f files st x :
  In x (written (run f files st)) <->
  In x (written st) \/ exists p, In p files /\ f p = Some x.
Proof.
  revert st; induction files as [|p r IH]; intros st; simpl.
  - split; [tauto|]. intros [H|(p & [] & _)]; exact H.
  - rewrite IH. destruct (f p) as [nm|] eqn:Hf; simpl; [rewrite in_write|]; split.
    + intros [[H| ->]|(q & Hq & Hfq)]; [left; exact H|right; exists p; auto|right; exists q; auto].
    + intros [H|(q & [<-|Hq] & Hfq)]; [left; left; exact H| |right; exists q; auto].
      rewrite Hf in Hfq. injection Hfq as ->. left; right; reflexivity.
    + intros [H|(q & Hq & Hfq)]; [left; exact H|right; exists q; auto].
    + intros [H|(q & [<-|Hq] & Hfq)]; [left; exact H| |right; exists q; auto].
      rewrite Hf in Hfq. discriminate.
Qed.

Lemma run_written_nodup f files st : NoDup (written st) -> NoDup (written (run f files st)).
Proof.
  revert st; induction files as [|p r IH]; intros st H; simpl; [exact H|].
  apply IH. destruct (f p); simpl; [apply nodup_write|]; exact H.
Qed.

Lemma perm_filter_length {A} (g : A -> bool) l l' :
  Permutation l l' -> List.length (filter g l) = List.length (filter g l').
Proof.
  induction 1; simpl.
  - reflexivity.
  - destruct (g x); simpl; lia.
  - destruct (g x), (g y); simpl; reflexivity.
  - lia.
Qed.

(** A run of [f] over any collection order of [l], from an output
    directory [d]. *)
Lemma run_perm f l order d :
  Permutation l order ->
  count (run f order (init d)) = List.length (filter (fun p => is_not_none (f p)) l) /\
  (forall x, In x (written (run f order (init d))) <-> exists p, In p l /\ f p = Some x) /\
  NoDup (written (run f order (init d))).
Proof.
  intros Hp. split; [|split].
  - rewrite run_count. simpl. symmetry. apply perm_filter_length. exact Hp.
  - intros x. rewrite run_written. simpl. split.
    + intros [[]|(p & Hin & Hf)]. exists p. split; [|exact Hf].
      apply Permutation_in with order; [apply Permutation_sym|]; assumption.
    + intros (p & Hin & Hf). right. exists p. split; [|exact Hf].
      apply Permutation_in with l; assumption.
  - apply run_written_nodup. constructor.
Qed.

(** The success count of a wrapper that fails exactly on [raises]. *)
Lemma count_ok (raises : Fs.path -> bool) (f : Fs.path -> option str) l :
  (forall p, is_not_none (f p) = negb (raises p)) ->
  List.length (filter (fun p => is_not_none (f p)) l) = List.length l - List.length (filter raises l).
Proof.
  intros Hf. rewrite <- (filter_length raises l).
  assert (E : filter (fun p => is_not_none (f p)) l = filter (fun p => negb (raises p)) l).
  { apply filter_ext. exact Hf. }
  rewrite E. lia.
Qed.

(** The written set has as many elements as there are distinct output
    names. *)
Lemma written_length (written_set outs : list str) :
  NoDup written_set -> NoDup outs -> (forall x, In x written_set <-> In x outs) ->
  List.length written_set = List.length outs.
Proof.
  intros H1 H2 H3. apply Permutation_length. apply NoDup_Permutation; assumption.
Qed.

End RunnerFacts.

(** *** Lemmas on the extraction and [LLMProcessor.metrics] *)
Module LlmFacts.

Import Py Exn Json LlmMetrics.

Lemma bind_inr {A B} (m : exn + A) (k : A -> exn + B) b :
  bind m k = inr b -> exists a, m = inr a /\ k a = inr b.
Proof. destruct m as [e|a]; simpl; [discriminate|eauto]. Qed.

Lemma bind_inl {A B} (m : exn + A) (k : A -> exn + B) e :
  m = inl e -> bind m k = inl e.
Proof. intros ->. reflexivity. Qed.

Lemma map_m_inr {A B} (f : A -> exn + B) l ys :
  map_m f l = inr ys -> Forall2 (fun x y => f x = inr y) l ys.
Proof.
  revert ys; induction l as [|x r IH]; simpl; intros ys H.
  - injection H as <-. constructor.
  - apply bind_inr in H as (y & Hy & H). apply bind_inr in H as (ys' & Hys & H).
    injection H as <-. constructor; auto.
Qed.

Lemma map_m_inl {A B} (f : A -> exn + B) l x e :
  In x l -> f x = inl e -> exists e', map_m f l = inl e'.
Proof.
  induction l as [|y r IH]; simpl; [intros []|]. intros [->|Hin] Hf.
  - rewrite Hf. simpl. eauto.
  - destruct (f y) as [e1|y']; simpl; [eauto|].
    destruct (IH Hin Hf) as (e' & ->). simpl. eauto.
Qed.

Lemma forall2_in_r {A B} (R : A -> B -> Prop) l ys y :
  Forall2 R l ys -> In y ys -> exists x, In x l /\ R x y.
Proof.
  induction 1 as [|x y' l' ys' Hxy _ IH]; [intros []|].
  intros [<-|Hin]; [exists x; simpl; auto|].
  destruct (IH Hin) as (x' & ? & ?). exists x'. simpl. auto.
Qed.

Lemma in_references_of references st c :
  In c (references_of references st) <->
  exists rf, In rf references /\ Runner.stem_of (fst rf) = st /\ snd rf = c.
Proof.
  unfold references_of. rewrite in_map_iff. split.
  - intros (rf & <- & Hin). apply filter_In in Hin as [Hin Hs].
    apply str_eqb_eq in Hs. eauto.
  - intros (rf & Hin & Hs & <-). exists rf. split; [reflexivity|].
    apply filter_In. split; [exact Hin|]. apply str_eqb_eq. exact Hs.
Qed.

Lemma references_of_nil references st :
  (forall rf, In rf references -> Runner.stem_of (fst rf) <> st) ->
  references_of references st = [].
Proof.
  intros H. destruct (references_of references st) as [|c r] eqn:E; [reflexivity|].
  exfalso. assert (Hc : In c (references_of references st)) by (rewrite E; left; reflexivity).
  apply in_references_of in Hc as (rf & Hin & Hs & _). exact (H rf Hin Hs).
Qed.

Lemma parse_file_path_name st ids :
  parse_file_path st = inr ids -> fst (fst ids) = st.
Proof.
  unfold parse_file_path. destruct (index (split "." st) 3); [|discriminate].
  destruct (index (split "." st) 4); [|discriminate]. injection 1 as <-. reflexivity.
Qed.

(** What a row of [result] says about its hypothesis. *)
Lemma metrics_step_some mf references log_data h r :
  metrics_step mf references log_data h = inr (Some r) ->
  (exists hyp, extract_text_from_summary_file (snd h) = inr hyp /\ non_empty hyp = true) /\
  (exists rf t, In rf references /\ Runner.stem_of (fst rf) = Runner.stem_of (fst h) /\
     extract_text_from_summary_file (snd rf) = inr t /\ non_empty t = true) /\
  file_name r = Runner.stem_of (fst h).
Proof.
  unfold metrics_step. destruct (references_of references (Runner.stem_of (fst h))) as [|c cs] eqn:Er;
    [discriminate|]. rewrite <- Er.
  intros H. apply bind_inr in H as (refs0 & Hrefs & H).
  apply bind_inr in H as (hyp & Hhyp & H).
  destruct (negb (non_empty hyp) || Nat.eqb (List.length (filter non_empty refs0)) 0) eqn:Eg;
    [discriminate|].
  apply orb_false_iff in Eg as [Eg1 Eg2]. apply negb_false_iff in Eg1.
  apply bind_inr in H as ([[fname pc] tm] & Hp & H). injection H as <-.
  split; [eauto|split].
  - destruct (filter non_empty refs0) as [|t ts] eqn:Ef; [discriminate|].
    assert (Ht : In t (filter non_empty refs0)) by (rewrite Ef; left; reflexivity).
    apply filter_In in Ht as [Ht Hne].
    apply map_m_inr in Hrefs.
    destruct (forall2_in_r _ _ _ _ Hrefs Ht) as (c' & Hc' & Hext).
    apply in_references_of in Hc' as (rf & Hin & Hs & <-). exists rf, t. auto.
  - apply parse_file_path_name in Hp. simpl in *. exact Hp.
Qed.

Lemma metrics_loop_rows mf references log_data hyps rows :
  metrics_loop mf references log_data hyps = inr rows ->
  forall r, In r rows -> exists h, In h hyps /\ metrics_step mf references log_data h = inr (Some r).
Proof.
  revert rows; induction hyps as [|h hs IH]; simpl; intros rows H r Hr.
  - injection H as <-. destruct Hr.
  - apply bind_inr in H as (o & Ho & H). apply bind_inr in H as (rest & Hrest & H).
    injection H as <-. destruct o as [x|].
    + destruct Hr as [<-|Hr]; [exists h; auto|].
      destruct (IH _ Hrest r Hr) as (h' & ? & ?). eauto.
    + destruct (IH _ Hrest r Hr) as (h' & ? & ?). eauto.
Qed.

Lemma metrics_loop_inl mf references log_data hyps h e :
  In h hyps -> metrics_step mf references log_data h = inl e ->
  exists e', metrics_loop mf references log_data hyps = inl e'.
Proof.
  induction hyps as [|h' hs IH]; simpl; [intros []|]. intros [->|Hin] Hs.
  - rewrite Hs. simpl. eauto.
  - destruct (metrics_step mf references log_data h') as [e1|o]; simpl; [eauto|].
    destruct (IH Hin Hs) as (e' & ->). simpl. eauto.
Qed.

(** The step's error does not depend on the log data. *)
Lemma metrics_step_inl_any mf references ld ld' h e :
  metrics_step mf references ld h = inl e -> metrics_step mf references ld' h = inl e.
Proof.
  unfold metrics_step. destruct (references_of references (Runner.stem_of (fst h))); [discriminate|].
  destruct (map_m extract_text_from_summary_file _); simpl; [auto|].
  destruct (extract_text_from_summary_file (snd h)); simpl; [auto|].
  destruct (_ || _); [discriminate|].
  destruct (parse_file_path _) as [e'|[[? ?] ?]]; simpl; auto. discriminate.
Qed.

Lemma metrics_abort mf references hyps log_lines h e :
  In h hyps -> (forall ld, metrics_step mf references ld h = inl e) ->
  exists e', metrics mf references hyps log_lines = inl e'.
Proof.
  intros Hin Hs. unfold metrics. destruct (parse_log_file log_lines) as [e1|ld]; simpl; [eauto|].
  destruct (metrics_loop_inl mf references ld hyps h e Hin (Hs ld)) as (e' & ->). simpl. eauto.
Qed.

Lemma str_ltb_irrefl a : str_ltb a a = false.
Proof. induction a as [|x a IH]; simpl; [reflexivity|]. rewrite Nat.ltb_irrefl. exact IH. Qed.

Lemma str_ltb_asym a b : str_ltb a b = true -> str_ltb b a = false.
Proof.
  revert b; induction a as [|x a IH]; intros [|y b]; simpl; try discriminate; auto.
  intros H.
  destruct (Nat.ltb_spec (nat_of_ascii x) (nat_of_ascii y)) as [L1|L1];
  destruct (Nat.ltb_spec (nat_of_ascii y) (nat_of_ascii x)) as [L2|L2];
    try lia; try reflexivity; try discriminate.
  apply IH. exact H.
Qed.

Lemma key_ltb_asym x y : key_ltb x y = true -> key_ltb y x = false.
Proof.
  unfold key_ltb. intros H. apply orb_true_iff in H as [H|H].
  - rewrite (str_ltb_asym _ _ H). simpl.
    destruct (str_eqb (time_in_minute y) (time_in_minute x)) eqn:E; [|reflexivity].
    apply str_eqb_eq in E. rewrite E, str_ltb_irrefl in H. discriminate.
  - apply andb_prop in H as [H1 H2]. apply str_eqb_eq in H1. rewrite H1, str_ltb_irrefl. simpl.
    rewrite str_ltb_asym by exact H2. apply andb_false_r.
Qed.

Lemma insert_row_sorted x l : Sorted key_le l -> Sorted key_le (insert_row x l).
Proof.
  induction l as [|y r IH]; simpl; intros H.
  - repeat constructor.
  - destruct (key_ltb x y) eqn:E.
    + constructor; [exact H|]. constructor. unfold key_le. apply key_ltb_asym. exact E.
    + inversion H as [|? ? Hr Hhd]; subst. constructor; [apply IH; exact Hr|].
      destruct r as [|z r']; simpl.
      * constructor. exact E.
      * destruct (key_ltb x z); constructor; [exact E|]. inversion Hhd; assumption.
Qed.

Lemma insert_row_perm x l : Permutation (x :: l) (insert_row x l).
Proof.
  induction l as [|y r IH]; simpl; [reflexivity|].
  destruct (key_ltb x y); [reflexivity|].
  rewrite perm_swap. constructor. exact IH.
Qed.

Lemma sort_rows_spec l : Sorted key_le (sort_rows l) /\ Permutation l (sort_rows l).
Proof.
  unfold sort_rows.
  assert (G : forall acc, Sorted key_le acc ->
            Sorted key_le (fold_left (fun acc x => insert_row x acc) l acc) /\
            Permutation (l ++ acc) (fold_left (fun acc x => insert_row x acc) l acc)).
  { induction l as [|x r IH]; simpl; intros acc Hs; [split; [exact Hs|reflexivity]|].
    destruct (IH (insert_row x acc) (insert_row_sorted x acc Hs)) as [H1 H2].
    split; [exact H1|]. rewrite <- H2.
    rewrite <- insert_row_perm. apply Permutation_middle. }
  destruct (G [] (Sorted_nil _)) as [H1 H2]. rewrite app_nil_r in H2. auto.
Qed.

End LlmFacts.

(** *** Lemmas on [_extract_text_from_summary_file] *)
Module JsonFacts.

Import Py Exn Json LlmFacts.

Lemma getitem_has_key v k x : getitem v k = inr x -> has_key v k.
Proof.
  destruct v; simpl; try discriminate. destruct (obj_get k kvs); [|discriminate].
  intros _. discriminate.
Qed.

Lemma extract_valid_inr v t :
  extract_text_from_summary_file (Valid v) = inr t ->
  has_key v (s "title") /\ has_key v (s "tldr") /\ has_key v (s "resume") /\
  has_key v (s "conclusion") /\
  (exists r items, getitem v (s "resume") = inr r /\ iter r = inr items) /\ t <> [].
Proof.
  simpl. intros H.
  apply bind_inr in H as (title & H1 & H). apply bind_inr in H as (tldr & H2 & H).
  apply bind_inr in H as (resume & H3 & H). apply bind_inr in H as (items & H4 & H).
  apply bind_inr in H as (concl & H5 & H). apply bind_inr in H as (parts & H6 & H).
  injection H as <-.
  repeat split; try (eapply getitem_has_key; eassumption); [eauto|].
  simpl in H6. apply bind_inr in H6 as (x & Hx & H6). apply bind_inr in H6 as (ys & Hys & H6).
  injection H6 as <-. unfold str_join. destruct x as [|c x].
  - simpl in Hys.
    apply bind_inr in Hys as (y & _ & Hys). apply bind_inr in Hys as (zs & _ & Hys).
    injection Hys as <-. simpl. discriminate.
  - simpl. discriminate.
Qed.

Lemma extract_empty_iff c : extract_text_from_summary_file c = inr [] <-> c = Invalid.
Proof.
  split.
  - destruct c as [|v]; [reflexivity|]. intros H.
    apply extract_valid_inr in H as (_ & _ & _ & _ & _ & H). contradiction.
  - intros ->. reflexivity.
Qed.

Lemma extract_missing v :
  (exists k, In k [s "title"; s "tldr"; s "resume"; s "conclusion"] /\ ~ has_key v k) \/
  (exists r e, getitem v (s "resume") = inr r /\ iter r = inl e) ->
  exists e, extract_text_from_summary_file (Valid v) = inl e.
Proof.
  intros Hm. destruct (extract_text_from_summary_file (Valid v)) as [e|t] eqn:E; [eauto|].
  exfalso. apply extract_valid_inr in E as (Ht & Hd & Hr & Hc & (r & items & Hr' & Hi) & _).
  destruct Hm as [(k & Hk & Hn)|(r' & e & Hr'' & Hi')].
  - simpl in Hk. destruct Hk as [<-|[<-|[<-|[<-|[]]]]]; contradiction.
  - rewrite Hr' in Hr''. injection Hr'' as <-. rewrite Hi in Hi'. discriminate.
Qed.

End JsonFacts.

(** *** Lemmas on [ASRProcessor.metrics] *)
Module AsrMetricsFacts.

Import Py Exn AsrMetrics.

Lemma name_to_reference_some refs nm :
  name_to_reference refs nm <> None <-> exists rf, In rf refs /\ Runner.name_of (fst rf) = nm.
Proof.
  induction refs as [|[p t] r IH]; simpl.
  - split; [intros H; exfalso; apply H; reflexivity|intros (rf & [] & _)].
  - destruct (name_to_reference r nm) as [x|] eqn:E.
    + split; [|intros _; discriminate]. intros _.
      destruct (proj1 IH ltac:(discriminate)) as (rf & ? & ?). eauto.
    + destruct (str_eqb (Runner.name_of p) nm) eqn:Ep.
      * apply str_eqb_eq in Ep. split; [|intros _; discriminate].
        intros _. exists (p, t). auto.
      * split; [intros H; exfalso; apply H; reflexivity|].
        intros (rf & [<-|Hin] & Hn).
        -- simpl in Hn. subst nm. rewrite (proj2 (str_eqb_eq _ _) eq_refl) in Ep. discriminate.
        -- exfalso. apply (proj2 IH); eauto.
Qed.

Lemma asr_metrics_step_some sc refs logs h x :
  metrics_step sc refs logs h = inr (Some x) ->
  (exists rf, In rf refs /\ Runner.name_of (fst rf) = Runner.name_of (fst h)) /\
  a_file_name x = Runner.name_of (fst h).
Proof.
  unfold metrics_step. destruct (name_to_reference refs (Runner.name_of (fst h))) as [t|] eqn:E;
    [|discriminate].
  destruct (sc t (snd h)) as [e|fields]; simpl; [discriminate|].
  injection 1 as <-. split; [|reflexivity].
  apply name_to_reference_some. rewrite E. discriminate.
Qed.

Lemma metrics_step_unmatched sc refs logs h :
  (forall rf, In rf refs -> Runner.name_of (fst rf) <> Runner.name_of (fst h)) ->
  metrics_step sc refs logs h = inr None.
Proof.
  intros H. unfold metrics_step.
  destruct (name_to_reference refs (Runner.name_of (fst h))) eqn:E; [|reflexivity].
  exfalso. assert (Hs : name_to_reference refs (Runner.name_of (fst h)) <> None) by (rewrite E; discriminate).
  apply name_to_reference_some in Hs as (rf & Hin & Hn). exact (H rf Hin Hn).
Qed.

(** The in-loop writes against the rows collected by the whole loop. *)
Lemma loop_vs_collect sc refs logs hyps result csv :
  match collect_rows sc refs logs hyps with
  | inl e => fst (metrics_loop sc refs logs hyps result csv) = inl e
  | inr rows => metrics_loop sc refs logs hyps result csv =
                (inr tt, match rows with [] => csv | _ => Some (result ++ rows) end)
  end.
Proof.
  revert result csv; induction hyps as [|h hs IH]; intros result csv; simpl; [reflexivity|].
  destruct (metrics_step sc refs logs h) as [e|[x|]]; simpl; [reflexivity| |].
  - specialize (IH (result ++ [x]) (Some (result ++ [x]))).
    destruct (collect_rows sc refs logs hs) as [e|rows]; simpl; [exact IH|].
    rewrite IH. destruct rows; [reflexivity|].
    rewrite <- app_assoc. reflexivity.
  - specialize (IH result csv). destruct (collect_rows sc refs logs hs); exact IH.
Qed.

Lemma collect_rows_inr sc refs logs hyps rows :
  collect_rows sc refs logs hyps = inr rows -> rows = step_rows sc refs logs hyps.
Proof.
  revert rows; induction hyps as [|h hs IH]; simpl; intros rows H.
  - injection H as <-. reflexivity.
  - unfold step_rows in *. simpl.
    destruct (metrics_step sc refs logs h) as [e|[x|]]; simpl in *; [discriminate| |].
    + destruct (collect_rows sc refs logs hs) as [e|rest]; simpl in H; [discriminate|].
      injection H as <-. rewrite (IH rest eq_refl). reflexivity.
    + destruct (collect_rows sc refs logs hs) as [e|rest]; simpl in H; [discriminate|].
      injection H as <-. apply IH. reflexivity.
Qed.

Lemma collect_rows_total sc refs logs hyps :
  (forall h, In h hyps -> exists o, metrics_step sc refs logs h = inr o) ->
  collect_rows sc refs logs hyps = inr (step_rows sc refs logs hyps).
Proof.
  induction hyps as [|h hs IH]; simpl; intros H; [reflexivity|].
  destruct (H h (or_introl eq_refl)) as (o & Ho). rewrite Ho. simpl.
  rewrite IH by (intros h' Hin; apply H; right; exact Hin).
  unfold step_rows. simpl. rewrite ?Ho. destruct o; reflexivity.
Qed.

Lemma in_step_rows sc refs logs hyps r :
  In r (step_rows sc refs logs hyps) <-> exists h, In h hyps /\ metrics_step sc refs logs h = inr (Some r).
Proof.
  unfold step_rows. rewrite in_flat_map. split.
  - intros (h & Hin & Hr).
    destruct (metrics_step sc refs logs h) as [e|[x|]] eqn:E; simpl in Hr; try contradiction.
    destruct Hr as [<-|[]]. eauto.
  - intros (h & Hin & Hs). exists h. rewrite Hs. simpl. auto.
Qed.

End AsrMetricsFacts.

(** *** Lemmas on the output directory and the resume filter of [summarize] *)
Module ResumeFacts.

Import Py Runner.

Lemma run_out_dir f files st x :
  In x (out_dir (run f files st)) <->
  In x (out_dir st) \/ exists p, In p files /\ f p = Some x.
Proof.
  revert st; induction files as [|p r IH]; intros st; simpl.
  - split; [tauto|]. intros [H|(p & [] & _)]; exact H.
  - rewrite IH. destruct (f p) as [nm|] eqn:Hf; simpl; [rewrite RunnerFacts.in_write|]; split.
    + intros [[H| ->]|(q & Hq & Hfq)]; [left; exact H|right; exists p; auto|right; exists q; auto].
    + intros [H|(q & [<-|Hq] & Hfq)]; [left; left; exact H| |right; exists q; auto].
      rewrite Hf in Hfq. injection Hfq as ->. left; right; reflexivity.
    + intros [H|(q & Hq & Hfq)]; [left; exact H|right; exists q; auto].
    + intros [H|(q & [<-|Hq] & Hfq)]; [left; exact H| |right; exists q; auto].
      rewrite Hf in Hfq. discriminate.
Qed.

Lemma rfind_app c a b :
  rfind c (a ++ b) = match rfind c b with Some i => Some (List.length a + i) | None => rfind c a end.
Proof.
  induction a as [|y a IH]; simpl.
  - destruct (rfind c b); reflexivity.
  - rewrite IH. destruct (rfind c b); [reflexivity|]. reflexivity.
Qed.

(** [Path(x + ".json")] has stem [x] and suffix [".json"] when [x] is
    not empty. *)
Lemma stem_suffix_json x :
  x <> [] -> stem_of_name (x ++ s ".json") = x /\ suffix_of_name (x ++ s ".json") = s ".json".
Proof.
  intros Hx. unfold stem_of_name, suffix_of_name. rewrite rfind_app.
  replace (rfind "." (s ".json")) with (Some 0) by reflexivity.
  assert (Hh : has_suffix_at (x ++ s ".json") (List.length x + 0) = true).
  { unfold has_suffix_at. rewrite length_app. simpl.
    destruct x as [|c x]; [congruence|]. simpl. apply Nat.ltb_lt. lia. }
  rewrite Hh, Nat.add_0_r. split.
  - rewrite firstn_app, Nat.sub_diag, firstn_all. simpl. apply app_nil_r.
  - rewrite skipn_app, Nat.sub_diag, skipn_all. reflexivity.
Qed.

(** A name with a suffix has a non-empty stem. *)
Lemma suffix_stem_nonempty nm : suffix_of_name nm <> [] -> stem_of_name nm <> [].
Proof.
  unfold suffix_of_name, stem_of_name. destruct (rfind "." nm) as [i|]; [|congruence].
  destruct (has_suffix_at nm i) eqn:E; [|congruence]. intros _.
  unfold has_suffix_at in E. apply andb_prop in E as [E1 E2].
  apply Nat.ltb_lt in E1, E2. intros H.
  assert (Hl : List.length (firstn i nm) = i) by (rewrite length_firstn; lia).
  rewrite H in Hl. simpl in Hl. lia.
Qed.

Lemma in_exist_transcripts d x :
  In x (exist_transcripts d) <->
  exists nm, In nm d /\ suffix_of_name nm = s ".json" /\ stem_of_name nm = x.
Proof.
  unfold exist_transcripts. rewrite in_map_iff. split.
  - intros (nm & <- & Hin). apply filter_In in Hin as [Hin Hs].
    apply str_eqb_eq in Hs. eauto.
  - intros (nm & Hin & Hs & <-). exists nm. split; [reflexivity|].
    apply filter_In. split; [exact Hin|]. apply str_eqb_eq. exact Hs.
Qed.

Lemma in_transcript_paths d files p :
  In p (transcript_paths d files) <-> In p files /\ ~ In (stem_of p) (exist_transcripts d).
Proof.
  unfold transcript_paths. rewrite filter_In. split.
  - intros [Hin Hn]. split; [exact Hin|]. intros Hx.
    assert (existsb (str_eqb (stem_of p)) (exist_transcripts d) = true) as E.
    { apply existsb_exists. exists (stem_of p). split; [exact Hx|]. apply str_eqb_eq. reflexivity. }
    rewrite E in Hn. discriminate.
  - intros [Hin Hn]. split; [exact Hin|].
    destruct (existsb (str_eqb (stem_of p)) (exist_transcripts d)) eqn:E; [|reflexivity].
    exfalso. apply existsb_exists in E as (y & Hy & Heq). apply str_eqb_eq in Heq.
    subst y. exact (Hn Hy).
Qed.

Lemma nil_of_no_member {A} (l : list A) : (forall x, ~ In x l) -> l = [].
Proof. destruct l as [|x l]; [reflexivity|]. intros H. exfalso. apply (H x). left. reflexivity. Qed.

Lemma summarize_inv raises mt files dir0 c n st :
  summarize raises mt files dir0 (inr (c, n, st)) ->
  (0 < mt)%Z /\ exists order, Permutation (transcript_paths dir0 files) order /\
    (c, n, st) = (count (run (summarizer_wrapper raises) order (init dir0)),
                  List.length (transcript_paths dir0 files),
                  run (summarizer_wrapper raises) order (init dir0)).
Proof.
  inversion 1; subst. split; [assumption|]. eexists. split; [eassumption|reflexivity].
Qed.

Lemma summarize_inl raises mt files dir0 e :
  summarize raises mt files dir0 (inl e) -> (mt <= 0)%Z /\ e = Exn.ValueError.
Proof. inversion 1. auto. Qed.

(** After a run in which no pending input raised, every [.txt] input has
    its [.json] output in the output directory. *)
Lemma resume_complete raises mt files dir0 c n st :
  (forall p, In p files -> suffix_of_name (name_of p) = s ".txt") ->
  (forall p, In p (transcript_paths dir0 files) -> raises p = false) ->
  summarize raises mt files dir0 (inr (c, n, st)) ->
  transcript_paths (out_dir st) files = [].
Proof.
  intros Htxt Hok Hs. apply summarize_inv in Hs as (_ & order & Hperm & Heq).
  injection Heq as _ _ ->.
  apply nil_of_no_member. intros p Hp. apply in_transcript_paths in Hp as [Hin Hn].
  apply Hn. clear Hn. apply in_exist_transcripts.
  destruct (in_dec (list_eq_dec ascii_dec) (stem_of p) (exist_transcripts dir0)) as [Hx|Hx].
  - apply in_exist_transcripts in Hx as (nm & Hnm & Hs & Heq).
    exists nm. split; [|split; assumption]. apply run_out_dir. left. exact Hnm.
  - assert (Htp : In p (transcript_paths dir0 files)) by (apply in_transcript_paths; auto).
    assert (Hne : stem_of p <> []).
    { unfold stem_of. apply suffix_stem_nonempty. rewrite Htxt by exact Hin. discriminate. }
    destruct (stem_suffix_json (stem_of p) Hne) as [Hst Hsu].
    exists (stem_of p ++ s ".json"). split; [|split; assumption].
    apply run_out_dir. right. exists p. split.
    + apply Permutation_in with (transcript_paths dir0 files); assumption.
    + unfold summarizer_wrapper. rewrite (Hok p Htp). reflexivity.
Qed.

Lemma summarize_nothing_pending raises mt files dir r :
  transcript_paths dir files = [] ->
  summarize raises mt files dir r ->
  r = if (0 <? mt)%Z then inr (0, 0, init dir) else inl Exn.ValueError.
Proof.
  intros Hnil Hs. destruct r as [e|[[c n] st]].
  - apply summarize_inl in Hs as [Hmt ->].
    replace (0 <? mt)%Z with false by (symmetry; apply Z.ltb_ge; exact Hmt). reflexivity.
  - apply summarize_inv in Hs as (Hmt & order & Hperm & Heq).
    replace (0 <? mt)%Z with true by (symmetry; apply Z.ltb_lt; exact Hmt).
    rewrite Heq. rewrite Hnil in Hperm |- *. apply Permutation_nil in Hperm. subst order.
    reflexivity.
Qed.

End ResumeFacts.

(** *** Lemmas on [ASRProcessor.parse] *)
Module AsrParseFacts.

Import Py Exn AsrParse.

Lemma parse_loop_abort parser pre bad post written e :
  (forall p, In p pre -> exists t, parser p = inr t) ->
  parser bad = inl e ->
  exists ws, parse_loop parser (pre ++ bad :: post) written = (inl e, written ++ ws) /\
             map fst ws = map output_path pre.
Proof.
  revert written; induction pre as [|p pre IH]; intros written Hpre Hbad; simpl.
  - rewrite Hbad. exists []. rewrite app_nil_r. auto.
  - destruct (Hpre p (or_introl eq_refl)) as (t & Ht). rewrite Ht.
    destruct (IH (written ++ [(output_path p, t)]) ltac:(intros q Hq; apply Hpre; right; exact Hq) Hbad)
      as (ws & Hl & Hm).
    exists ((output_path p, t) :: ws). rewrite Hl, <- app_assoc. simpl. rewrite Hm. auto.
Qed.

End AsrParseFacts.

(** *** The two dispatch modes of the batch runners *)
Module BatchFacts.

Import Py Runner.

Lemma transcribe_inv raises sup mt ext files dir0 r :
  transcribe raises sup mt ext files dir0 r ->
  exists order, Permutation files order /\
    r = (count (run (transcriber_wrapper raises ext) order (init dir0)), List.length files,
         run (transcriber_wrapper raises ext) order (init dir0)).
Proof.
  destruct 1 as [order _ Hp st|_ st]; [exists order|exists files]; subst st; auto.
Qed.

Lemma transcribe_exists raises sup mt ext files dir0 :
  exists r, transcribe raises sup mt ext files dir0 r.
Proof.
  destruct (sup && (1 <? mt)%Z) eqn:E.
  - eexists. apply (transcribe_pool raises sup mt ext files dir0 files E). reflexivity.
  - eexists. apply (transcribe_seq raises sup mt ext files dir0 E).
Qed.

Lemma summarize_exists raises mt files dir0 : exists r, summarize raises mt files dir0 r.
Proof.
  destruct (Z.lt_ge_cases 0 mt) as [Hmt|Hmt].
  - eexists. apply (summarize_pool raises mt files dir0 (transcript_paths dir0 files) Hmt). reflexivity.
  - eexists. apply (summarize_max_workers raises mt files dir0 Hmt).
Qed.

Lemma filter_negb_length {A} (f : A -> bool) l :
  List.length (filter (fun x => negb (f x)) l) = List.length l - List.length (filter f l).
Proof. pose proof (filter_length f l). lia. Qed.

(** A run over a collection order of [l] with a wrapper that returns
    [out p] unless [raises p]. *)
Lemma batch_outcome (raises : Fs.path -> bool) (out : Fs.path -> str) (f : Fs.path -> option str) l order d :
  (forall p, f p = if raises p then None else Some (out p)) ->
  Permutation l order ->
  let st := run f order (init d) in
  count st = List.length l - List.length (filter raises l) /\
  (forall x, In x (written st) <-> exists p, In p l /\ raises p = false /\ x = out p) /\
  (NoDup (map out (filter (fun p => negb (raises p)) l)) -> List.length (written st) = count st).
Proof.
  intros Hf Hp st. destruct (RunnerFacts.run_perm f l order d Hp) as (Hc & Hw & Hnd).
  fold st in Hc, Hw, Hnd.
  assert (Hok : forall p, is_not_none (f p) = negb (raises p)).
  { intros p. rewrite Hf. destruct (raises p); reflexivity. }
  assert (Hc' : count st = List.length l - List.length (filter raises l)).
  { rewrite Hc. apply RunnerFacts.count_ok. exact Hok. }
  assert (Hw' : forall x, In x (written st) <-> exists p, In p l /\ raises p = false /\ x = out p).
  { intros x. rewrite Hw. split; intros (p & Hin & H); exists p; split; auto.
    - rewrite Hf in H. destruct (raises p); [discriminate|]. injection H as <-. auto.
    - destruct H as [Hr ->]. rewrite Hf, Hr. reflexivity. }
  split; [exact Hc'|split; [exact Hw'|]].
  intros Hnd'. rewrite (RunnerFacts.written_length _ _ Hnd Hnd').
  - rewrite length_map, Hc'. apply filter_negb_length.
  - intros x. rewrite Hw', in_map_iff. split.
    + intros (p & Hin & Hr & ->). exists p. split; [reflexivity|]. apply filter_In.
      rewrite Hr. auto.
    + intros (p & <- & Hin). apply filter_In in Hin as [Hin Hr].
      exists p. destruct (raises p); [discriminate|]. auto.
Qed.

End BatchFacts.

(** *** Further lemmas on [LLMProcessor.metrics] *)
Module LlmFacts2.

Import Py Exn Json LlmMetrics LlmFacts.

Lemma forall2_in_l {A B} (R : A -> B -> Prop) l ys x :
  Forall2 R l ys -> In x l -> exists y, In y ys /\ R x y.
Proof.
  induction 1 as [|x' y l' ys' Hxy _ IH]; [intros []|].
  intros [<-|Hin]; [exists y; simpl; auto|].
  destruct (IH Hin) as (y' & ? & ?). exists y'. simpl. auto.
Qed.

Lemma map_m_total {A B} (f : A -> exn + B) l :
  (forall x, In x l -> exists y, f x = inr y) ->
  exists ys, map_m f l = inr ys /\ Forall2 (fun x y => f x = inr y) l ys.
Proof.
  induction l as [|x r IH]; simpl; intros H; [eauto|].
  destruct (H x (or_introl eq_refl)) as (y & Hy).
  destruct IH as (ys & Hys & HF); [intros x' Hx'; apply H; right; exact Hx'|].
  exists (y :: ys). rewrite Hy, Hys. simpl. auto.
Qed.

Lemma references_of_cons references st :
  (exists rf, In rf references /\ Runner.stem_of (fst rf) = st) ->
  references_of references st <> [].
Proof.
  intros (rf & Hin & Hs) E.
  assert (Hc : In (snd rf) (references_of references st)) by (apply in_references_of; eauto).
  rewrite E in Hc. exact Hc.
Qed.

(** An extraction raising on a matched hypothesis or on one of its
    references makes the step raise. *)
Lemma metrics_step_extract_inl mf references ld h e :
  (exists rf, In rf references /\ Runner.stem_of (fst rf) = Runner.stem_of (fst h)) ->
  (extract_text_from_summary_file (snd h) = inl e \/
   exists rf, In rf references /\ Runner.stem_of (fst rf) = Runner.stem_of (fst h) /\
     extract_text_from_summary_file (snd rf) = inl e) ->
  exists e', metrics_step mf references ld h = inl e'.
Proof.
  intros Hm Hx. unfold metrics_step.
  pose proof (references_of_cons _ _ Hm) as Hne.
  destruct (references_of references (Runner.stem_of (fst h))) as [|c cs] eqn:Er;
    [congruence|]. rewrite <- Er.
  destruct (map_m extract_text_from_summary_file (references_of references (Runner.stem_of (fst h))))
    as [e1|refs0] eqn:Em; simpl; [eauto|].
  destruct Hx as [Hx|(rf & Hin & Hs & Hx)].
  - rewrite Hx. simpl. eauto.
  - exfalso. apply map_m_inr in Em.
    assert (Hc : In (snd rf) (references_of references (Runner.stem_of (fst h))))
      by (apply in_references_of; eauto).
    destruct (forall2_in_l _ _ _ _ Em Hc) as (y & _ & Hy). congruence.
Qed.

Lemma split_index_none c x n :
  List.length (split c x) <= n -> index (split c x) n = None.
Proof. intros H. unfold index. apply nth_error_None. exact H. Qed.

(** A matched hypothesis with text, one of whose references has text,
    reaches [_parse_file_path]. *)
Lemma metrics_step_index_error mf references ld h t hyp :
  (forall rf, In rf references -> Runner.stem_of (fst rf) = Runner.stem_of (fst h) ->
     exists u, extract_text_from_summary_file (snd rf) = inr u) ->
  (exists rf, In rf references /\ Runner.stem_of (fst rf) = Runner.stem_of (fst h) /\
     extract_text_from_summary_file (snd rf) = inr t) ->
  non_empty t = true ->
  extract_text_from_summary_file (snd h) = inr hyp -> non_empty hyp = true ->
  List.length (split "." (Runner.stem_of (fst h))) < 5 ->
  metrics_step mf references ld h = inl IndexError.
Proof.
  intros Hall (rf & Hin & Hs & Ht) Hne Hh Hhne Hlen. unfold metrics_step.
  pose proof (references_of_cons references (Runner.stem_of (fst h)) ltac:(eauto)) as Hc.
  destruct (references_of references (Runner.stem_of (fst h))) as [|c cs] eqn:Er;
    [congruence|]. rewrite <- Er.
  destruct (map_m_total extract_text_from_summary_file
              (references_of references (Runner.stem_of (fst h)))) as (refs0 & Hm & HF).
  { intros x Hx. apply in_references_of in Hx as (rf' & Hin' & Hs' & <-). apply Hall; assumption. }
  rewrite Hm. simpl. rewrite Hh. simpl. rewrite Hhne. simpl.
  assert (Hin0 : In t (filter non_empty refs0)).
  { apply filter_In. split; [|exact Hne].
    assert (Hx : In (snd rf) (references_of references (Runner.stem_of (fst h))))
      by (apply in_references_of; eauto).
    destruct (forall2_in_l _ _ _ _ HF Hx) as (y & Hy & Hey). congruence. }
  destruct (filter non_empty refs0) as [|z zs]; [destruct Hin0|]. simpl.
  unfold parse_file_path.
  destruct (index (split "." (Runner.stem_of (fst h))) 3) eqn:E3; [|reflexivity].
  rewrite split_index_none by lia. reflexivity.
Qed.

Lemma metrics_inr mf references hyps log_lines rows :
  metrics mf references hyps log_lines = inr rows ->
  exists ld result, parse_log_file log_lines = inr ld /\
    metrics_loop mf references ld hyps = inr result /\ rows = sort_rows result.
Proof.
  unfold metrics. intros H. apply bind_inr in H as (ld & Hld & H).
  apply bind_inr in H as (result & Hr & H). injection H as <-. eauto.
Qed.

End LlmFacts2.

(** *** The state of [metrics.csv] along the ASR loop *)
Module AsrMetricsFacts2.

Import Py Exn AsrMetrics AsrMetricsFacts.

Lemma metrics_loop_csv sc refs logs hyps result csv res csv' :
  metrics_loop sc refs logs hyps result csv = (res, csv') ->
  csv' = csv \/ exists rows, csv' = Some (result ++ rows) /\
    forall r, In r rows -> exists h, In h hyps /\ metrics_step sc refs logs h = inr (Some r).
Proof.
  revert result csv; induction hyps as [|h hs IH]; intros result csv; simpl.
  - injection 1 as _ <-. auto.
  - destruct (metrics_step sc refs logs h) as [e|[x|]] eqn:Es.
    + injection 1 as _ <-. auto.
    + intros H. right. destruct (IH _ _ H) as [->|(rows & -> & Hr)].
      * exists [x]. split; [reflexivity|]. intros r [<-|[]]. eauto.
      * exists (x :: rows). rewrite <- app_assoc. split; [reflexivity|].
        intros r [<-|Hin]; [eauto|]. destruct (Hr r Hin) as (h' & ? & ?). eauto.
    + intros H. destruct (IH _ _ H) as [->|(rows & -> & Hr)]; [auto|].
      right. exists rows. split; [reflexivity|].
      intros r Hin. destruct (Hr r Hin) as (h' & ? & ?). eauto.
Qed.

End AsrMetricsFacts2.

(* ------------------------------------------------------------------ *)
(** ** The properties of the specification                             *)
(* ------------------------------------------------------------------ *)

Module Claims.

Import Py Exn Json Runner Samples.

(** *** Batch runs and per-item failures *)

(** C1, the runners as the code has them.  Each wrapper returns [None]
    exactly when the vendor callable raises.  [transcribe] completes in
    both dispatch modes; [summarize] completes when [max_threads >= 1] and
    raises [ValueError] otherwise.  For N pending inputs, K of which raise,
    the logged pair is (N - K, N); for [summarize], N counts the inputs
    left after the resume filter.  The output files written are
    [stem + extension] of the inputs that did not raise, all in one flat
    output directory: they number N - K only when these names are
    distinct, and inputs with equal stems in different directories share
    one output file. *)
Theorem batch_run_counts :
  (forall raises ext p, transcriber_wrapper raises ext p = None <-> raises p = true) /\
  (forall raises p, summarizer_wrapper raises p = None <-> raises p = true) /\
  (forall raises sup mt ext files dir0, exists r, transcribe raises sup mt ext files dir0 r) /\
  (forall raises sup mt ext files dir0 c n st,
     transcribe raises sup mt ext files dir0 (c, n, st) ->
     c = List.length files - List.length (filter raises files) /\ n = List.length files /\
     (forall x, In x (written st) <->
        exists p, In p files /\ raises p = false /\ x = stem_of p ++ ext) /\
     (NoDup (map (fun p => stem_of p ++ ext) (filter (fun p => negb (raises p)) files)) ->
      List.length (written st) = c)) /\
  (forall raises mt files dir0, exists r, summarize raises mt files dir0 r) /\
  (forall raises mt files dir0 e,
     summarize raises mt files dir0 (inl e) <-> (mt <= 0)%Z /\ e = ValueError) /\
  (forall raises mt files dir0 c n st,
     summarize raises mt files dir0 (inr (c, n, st)) ->
     let pending := transcript_paths dir0 files in
     c = List.length pending - List.length (filter raises pending) /\ n = List.length pending /\
     (forall x, In x (written st) <->
        exists p, In p pending /\ raises p = false /\ x = stem_of p ++ s ".json") /\
     (NoDup (map (fun p => stem_of p ++ s ".json") (filter (fun p => negb (raises p)) pending)) ->
      List.length (written st) = c)).
Proof.
  split; [|split; [|split; [|split; [|split; [|split]]]]].
  - intros raises ext p. unfold transcriber_wrapper. destruct (raises p); intuition discriminate.
  - intros raises p. unfold summarizer_wrapper. destruct (raises p); intuition discriminate.
  - apply BatchFacts.transcribe_exists.
  - intros raises sup mt ext files dir0 c n st H.
    apply BatchFacts.transcribe_inv in H as (order & Hp & Heq). injection Heq as -> -> ->.
    pose proof (BatchFacts.batch_outcome raises (fun p => stem_of p ++ ext)
                  (transcriber_wrapper raises ext) files order dir0 (fun p => eq_refl) Hp) as HB.
    cbv zeta in HB. destruct HB as (H1 & H2 & H3). auto.
  - apply BatchFacts.summarize_exists.
  - intros raises mt files dir0 e. split.
    + apply ResumeFacts.summarize_inl.
    + intros [Hmt ->]. exact (summarize_max_workers raises mt files dir0 Hmt).
  - intros raises mt files dir0 c n st H pending.
    apply ResumeFacts.summarize_inv in H as (_ & order & Hp & Heq). injection Heq as -> -> ->.
    pose proof (BatchFacts.batch_outcome raises (fun p => stem_of p ++ s ".json")
                  (summarizer_wrapper raises) pending order dir0 (fun p => eq_refl) Hp) as HB.
    cbv zeta in HB. destruct HB as (H1 & H2 & H3). auto.
Qed.

(** Two distinct inputs, none raising, sequential dispatch: two
    processed, two outputs. *)
Lemma batch_run_counts_witness :
  exists c n st,
    transcribe never false 1%Z (s ".json")
      [path_of true "data" "a.mp3"; path_of true "data" "b.mp3"] [] (c, n, st) /\
    c = 2 /\ n = 2 /\ List.length (written st) = 2.
Proof.
  pose proof (transcribe_seq never false 1%Z (s ".json")
                [path_of true "data" "a.mp3"; path_of true "data" "b.mp3"] [] eq_refl) as H.
  cbv zeta in H. do 3 eexists. split; [exact H|].
  pose proof (proj1 (proj2 (proj2 (proj2 batch_run_counts)))) as Ht.
  destruct (Ht _ _ _ _ _ _ _ _ _ H) as (Hc & _ & _ & Hl).
  rewrite Hc. split; [reflexivity|split; [reflexivity|]].
  rewrite Hl; [reflexivity|]. vm_compute.
  apply NoDup_cons; [intros [Heq|[]]; discriminate|].
  apply NoDup_cons; [intros []|apply NoDup_nil].
Defined.

(** C1 fails on [data/a.mp3] and [other/a.mp3], none raising, sequential
    dispatch.  The run reports (2, 2) = (N - K, N), but only one
    output file [a.json] exists, not N - K = 2. *)
Lemma batch_run_counts_counterexample :
  exists c n st,
    transcribe never false 1%Z (s ".json")
      [path_of true "data" "a.mp3"; path_of true "other" "a.mp3"] [] (c, n, st) /\
    c = 2 /\ n = 2 /\ List.length (written st) = 1.
Proof.
  pose proof (transcribe_seq never false 1%Z (s ".json")
                [path_of true "data" "a.mp3"; path_of true "other" "a.mp3"] [] eq_refl) as H.
  cbv zeta in H. do 3 eexists. split; [exact H|]. vm_compute. auto.
Qed.

(** *** The ASR log scraper *)

(** C2.  On a log that [_parse_log_file] reads through, the records are
    exactly one per path [p] that has a completion line: its total is the
    elapsed time of the last completion line for [p]; its operation time is
    that of the last [transcribe_audio] operation line for [p], and the
    total when there is none.  A completion line with 12.5 alone gives
    total = operation = 12.5; an operation line with 3.0 then a completion
    line with 12.5 give total 12.5 and operation 3.0. *)
Theorem parse_log_file_records :
  (forall lines out, AsrLog.parse_log_file lines = Some out ->
     forall r, In r out <->
       exists p t, AsrLog.total_of lines p = Some t /\
                   r = AsrLog.record_of p t (AsrLog.operation_of lines p)) /\
  AsrLog.parse_log_file [AsrLog.completed_line "data/a.mp3" "12.5"] =
    Some [AsrLog.record_of (s "data/a.mp3") (125 # 10) None] /\
  AsrLog.parse_log_file [AsrLog.operation_line "data/a.mp3" "3.0";
                         AsrLog.completed_line "data/a.mp3" "12.5"] =
    Some [AsrLog.record_of (s "data/a.mp3") (125 # 10) (Some (30 # 10))].
Proof.
  split; [exact AsrLogFacts.parse_log_file_members|].
  split; vm_compute; reflexivity.
Qed.

Lemma parse_log_file_records_witness :
  AsrLog.parse_log_file [AsrLog.starting_line "data/b.mp3"; AsrLog.operation_line "data/b.mp3" "3.0";
                         AsrLog.completed_line "data/b.mp3" "12.5"] =
    Some [AsrLog.record_of (s "data/b.mp3") (125 # 10) (Some (30 # 10))] /\
  (forall r, In r [AsrLog.record_of (s "data/b.mp3") (125 # 10) (Some (30 # 10))] <->
     exists p t,
       AsrLog.total_of [AsrLog.starting_line "data/b.mp3"; AsrLog.operation_line "data/b.mp3" "3.0";
                        AsrLog.completed_line "data/b.mp3" "12.5"] p = Some t /\
       r = AsrLog.record_of p t
             (AsrLog.operation_of [AsrLog.starting_line "data/b.mp3";
                                   AsrLog.operation_line "data/b.mp3" "3.0";
                                   AsrLog.completed_line "data/b.mp3" "12.5"] p)).
Proof.
  assert (H : AsrLog.parse_log_file [AsrLog.starting_line "data/b.mp3";
                AsrLog.operation_line "data/b.mp3" "3.0"; AsrLog.completed_line "data/b.mp3" "12.5"] =
              Some [AsrLog.record_of (s "data/b.mp3") (125 # 10) (Some (30 # 10))])
    by (vm_compute; reflexivity).
  split; [exact H|]. exact (proj1 parse_log_file_records _ _ H).
Defined.

(** *** Resuming [summarize] *)

(** C3 (amended).  Take [.txt] inputs and a first [summarize] run that
    completes and in which no pending input raises.  A second run on the
    same inputs and output directory has nothing pending.  It processes no
    file and reports (0, 0), not (0, N): the logged total is the number of
    pending inputs.  (With [max_threads <= 0] the second run raises
    [ValueError], as every run does.) *)
Theorem summarize_rerun_nothing_pending :
  forall raises1 raises2 mt1 mt2 files dir0 c1 n1 st1 r2,
    (forall p, In p files -> suffix_of_name (name_of p) = s ".txt") ->
    (forall p, In p (transcript_paths dir0 files) -> raises1 p = false) ->
    summarize raises1 mt1 files dir0 (inr (c1, n1, st1)) ->
    summarize raises2 mt2 files (out_dir st1) r2 ->
    transcript_paths (out_dir st1) files = [] /\
    r2 = if (0 <? mt2)%Z then inr (0, 0, init (out_dir st1)) else inl ValueError.
Proof.
  intros raises1 raises2 mt1 mt2 files dir0 c1 n1 st1 r2 Htxt Hok H1 H2.
  pose proof (ResumeFacts.resume_complete _ _ _ _ _ _ _ Htxt Hok H1) as Hnil.
  split; [exact Hnil|]. exact (ResumeFacts.summarize_nothing_pending _ _ _ _ _ Hnil H2).
Qed.

Lemma summarize_rerun_nothing_pending_witness :
  exists c1 n1 st1 r2,
    summarize never 1%Z [path_of true "data" "a.txt"] [] (inr (c1, n1, st1)) /\
    summarize never 1%Z [path_of true "data" "a.txt"] (out_dir st1) r2 /\
    r2 = inr (0, 0, init (out_dir st1)).
Proof.
  pose proof (summarize_pool never 1%Z [path_of true "data" "a.txt"] [] [path_of true "data" "a.txt"]
                eq_refl ltac:(vm_compute; apply Permutation_refl)) as H1.
  cbv zeta in H1.
  pose proof (summarize_pool never 1%Z [path_of true "data" "a.txt"]
                (out_dir (run (summarizer_wrapper never) [path_of true "data" "a.txt"] (init [])))
                [] eq_refl ltac:(vm_compute; apply perm_nil)) as H2.
  cbv zeta in H2.
  do 4 eexists. split; [exact H1|split; [exact H2|]].
  refine (proj2 (summarize_rerun_nothing_pending never never 1%Z 1%Z _ [] _ _ _ _ _ _ H1 H2)).
  - intros p [<-|[]]. reflexivity.
  - intros p _. reflexivity.
Defined.

(** Counterexample to C3: one input [data/a.txt], nothing raising, empty
    output directory, one thread.  The second run reports (0, 0), where
    the claim says (0, N) with N = 1. *)
Lemma summarize_rerun_counterexample :
  exists c1 n1 st1 c2 n2 st2,
    summarize never 1%Z [path_of true "data" "a.txt"] [] (inr (c1, n1, st1)) /\
    summarize never 1%Z [path_of true "data" "a.txt"] (out_dir st1) (inr (c2, n2, st2)) /\
    (c2, n2) <> (0, List.length [path_of true "data" "a.txt"]).
Proof.
  pose proof (summarize_pool never 1%Z [path_of true "data" "a.txt"] [] [path_of true "data" "a.txt"]
                eq_refl ltac:(vm_compute; apply Permutation_refl)) as H1.
  cbv zeta in H1.
  pose proof (summarize_pool never 1%Z [path_of true "data" "a.txt"]
                (out_dir (run (summarizer_wrapper never) [path_of true "data" "a.txt"] (init [])))
                [] eq_refl ltac:(vm_compute; apply perm_nil)) as H2.
  cbv zeta in H2.
  do 6 eexists. split; [exact H1|split; [exact H2|]]. vm_compute. discriminate.
Qed.

(** *** Rows of the metrics CSV files *)

(** C4.  Every LLM row comes from a hypothesis with non-empty text and a
    reference of the same stem with non-empty text; its [file_name] is
    that stem.  Every row of the ASR CSV comes from a hypothesis with a
    reference of the same file name.  A hypothesis without a matching
    reference is skipped by both loops without raising. *)
Theorem metrics_rows_have_references :
  (forall mf references hyps log_lines rows,
     LlmMetrics.metrics mf references hyps log_lines = inr rows ->
     forall r, In r rows -> exists h, In h hyps /\ LlmMetrics.file_name r = stem_of (fst h) /\
       (exists hyp, extract_text_from_summary_file (snd h) = inr hyp /\ LlmMetrics.non_empty hyp = true) /\
       (exists rf t, In rf references /\ stem_of (fst rf) = stem_of (fst h) /\
          extract_text_from_summary_file (snd rf) = inr t /\ LlmMetrics.non_empty t = true)) /\
  (forall mf references ld h,
     (forall rf, In rf references -> stem_of (fst rf) <> stem_of (fst h)) ->
     LlmMetrics.metrics_step mf references ld h = inr None) /\
  (forall sc refs hyps log_lines csv0 res csv,
     AsrMetrics.metrics sc refs hyps log_lines csv0 = (res, csv) ->
     csv = csv0 \/ exists rows, csv = Some rows /\ forall r, In r rows ->
       exists h, In h hyps /\ AsrMetrics.a_file_name r = name_of (fst h) /\
         exists rf, In rf refs /\ name_of (fst rf) = name_of (fst h)) /\
  (forall sc refs logs h,
     (forall rf, In rf refs -> name_of (fst rf) <> name_of (fst h)) ->
     AsrMetrics.metrics_step sc refs logs h = inr None).
Proof.
  split; [|split; [|split]].
  - intros mf references hyps log_lines rows H r Hr.
    apply LlmFacts2.metrics_inr in H as (ld & result & _ & Hl & ->).
    assert (Hin : In r result).
    { apply Permutation_in with (LlmMetrics.sort_rows result); [|exact Hr].
      apply Permutation_sym. apply LlmFacts.sort_rows_spec. }
    destruct (LlmFacts.metrics_loop_rows _ _ _ _ _ Hl r Hin) as (h & Hh & Hs).
    apply LlmFacts.metrics_step_some in Hs as (H1 & H2 & H3). eauto.
  - intros mf references ld h H. unfold LlmMetrics.metrics_step. cbv zeta.
    rewrite (LlmFacts.references_of_nil references (stem_of (fst h)) H). reflexivity.
  - intros sc refs hyps log_lines csv0 res csv. unfold AsrMetrics.metrics.
    destruct (AsrLog.parse_log_file log_lines) as [logs|].
    + intros H. apply AsrMetricsFacts2.metrics_loop_csv in H as [->|(rows & -> & Hr)]; [auto|].
      right. exists rows. split; [reflexivity|]. intros r Hin.
      destruct (Hr r Hin) as (h & Hh & Hs).
      apply AsrMetricsFacts.asr_metrics_step_some in Hs as (Hm & Hn). eauto.
    + injection 1 as _ <-. auto.
  - exact AsrMetricsFacts.metrics_step_unmatched.
Qed.

Lemma metrics_rows_have_references_witness :
  exists rows,
    LlmMetrics.metrics (fun _ _ => [])
      [(path_of true "ref" (llm_hyp_name "2" "5"), good_summary)]
      [(path_of true "hyp" (llm_hyp_name "2" "5"), good_summary);
       (path_of true "hyp" "other.json", good_summary)] [] = inr rows /\
    rows <> [] /\
    forall r, In r rows -> exists h,
      In h [(path_of true "hyp" (llm_hyp_name "2" "5"), good_summary);
            (path_of true "hyp" "other.json", good_summary)] /\
      LlmMetrics.file_name r = stem_of (fst h).
Proof.
  destruct (LlmMetrics.metrics (fun _ _ => [])
      [(path_of true "ref" (llm_hyp_name "2" "5"), good_summary)]
      [(path_of true "hyp" (llm_hyp_name "2" "5"), good_summary);
       (path_of true "hyp" "other.json", good_summary)] []) as [e|rows] eqn:E.
  - vm_compute in E. discriminate.
  - exists rows. split; [reflexivity|split].
    + vm_compute in E. injection E as <-. discriminate.
    + intros r Hr. destruct (proj1 metrics_rows_have_references _ _ _ _ _ E r Hr)
        as (h & Hh & Hn & _). eauto.
Defined.

(** C5, the order as the code has it.  The LLM rows are sorted ascending
    by the pair of strings (minutes field, people field) of the stem, in
    code-point order, not by number; they are a permutation of the rows
    of the loop.
    The ASR rows are written in the order of the hypotheses files: when
    the loop runs through, [metrics.csv] holds exactly the rows of the
    matched hypotheses in that order, or keeps its previous state when
    none matched. *)
Theorem metrics_row_order :
  (forall mf references hyps log_lines rows,
     LlmMetrics.metrics mf references hyps log_lines = inr rows ->
     exists ld result, LlmMetrics.parse_log_file log_lines = inr ld /\
       LlmMetrics.metrics_loop mf references ld hyps = inr result /\
       Sorted LlmMetrics.key_le rows /\ Permutation result rows) /\
  (forall sc refs hyps log_lines logs csv0,
     AsrLog.parse_log_file log_lines = Some logs ->
     (forall h, In h hyps -> exists o, AsrMetrics.metrics_step sc refs logs h = inr o) ->
     AsrMetrics.metrics sc refs hyps log_lines csv0 =
       (inr tt, match AsrMetrics.step_rows sc refs logs hyps with [] => csv0 | rows => Some rows end)).
Proof.
  split.
  - intros mf references hyps log_lines rows H.
    apply LlmFacts2.metrics_inr in H as (ld & result & Hld & Hl & ->).
    destruct (LlmFacts.sort_rows_spec result) as [Hs Hp]. eauto 6.
  - intros sc refs hyps log_lines logs csv0 Hlog Hall. unfold AsrMetrics.metrics. rewrite Hlog.
    pose proof (AsrMetricsFacts.loop_vs_collect sc refs logs hyps [] csv0) as HL.
    rewrite (AsrMetricsFacts.collect_rows_total sc refs logs hyps Hall) in HL.
    destruct (AsrMetrics.step_rows sc refs logs hyps); exact HL.
Qed.

Lemma metrics_row_order_witness :
  exists rows,
    LlmMetrics.metrics (fun _ _ => [])
      [(path_of true "ref" (llm_hyp_name "3" "20"), good_summary);
       (path_of true "ref" (llm_hyp_name "2" "20"), good_summary)]
      [(path_of true "hyp" (llm_hyp_name "3" "20"), good_summary);
       (path_of true "hyp" (llm_hyp_name "2" "20"), good_summary)] [] = inr rows /\
    List.length rows = 2 /\ Sorted LlmMetrics.key_le rows.
Proof.
  destruct (LlmMetrics.metrics (fun _ _ => [])
      [(path_of true "ref" (llm_hyp_name "3" "20"), good_summary);
       (path_of true "ref" (llm_hyp_name "2" "20"), good_summary)]
      [(path_of true "hyp" (llm_hyp_name "3" "20"), good_summary);
       (path_of true "hyp" (llm_hyp_name "2" "20"), good_summary)] []) as [e|rows] eqn:E.
  - vm_compute in E. discriminate.
  - exists rows. split; [reflexivity|split].
    + vm_compute in E. injection E as <-. reflexivity.
    + destruct (proj1 metrics_row_order _ _ _ _ _ E) as (ld & result & _ & _ & Hs & _). exact Hs.
Defined.

(** C5 fails on two hypotheses of 5 and 10 minutes, found in that order:
    the CSV lists the 10-minute row before the 5-minute row, because
    ["10"] sorts before ["5"] as a string. *)
Lemma metrics_row_order_counterexample :
  exists rows,
    LlmMetrics.metrics (fun _ _ => [])
      [(path_of true "ref" (llm_hyp_name "2" "5"), good_summary);
       (path_of true "ref" (llm_hyp_name "2" "10"), good_summary)]
      [(path_of true "hyp" (llm_hyp_name "2" "5"), good_summary);
       (path_of true "hyp" (llm_hyp_name "2" "10"), good_summary)] [] = inr rows /\
    map LlmMetrics.time_in_minute rows = [s "10"; s "5"].
Proof.
  eexists. split; [vm_compute; reflexivity|]. vm_compute. reflexivity.
Qed.

(** C6, the two versions compared.  Compare the source's ASR [metrics],
    which rewrites [metrics.csv] after each row, with writing the CSV once
    after the loop.  The two agree when the log cannot be read.  They also agree
    when the loop runs through and emits at least one row.  With no row
    emitted, the source leaves [metrics.csv] as it was (absent or stale),
    while the variant writes a header-only file.  When a hypothesis
    raises, both raise the same exception; the source may leave a partial
    CSV behind, the variant none. *)
Theorem asr_metrics_write_once :
  forall sc refs hyps log_lines csv0,
    match AsrLog.parse_log_file log_lines with
    | None => AsrMetrics.metrics sc refs hyps log_lines csv0 =
              AsrMetrics.metrics_write_once sc refs hyps log_lines csv0
    | Some logs =>
        match AsrMetrics.collect_rows sc refs logs hyps with
        | inl e => fst (AsrMetrics.metrics sc refs hyps log_lines csv0) = inl e /\
                   AsrMetrics.metrics_write_once sc refs hyps log_lines csv0 = (inl e, csv0)
        | inr [] => AsrMetrics.metrics sc refs hyps log_lines csv0 = (inr tt, csv0) /\
                    AsrMetrics.metrics_write_once sc refs hyps log_lines csv0 = (inr tt, Some [])
        | inr _ => AsrMetrics.metrics sc refs hyps log_lines csv0 =
                   AsrMetrics.metrics_write_once sc refs hyps log_lines csv0
        end
    end.
Proof.
  intros sc refs hyps log_lines csv0. unfold AsrMetrics.metrics, AsrMetrics.metrics_write_once.
  destruct (AsrLog.parse_log_file log_lines) as [logs|]; [|reflexivity].
  pose proof (AsrMetricsFacts.loop_vs_collect sc refs logs hyps [] csv0) as HL.
  destruct (AsrMetrics.collect_rows sc refs logs hyps) as [e|[|x xs]]; auto.
Qed.

(** C6 fails with no hypothesis and no [metrics.csv] before the run: the
    source writes no file; the write-once variant writes the header. *)
Lemma asr_metrics_write_once_counterexample :
  AsrMetrics.metrics (fun _ _ => inr []) [] [] [] None = (inr tt, None) /\
  AsrMetrics.metrics_write_once (fun _ _ => inr []) [] [] [] None = (inr tt, Some []).
Proof. split; vm_compute; reflexivity. Qed.

(** *** [ASRProcessor.parse] *)

(** C7.  [parse] contains no per-item failure: when [extract_text] runs
    through on the files before [bad] and raises [e] on [bad], [parse]
    raises [e]; the outputs written are those of the earlier files, in
    order, and none for [bad] or the files after it.  The wrappers of
    [transcribe] and [summarize] instead turn a raise into [None]. *)
Theorem parse_aborts_at_first_bad :
  (forall parser pre bad post e,
     (forall p, In p pre -> exists t, parser p = inr t) -> parser bad = inl e ->
     exists ws, AsrParse.parse parser (pre ++ bad :: post) = (inl e, ws) /\
                map fst ws = map AsrParse.output_path pre) /\
  (forall raises ext p, raises p = true ->
     transcriber_wrapper raises ext p = None /\ summarizer_wrapper raises p = None).
Proof.
  split.
  - intros parser pre bad post e Hpre Hbad.
    exact (AsrParseFacts.parse_loop_abort parser pre bad post [] e Hpre Hbad).
  - intros raises ext p H. unfold transcriber_wrapper, summarizer_wrapper. rewrite H. auto.
Qed.

Lemma parse_aborts_at_first_bad_witness :
  exists ws,
    AsrParse.parse sample_parser
      ([path_of true "in" "a.json"] ++ path_of true "in" "bad.json" :: [path_of true "in" "c.json"]) =
      (inl KeyError, ws) /\
    map fst ws = map AsrParse.output_path [path_of true "in" "a.json"].
Proof.
  apply (proj1 parse_aborts_at_first_bad).
  - intros p [<-|[]]. eexists. reflexivity.
  - reflexivity.
Defined.

(** *** [find_files] *)

(** C8 (amended).  [directory] is resolved as the kernel resolves it
    ([".."] and links included).  When it does not resolve to a directory,
    [find_files] fails with [InvalidDirectory] before yielding anything.
    Otherwise it yields one path per entry found under that directory
    (recursively, without entering links to directories) on which
    [Path.is_file] holds and whose suffix equals [extension].  Each path is
    the directory as given joined with the entry's relative path: it is
    absolute only when [directory] is.  In a well-formed tree, such an entry
    that is not a link is seen by [stat] as it is, so regular files are
    yielded and directories and other files are not. *)
Theorem find_files_contract :
  (forall root cwd dir ext,
     Fs.is_dir root cwd (Fs.parse_path dir) = false ->
     Fs.find_files root cwd dir ext = inl Fs.InvalidDirectory) /\
  (forall root cwd dir ext es,
     Fs.stat root cwd (Fs.parse_path dir) = Some (Fs.Dir es) ->
     exists l, Fs.find_files root cwd dir ext = inr l /\
       (forall q, In q l <->
          exists d es' nm n, Fs.dreach es d es' /\ In (nm, n) es' /\
            Fs.is_file root cwd (Fs.join (Fs.parse_path dir) (d ++ [nm])) = true /\
            suffix_of_name nm = ext /\ q = Fs.join (Fs.parse_path dir) (d ++ [nm])) /\
       (forall q, In q l -> Fs.absolute q = Fs.absolute (Fs.parse_path dir))) /\
  (forall root cwd dir es d es' nm n,
     Fs.stat root cwd (Fs.parse_path dir) = Some (Fs.Dir es) -> Fs.wf (Fs.Dir es) = true ->
     Fs.dreach es d es' -> In (nm, n) es' -> (forall t, n <> Fs.Link t) ->
     Fs.stat root cwd (Fs.join (Fs.parse_path dir) (d ++ [nm])) = Some n).
Proof.
  split; [|split].
  - intros root cwd dir ext H. unfold Fs.find_files. unfold Fs.is_dir in H.
    destruct (Fs.stat root cwd (Fs.parse_path dir)) as [[|t|es|]|]; try reflexivity.
    discriminate.
  - intros root cwd dir ext es H.
    destruct (FsFacts.find_files_ok root cwd dir ext es H) as (l & Hl & Hin).
    exists l. split; [exact Hl|split; [exact Hin|]].
    intros q Hq. apply Hin in Hq as (d & es' & nm & n & _ & _ & _ & _ & ->). reflexivity.
  - exact FsFacts.stat_entry.
Qed.

(** [find_files("/home/missing", ".mp3")] raises; [find_files("../link",
    ".mp3")] run from [/home/work] goes up, then through the link to
    [/home/data], and yields two paths; [/home/link/a.mp3] is a regular
    file. *)
Lemma find_files_contract_witness :
  Fs.find_files sample_root [] (s "/home/missing") (s ".mp3") = inl Fs.InvalidDirectory /\
  (exists l, Fs.find_files sample_root [s "home"; s "work"] (s "../link") (s ".mp3") = inr l /\
     List.length l = 2 /\ forall q, In q l -> Fs.absolute q = false) /\
  Fs.stat sample_root [] (Fs.join (Fs.parse_path (s "/home/link")) ([] ++ [s "a.mp3"])) = Some Fs.Reg.
Proof.
  split; [|split].
  - apply (proj1 find_files_contract). vm_compute. reflexivity.
  - destruct (proj1 (proj2 find_files_contract) sample_root [s "home"; s "work"] (s "../link") (s ".mp3")
                [(s "a.mp3", Fs.Reg); (s "b.txt", Fs.Reg); (s "sub", Fs.Dir [(s "c.mp3", Fs.Link (s "../a.mp3"))])]
                ltac:(vm_compute; reflexivity)) as (l & Hl & _ & Ha).
    exists l. split; [exact Hl|split].
    + vm_compute in Hl. injection Hl as <-. reflexivity.
    + intros q Hq. rewrite (Ha q Hq). reflexivity.
  - apply (proj2 (proj2 find_files_contract) sample_root [] (s "/home/link")
             [(s "a.mp3", Fs.Reg); (s "b.txt", Fs.Reg); (s "sub", Fs.Dir [(s "c.mp3", Fs.Link (s "../a.mp3"))])]
             [] [(s "a.mp3", Fs.Reg); (s "b.txt", Fs.Reg); (s "sub", Fs.Dir [(s "c.mp3", Fs.Link (s "../a.mp3"))])]
             (s "a.mp3") Fs.Reg).
    + vm_compute. reflexivity.
    + vm_compute. reflexivity.
    + constructor.
    + left. reflexivity.
    + discriminate.
Defined.

(** Counterexample to C8: [find_files("data", ".mp3")] run from [/home].
    It yields the paths [data/a.mp3] and [data/sub/c.mp3], which are
    relative. *)
Lemma find_files_contract_counterexample :
  exists l, Fs.find_files sample_root [s "home"] (s "data") (s ".mp3") = inr l /\
    l <> [] /\ Forall (fun q => Fs.absolute q = false) l.
Proof.
  eexists. split; [vm_compute; reflexivity|]. vm_compute. split; [discriminate|].
  repeat constructor.
Qed.

(** *** Extraction of summaries in [LLMProcessor.metrics] *)

(** C9.  [_extract_text_from_summary_file] returns the empty text exactly
    when the file is not valid JSON.  On valid JSON lacking one of
    ["title"], ["tldr"], ["resume"], ["conclusion"], or whose ["resume"]
    cannot be iterated, it raises.  When this happens to a hypothesis that
    has a reference of the same stem, or to such a reference, the whole
    [metrics] run raises and writes no CSV. *)
Theorem summary_extraction_raises :
  (forall c, extract_text_from_summary_file c = inr [] <-> c = Invalid) /\
  (forall v,
     (exists k, In k [s "title"; s "tldr"; s "resume"; s "conclusion"] /\ ~ has_key v k) \/
     (exists r e, getitem v (s "resume") = inr r /\ iter r = inl e) ->
     exists e, extract_text_from_summary_file (Valid v) = inl e) /\
  (forall mf references hyps log_lines h e,
     In h hyps ->
     (exists rf, In rf references /\ stem_of (fst rf) = stem_of (fst h)) ->
     (extract_text_from_summary_file (snd h) = inl e \/
      exists rf, In rf references /\ stem_of (fst rf) = stem_of (fst h) /\
        extract_text_from_summary_file (snd rf) = inl e) ->
     exists e', LlmMetrics.metrics mf references hyps log_lines = inl e').
Proof.
  split; [exact JsonFacts.extract_empty_iff|split; [exact JsonFacts.extract_missing|]].
  intros mf references hyps log_lines h e Hin Hm Hx.
  destruct (LlmFacts2.metrics_step_extract_inl mf references [] h e Hm Hx) as (e0 & He0).
  apply (LlmFacts.metrics_abort mf references hyps log_lines h e0 Hin).
  intros ld. exact (LlmFacts.metrics_step_inl_any mf references [] ld h e0 He0).
Qed.

Lemma summary_extraction_raises_witness :
  exists e', LlmMetrics.metrics (fun _ _ => [])
    [(path_of true "ref" (llm_hyp_name "2" "5"), good_summary)]
    [(path_of true "hyp" (llm_hyp_name "2" "5"), summary_without_conclusion)] [] = inl e'.
Proof.
  apply (proj2 (proj2 summary_extraction_raises) _ _ _ _
           (path_of true "hyp" (llm_hyp_name "2" "5"), summary_without_conclusion) KeyError).
  - left. reflexivity.
  - eexists. split; [left; reflexivity|]. vm_compute. reflexivity.
  - left. vm_compute. reflexivity.
Defined.

(** *** [_parse_file_path] *)

(** C10 (amended).  Take a hypothesis whose stem has fewer than five
    [.]-separated parts.  Suppose its own text is non-empty, one reference
    of its stem has non-empty text, and no reference of its stem raises
    in extraction.  Then indexing the stem's parts raises [IndexError] and
    the whole [metrics] run raises.  A hypothesis that is not valid JSON
    is skipped before [_parse_file_path] and raises nothing. *)
Theorem parse_file_path_index_error :
  forall mf references hyps log_lines h t hyp,
    In h hyps ->
    (forall rf, In rf references -> stem_of (fst rf) = stem_of (fst h) ->
       exists u, extract_text_from_summary_file (snd rf) = inr u) ->
    (exists rf, In rf references /\ stem_of (fst rf) = stem_of (fst h) /\
       extract_text_from_summary_file (snd rf) = inr t) ->
    LlmMetrics.non_empty t = true ->
    extract_text_from_summary_file (snd h) = inr hyp -> LlmMetrics.non_empty hyp = true ->
    List.length (split "." (stem_of (fst h))) < 5 ->
    (forall ld, LlmMetrics.metrics_step mf references ld h = inl IndexError) /\
    exists e, LlmMetrics.metrics mf references hyps log_lines = inl e.
Proof.
  intros mf references hyps log_lines h t hyp Hin Hall Hm Ht Hh Hhne Hlen.
  assert (Hs : forall ld, LlmMetrics.metrics_step mf references ld h = inl IndexError)
    by (intros ld; exact (LlmFacts2.metrics_step_index_error mf references ld h t hyp
                            Hall Hm Ht Hh Hhne Hlen)).
  split; [exact Hs|]. exact (LlmFacts.metrics_abort mf references hyps log_lines h IndexError Hin Hs).
Qed.

Lemma parse_file_path_index_error_witness :
  LlmMetrics.metrics_step (fun _ _ => []) [(path_of true "ref" "a.json", good_summary)] []
    (path_of true "hyp" "a.json", good_summary) = inl IndexError /\
  exists e, LlmMetrics.metrics (fun _ _ => []) [(path_of true "ref" "a.json", good_summary)]
              [(path_of true "hyp" "a.json", good_summary)] [] = inl e.
Proof.
  destruct (parse_file_path_index_error (fun _ _ => []) [(path_of true "ref" "a.json", good_summary)]
              [(path_of true "hyp" "a.json", good_summary)] []
              (path_of true "hyp" "a.json", good_summary)
              (s "Title Short Point one Point two End") (s "Title Short Point one Point two End"))
    as [Hs He].
  - left. reflexivity.
  - intros rf [<-|[]] _. eexists. vm_compute. reflexivity.
  - eexists. split; [left; reflexivity|]. split; [reflexivity|]. vm_compute. reflexivity.
  - reflexivity.
  - vm_compute. reflexivity.
  - reflexivity.
  - vm_compute. lia.
  - split; [apply Hs|exact He].
Defined.

(** Counterexample to C10: [hyp/a.json] is not valid JSON, and its
    reference [ref/a.json] has non-empty text.  Its stem ["a"] has one
    part, yet [metrics] runs through with no row. *)
Lemma parse_file_path_index_error_counterexample :
  LlmMetrics.metrics (fun _ _ => []) [(path_of true "ref" "a.json", good_summary)]
    [(path_of true "hyp" "a.json", Invalid)] [] = inr [] /\
  List.length (split "." (stem_of (path_of true "hyp" "a.json"))) < 5 /\
  extract_text_from_summary_file good_summary <> inr [].
Proof.
  split; [vm_compute; reflexivity|split; [vm_compute; lia|]]. vm_compute. discriminate.
Qed.

End Claims.

Module VendorFacts.
Import Py Exn Json AsrVendor.

Lemma map_m_as_str_JStr l : map_m as_str (map JStr l) = inr l.
Proof. induction l as [|x l IH]; simpl; [reflexivity|]. rewrite IH. reflexivity. Qed.

Lemma join_values_JStr sep l : join_values sep (map JStr l) = inr (str_join sep l).
Proof. unfold join_values. rewrite map_m_as_str_JStr. reflexivity. Qed.

Lemma str_join_nil l : str_join [] l = List.concat l.
Proof.
  destruct l as [|x l]; simpl; [reflexivity|]. f_equal.
  induction l as [|y l IH]; simpl; [reflexivity|]. rewrite IH. reflexivity.
Qed.

Lemma yandex_text_result a :
  yandex_text (yandex_result a) =
  match a with t :: _ => inr (JStr t) | [] => inl IndexError end.
Proof. destruct a; reflexivity. Qed.

Lemma yandex_loop_results lines :
  yandex_loop (map (fun a => Valid (yandex_result a)) lines) = inr (map JStr (first_texts lines)).
Proof.
  induction lines as [|a lines IH]; [reflexivity|].
  cbn [map yandex_loop]. rewrite yandex_text_result.
  destruct a as [|t a]; simpl; rewrite IH; reflexivity.
Qed.

Lemma yandex_loop_drop pre o post :
  (yandex_text o = inl KeyError \/ yandex_text o = inl IndexError) ->
  yandex_loop (pre ++ Valid o :: post) = yandex_loop (pre ++ post).
Proof.
  intro Ho. induction pre as [|[|o'] pre IH]; simpl.
  - destruct Ho as [-> | ->]; reflexivity.
  - reflexivity.
  - rewrite IH. reflexivity.
Qed.

Lemma yandex_loop_app_inr pre ts post :
  yandex_loop pre = inr ts ->
  yandex_loop (pre ++ post) = (rest <- yandex_loop post ;; inr (ts ++ rest)).
Proof.
  revert ts. induction pre as [|[|o] pre IH]; intros ts H; simpl in *.
  - injection H as <-. destruct (yandex_loop post); reflexivity.
  - discriminate.
  - destruct (yandex_text o) as [e|t] eqn:E.
    + destruct e; try discriminate; apply IH; exact H.
    + destruct (yandex_loop pre) as [e|ts'] eqn:E'; [discriminate|].
      simpl in H. injection H as <-. rewrite (IH ts' eq_refl).
      destruct (yandex_loop post); reflexivity.
Qed.

Lemma azure_loop_app_inr pre ts post :
  azure_loop pre = inr ts ->
  azure_loop (pre ++ post) = (rest <- azure_loop post ;; inr (ts ++ rest)).
Proof.
  revert ts. induction pre as [|[|o] pre IH]; intros ts H; cbn [app azure_loop] in *.
  - injection H as <-. destruct (azure_loop post); reflexivity.
  - discriminate.
  - destruct (getitem o (s "DisplayText")) as [e|t]; cbn [bind] in H |- *; [discriminate|].
    destruct (azure_loop pre) as [e|ts'] eqn:E'; cbn [bind] in H; [discriminate|].
 injection H as <-. rewrite (IH ts' eq_refl).
    destruct (azure_loop post); reflexivity.
Qed.

Lemma azure_loop_lines ts :
  azure_loop (map (fun t => Valid (JObj [(s "DisplayText", JStr t)])) ts) = inr (map JStr ts).
Proof. induction ts as [|t ts IH]; cbn [map azure_loop]; [reflexivity|]. rewrite IH. reflexivity. Qed.

Lemma sber_parts_app_inr pre ts post :
  sber_parts pre = inr ts ->
  sber_parts (pre ++ post) = (rest <- sber_parts post ;; inr (ts ++ rest)).
Proof.
  revert ts. induction pre as [|part pre IH]; intros ts H; cbn [app sber_parts] in *.
  - injection H as <-. destruct (sber_parts post); reflexivity.
  - destruct (getitem part (s "results")) as [e|rs]; cbn [bind] in H |- *; [discriminate|].
    destruct (getindex rs 0) as [e|r0]; cbn [bind] in H |- *; [discriminate|].
    destruct (getitem r0 (s "normalized_text")) as [e|t]; cbn [bind] in H |- *; [discriminate|].
    destruct (sber_parts pre) as [e|ts'] eqn:E'; cbn [bind] in H; [discriminate|].
    injection H as <-. rewrite (IH ts' eq_refl).
    destruct (sber_parts post); reflexivity.
Qed.

Lemma sber_parts_lines ts : sber_parts (map sber_part ts) = inr (map JStr ts).
Proof. induction ts as [|t ts IH]; cbn [map sber_parts]; [reflexivity|]. rewrite IH. reflexivity. Qed.

Lemma google_parts_lines parts :
  google_parts (map google_part parts) = inr (map JStr (first_texts parts)).
Proof.
  induction parts as [|a parts IH]; [reflexivity|].
  destruct a as [|t a]; cbn [map google_parts]; simpl; rewrite IH; reflexivity.
Qed.

Lemma google_first_transcripts_concat parts :
  google_first_transcripts parts = List.concat (first_texts parts).
Proof.
  induction parts as [|[|t a] parts IH]; simpl; [reflexivity|exact IH|]. rewrite IH. reflexivity.
Qed.

Lemma obj_get_head k v rest :
  (forall kv, In kv rest -> str_eqb (fst kv) k = false) -> obj_get k ((k, v) :: rest) = Some v.
Proof.
  intro H. simpl. replace (obj_get k rest) with (@None json).
  - replace (str_eqb k k) with true; [reflexivity|]. symmetry. apply str_eqb_eq. reflexivity.
  - induction rest as [|[k' v'] rest IH]; simpl; [reflexivity|].
    rewrite <- IH by (intros kv Hkv; apply H; right; exact Hkv).
    pose proof (H (k', v') (or_introl eq_refl)) as Hk. simpl in Hk. rewrite Hk. reflexivity.
Qed.

Lemma dict_keys_head k v rest : exists ks, dict_keys ((k, v) :: rest) = k :: ks.
Proof.
  unfold dict_keys. simpl.
  assert (G : forall (kvs : list (str * json)) acc, exists ks, fold_left (fun acc (kv : str * json) => if existsb (str_eqb (fst kv)) acc then acc else acc ++ [fst kv]) kvs (k :: acc) = k :: ks).
  { induction kvs as [|kv kvs IH]; intro acc; simpl.
    - exists acc. reflexivity.
    - destruct (str_eqb (fst kv) k || existsb (str_eqb (fst kv)) acc).
      + apply IH.
      + apply (IH (acc ++ [fst kv])). }
  apply G.
Qed.

(** The loops on lines or parts that each give a string or, for Yandex,
    raise one of the caught exceptions. *)
Lemma yandex_loop_texts vs :
  (forall v, In v vs -> (exists t, yandex_text v = inr (JStr t)) \/
                        yandex_text v = inl KeyError \/ yandex_text v = inl IndexError) ->
  yandex_loop (map Valid vs) =
  inr (map JStr (flat_map (fun v => match yandex_text v with inr (JStr t) => [t] | _ => [] end) vs)).
Proof.
  induction vs as [|v vs IH]; intros H; [reflexivity|].
  cbn [map yandex_loop flat_map].
  assert (IH' := IH (fun w Hw => H w (or_intror Hw))).
  destruct (H v (or_introl eq_refl)) as [(t & E)|[E|E]]; rewrite E.
  - cbn [bind]. rewrite IH'. reflexivity.
  - exact IH'.
  - exact IH'.
Qed.

Lemma azure_loop_texts vs ts :
  Forall2 (fun v t => getitem v (s "DisplayText") = inr (JStr t)) vs ts ->
  azure_loop (map Valid vs) = inr (map JStr ts).
Proof.
  induction 1 as [|v t vs ts Hv _ IH]; [reflexivity|].
  cbn [map azure_loop]. rewrite Hv. cbn [bind]. rewrite IH. reflexivity.
Qed.

Lemma google_parts_texts items os :
  Forall2 (fun part o => exists alts, getitem part (s "alternatives") = inr alts /\
             match o with
             | None => py_len alts = inr 0
             | Some t => exists n a0, py_len alts = inr (S n) /\ getindex alts 0 = inr a0 /\
                                      getitem a0 (s "transcript") = inr (JStr t)
             end) items os ->
  google_parts items =
  inr (map JStr (flat_map (fun o => match o with Some t => [t] | None => [] end) os)).
Proof.
  induction 1 as [|part o items os Hp _ IH]; [reflexivity|].
  destruct Hp as (alts & Ha & Ho). cbn [google_parts]. rewrite Ha. cbn [bind].
  destruct o as [t|].
  - destruct Ho as (n & a0 & Hl & Hi & Ht). rewrite Hl. cbn [bind].
    replace (0 <? S n) with true by reflexivity.
    rewrite Hi. cbn [bind]. rewrite Ht. cbn [bind]. rewrite IH. reflexivity.
  - rewrite Ho. cbn [bind]. exact IH.
Qed.

Lemma sber_parts_texts items ts :
  Forall2 (fun part t => exists rs r0, getitem part (s "results") = inr rs /\ getindex rs 0 = inr r0 /\
                                       getitem r0 (s "normalized_text") = inr (JStr t)) items ts ->
  sber_parts items = inr (map JStr ts).
Proof.
  induction 1 as [|part t items ts Hp _ IH]; [reflexivity|].
  destruct Hp as (rs & r0 & H1 & H2 & H3). cbn [sber_parts].
  rewrite H1. cbn [bind]. rewrite H2. cbn [bind]. rewrite H3. cbn [bind]. rewrite IH. reflexivity.
Qed.

End VendorFacts.

Module Extras.
Import Py Exn Json AsrVendor VendorFacts.

(** X1: Yandex, lines that all parse and on each of which the expression
    in the [try] gives a string or raises [KeyError] or [IndexError]: the
    strings, joined with spaces in line order; the other lines contribute
    nothing. *)
Theorem yandex_extract_text_results vs :
  (forall v, In v vs -> (exists t, yandex_text v = inr (JStr t)) \/
                        yandex_text v = inl KeyError \/ yandex_text v = inl IndexError) ->
  yandex_extract_text (map Valid vs) =
  inr (str_join (s " ")
         (flat_map (fun v => match yandex_text v with inr (JStr t) => [t] | _ => [] end) vs)).
Proof.
  intros H. unfold yandex_extract_text. rewrite (yandex_loop_texts vs H). cbn [bind].
  apply join_values_JStr.
Qed.

Lemma yandex_extract_text_results_witness :
  yandex_extract_text (map Valid [yandex_result [s "a"; s "b"]; JObj [(s "partial", JBool true)];
                                  yandex_result []; JObj [(s "result", JObj [(s "finalRefinement",
                                    JObj [(s "normalizedText", JObj [(s "alternatives",
                                      JArr [JObj [(s "text", JStr (s "c")); (s "confidence", JNum 1)]])])])]);
                                                         (s "channelTag", JStr (s "0"))]]) =
  inr (s "a c").
Proof.
  rewrite yandex_extract_text_results; [reflexivity|].
  intros v Hv. repeat destruct Hv as [<-|Hv]; [ left; eexists; reflexivity
                                             | right; left; reflexivity
                                             | right; right; reflexivity
                                             | left; eexists; reflexivity
                                             | destruct Hv ].
Defined.

(** X2: Yandex, a line whose lookup raises [KeyError] or [IndexError] is
    dropped: the text is that of the file without the line. *)
Theorem yandex_extract_text_skips pre o post :
  (yandex_text o = inl KeyError \/ yandex_text o = inl IndexError) ->
  yandex_extract_text (pre ++ Valid o :: post) = yandex_extract_text (pre ++ post).
Proof. intro Ho. unfold yandex_extract_text. rewrite (yandex_loop_drop pre o post Ho). reflexivity. Qed.

Lemma yandex_extract_text_skips_witness :
  yandex_text (JObj [(s "partial", JBool true)]) = inl KeyError /\
  yandex_extract_text ([Valid (yandex_result [s "a"])] ++ Valid (JObj [(s "partial", JBool true)])
                        :: [Valid (yandex_result [s "b"])]) =
  yandex_extract_text ([Valid (yandex_result [s "a"])] ++ [Valid (yandex_result [s "b"])]).
Proof.
  split; [reflexivity|].
  apply yandex_extract_text_skips. left. reflexivity.
Defined.

(** X3: Yandex, only [KeyError] and [IndexError] are caught: after lines that
    parse, an invalid JSON line (a blank line too) raises the decoding
    error, and a ["result"] that is not an object raises [TypeError]. *)
Theorem yandex_extract_text_raises pre ts post :
  yandex_loop pre = inr ts ->
  yandex_extract_text (pre ++ Invalid :: post) = inl ValueError /\
  (forall kvs r, obj_get (s "result") kvs = Some r -> (forall kvs', r <> JObj kvs') ->
   yandex_extract_text (pre ++ Valid (JObj kvs) :: post) = inl TypeError).
Proof.
  intro H. unfold yandex_extract_text. split.
  - rewrite (yandex_loop_app_inr pre ts _ H). reflexivity.
  - intros kvs r Hr Hn. rewrite (yandex_loop_app_inr pre ts _ H).
    cbn [yandex_loop]. unfold yandex_text at 1. unfold getitem at 1. rewrite Hr. cbn [bind].
    destruct r as [| | | | |kvs']; try reflexivity. exfalso. apply (Hn kvs'). reflexivity.
Qed.

Lemma yandex_extract_text_raises_witness :
  yandex_extract_text ([Valid (yandex_result [s "a"])] ++ Invalid :: []) = inl ValueError /\
  yandex_extract_text ([Valid (yandex_result [s "a"])] ++ Valid (JObj [(s "result", JStr (s "x"))]) :: [])
    = inl TypeError.
Proof.
  destruct (yandex_extract_text_raises [Valid (yandex_result [s "a"])] [JStr (s "a")] [] eq_refl)
    as [H1 H2].
  split; [exact H1|]. apply (H2 _ (JStr (s "x"))); [reflexivity|discriminate].
Defined.

(** X4: Azure, lines that all parse and each hold a string under
    ["DisplayText"], whatever else they hold: these strings joined with
    spaces in line order. *)
Theorem azure_extract_text_lines vs ts :
  Forall2 (fun v t => getitem v (s "DisplayText") = inr (JStr t)) vs ts ->
  azure_extract_text (map Valid vs) = inr (str_join (s " ") ts).
Proof.
  intros H. unfold azure_extract_text. rewrite (azure_loop_texts vs ts H). cbn [bind].
  apply join_values_JStr.
Qed.

Lemma azure_extract_text_lines_witness :
  azure_extract_text (map Valid [JObj [(s "Id", JStr (s "1")); (s "DisplayText", JStr (s "Hello."))];
                                 JObj [(s "DisplayText", JStr (s "World.")); (s "Offset", JNum 5)]]) =
  inr (s "Hello. World.").
Proof.
  rewrite (azure_extract_text_lines _ [s "Hello."; s "World."]); [reflexivity|].
  repeat constructor.
Defined.

(** X5: Azure, after lines that parse, an invalid JSON line (a blank line
    too) raises the decoding error and a line without ["DisplayText"]
    raises [KeyError]. *)
Theorem azure_extract_text_raises pre ts post :
  azure_loop pre = inr ts ->
  azure_extract_text (pre ++ Invalid :: post) = inl ValueError /\
  (forall kvs, obj_get (s "DisplayText") kvs = None ->
   azure_extract_text (pre ++ Valid (JObj kvs) :: post) = inl KeyError).
Proof.
  intro H. unfold azure_extract_text. split.
  - rewrite (azure_loop_app_inr pre ts _ H). reflexivity.
  - intros kvs Hk. rewrite (azure_loop_app_inr pre ts _ H).
    cbn [azure_loop]. unfold getitem at 1. rewrite Hk. reflexivity.
Qed.

Lemma azure_extract_text_raises_witness :
  azure_extract_text ([Valid (JObj [(s "DisplayText", JStr (s "a"))])] ++ Invalid :: []) = inl ValueError /\
  azure_extract_text ([Valid (JObj [(s "DisplayText", JStr (s "a"))])] ++
                      Valid (JObj [(s "Display", JStr (s "b"))]) :: []) = inl KeyError.
Proof.
  destruct (azure_extract_text_raises [Valid (JObj [(s "DisplayText", JStr (s "a"))])] [JStr (s "a")] []
              eq_refl) as [H1 H2].
  split; [exact H1|]. apply H2. reflexivity.
Defined.

(** X6: Google, only the first key [k] of ["results"] is read, whatever
    the other keys hold: the parts under [k]'s ["transcript"]["results"]
    each give the first alternative's ["transcript"] when their
    ["alternatives"] is not empty, and nothing when it is; these strings
    are concatenated without separator. *)
Theorem google_extract_text_first_channel kvs results k ks ch tr ps items os :
  obj_get (s "results") kvs = Some results ->
  keys results = inr (k :: ks) ->
  getitem results k = inr ch -> getitem ch (s "transcript") = inr tr ->
  getitem tr (s "results") = inr ps -> iter ps = inr items ->
  Forall2 (fun part o => exists alts, getitem part (s "alternatives") = inr alts /\
             match o with
             | None => py_len alts = inr 0
             | Some t => exists n a0, py_len alts = inr (S n) /\ getindex alts 0 = inr a0 /\
                                      getitem a0 (s "transcript") = inr (JStr t)
             end) items os ->
  google_extract_text (Valid (JObj kvs)) =
  inr (List.concat (flat_map (fun o => match o with Some t => [t] | None => [] end) os)).
Proof.
  intros Hr Hk Hch Htr Hps Hit Hos.
  assert (E1 : getitem (JObj kvs) (s "results") = inr results) by (cbn [getitem]; rewrite Hr; reflexivity).
  unfold google_extract_text. rewrite E1. cbn [lift ebind]. rewrite Hk. cbn [lift ebind bind].
  rewrite Hch. cbn [bind]. rewrite Htr. cbn [bind]. rewrite Hps.
  cbn [lift ebind]. rewrite Hit. cbn [lift ebind]. rewrite (google_parts_texts items os Hos).
  cbn [lift ebind]. rewrite join_values_JStr. cbn [lift]. rewrite str_join_nil. reflexivity.
Qed.

Lemma google_extract_text_first_channel_witness :
  google_extract_text
    (Valid (JObj [(s "results", JObj [(s "ch0", JObj [(s "transcript",
       JObj [(s "results", JArr [JObj [(s "alternatives", JArr [JObj [(s "transcript", JStr (s "Hello "));
                                                                     (s "confidence", JNum 1)];
                                                               JObj [(s "transcript", JStr (s "Hallo "))]])];
                                 JObj [(s "alternatives", JArr []); (s "resultEndOffset", JStr (s "3s"))];
                                 JObj [(s "alternatives", JArr [JObj [(s "transcript", JStr (s "world"))]])]])])]);
                                        (s "ch1", JNull)]);
                  (s "totalBilledDuration", JStr (s "5s"))])) = inr (s "Hello world").
Proof.
  erewrite (google_extract_text_first_channel _ _ (s "ch0") [s "ch1"] _ _ _ _
              [Some (s "Hello "); None; Some (s "world")]);
    [reflexivity | reflexivity | reflexivity | reflexivity | reflexivity | reflexivity | reflexivity |].
  apply Forall2_cons; [|apply Forall2_cons; [|apply Forall2_cons; [|apply Forall2_nil]]].
  - eexists. split; [reflexivity|]. do 2 eexists. split; [reflexivity|]. split; reflexivity.
  - eexists. split; reflexivity.
  - eexists. split; [reflexivity|]. do 2 eexists. split; [reflexivity|]. split; reflexivity.
Defined.

(** X7: Google, edge cases of ["results"]: an empty object raises
    [IndexError]; a value that is not an object raises [AttributeError]. *)
Theorem google_extract_text_results_errors kvs r :
  obj_get (s "results") kvs = Some r ->
  (r = JObj [] -> google_extract_text (Valid (JObj kvs)) = inl (PyError IndexError)) /\
  ((forall kvs', r <> JObj kvs') -> google_extract_text (Valid (JObj kvs)) = inl AttributeError).
Proof.
  intro Hr.
  assert (E : getitem (JObj kvs) (s "results") = inr r) by (cbn [getitem]; rewrite Hr; reflexivity).
  unfold google_extract_text. rewrite E. cbn [lift ebind].
  split.
  - intros ->. reflexivity.
  - intro Hn. destruct r as [| | | | |kvs']; try reflexivity. exfalso. apply (Hn kvs'). reflexivity.
Qed.

Lemma google_extract_text_results_errors_witness :
  google_extract_text (Valid (JObj [(s "results", JObj [])])) = inl (PyError IndexError) /\
  google_extract_text (Valid (JObj [(s "results", JArr [])])) = inl AttributeError.
Proof.
  split.
  - apply (proj1 (google_extract_text_results_errors [(s "results", JObj [])] (JObj []) eq_refl)).
    reflexivity.
  - apply (proj2 (google_extract_text_results_errors [(s "results", JArr [])] (JArr []) eq_refl)).
    discriminate.
Defined.

(** X8: Sber, a JSON value whose items each hold a string at
    ["results"][0]["normalized_text"], whatever else they hold: these
    strings concatenated without separator, in order. *)
Theorem sber_extract_text_parts v items ts :
  iter v = inr items ->
  Forall2 (fun part t => exists rs r0, getitem part (s "results") = inr rs /\ getindex rs 0 = inr r0 /\
                                       getitem r0 (s "normalized_text") = inr (JStr t)) items ts ->
  sber_extract_text (Valid v) = inr (List.concat ts).
Proof.
  intros Hv H. unfold sber_extract_text. rewrite Hv. cbn [bind]. rewrite (sber_parts_texts items ts H).
  cbn [bind]. rewrite join_values_JStr, str_join_nil. reflexivity.
Qed.

Lemma sber_extract_text_parts_witness :
  sber_extract_text (Valid (JArr [JObj [(s "results", JArr [JObj [(s "text", JStr (s "hi"));
                                                                  (s "normalized_text", JStr (s "Hi "))];
                                                            JObj [(s "normalized_text", JStr (s "x"))]]);
                                        (s "channel", JNum 0)];
                                  JObj [(s "results", JArr [JObj [(s "normalized_text", JStr (s "there"))]])]])) =
  inr (s "Hi there").
Proof.
  erewrite (sber_extract_text_parts _ _ [s "Hi "; s "there"]); [reflexivity|reflexivity|].
  apply Forall2_cons; [|apply Forall2_cons; [|apply Forall2_nil]].
  - do 2 eexists. split; [reflexivity|]. split; reflexivity.
  - do 2 eexists. split; [reflexivity|]. split; reflexivity.
Defined.

(** X9: Sber, after parts that parse, a part whose ["results"] list is empty
    raises [IndexError]. *)
Theorem sber_extract_text_empty_results pre ts post kvs :
  sber_parts pre = inr ts -> obj_get (s "results") kvs = Some (JArr []) ->
  sber_extract_text (Valid (JArr (pre ++ JObj kvs :: post))) = inl IndexError.
Proof.
  intros H Hk. unfold sber_extract_text. cbn [iter bind].
  rewrite (sber_parts_app_inr pre ts _ H). cbn [sber_parts]. unfold getitem at 1. rewrite Hk.
  reflexivity.
Qed.

Lemma sber_extract_text_empty_results_witness :
  sber_extract_text (Valid (JArr ([sber_part (s "a")] ++ JObj [(s "results", JArr [])] :: []))) =
  inl IndexError.
Proof. apply (sber_extract_text_empty_results _ [JStr (s "a")]); reflexivity. Defined.

End Extras.

Module MoreFacts.
Import Py Exn Json Re PyFloat.

(* dict of [_parse_log_file] *)
Lemma dict_get_set_same k v d dflt : LlmMetrics.dict_get k (LlmMetrics.dict_set k v d) dflt = v.
Proof.
  induction d as [|[k' v'] d IH]; simpl.
  - replace (str_eqb k k) with true by (symmetry; apply str_eqb_eq; reflexivity). reflexivity.
  - destruct (str_eqb k' k) eqn:E; simpl; rewrite E; [reflexivity|exact IH].
Qed.

Lemma dict_get_set_other k k' v d dflt :
  str_eqb k' k = false -> LlmMetrics.dict_get k (LlmMetrics.dict_set k' v d) dflt = LlmMetrics.dict_get k d dflt.
Proof.
  intro Hk. induction d as [|[k'' v''] d IH]; simpl.
  - rewrite Hk. reflexivity.
  - destruct (str_eqb k'' k') eqn:E; simpl.
    + apply str_eqb_eq in E. subst k''. rewrite Hk. reflexivity.
    + rewrite IH. reflexivity.
Qed.

Lemma llm_parse_log_from_spec lines st : forall res d,
  LlmMetrics.parse_log_file_from lines res = inr d ->
  (LlmLog.last_completion lines st = None -> LlmMetrics.dict_get st d 0%Q = LlmMetrics.dict_get st res 0%Q) /\
  (forall e, LlmLog.last_completion lines st = Some e -> py_float e = Some (LlmMetrics.dict_get st d 0%Q)).
Proof.
  induction lines as [|line r IH]; intros res d H; simpl in *.
  - injection H as <-. split; [reflexivity|discriminate].
  - destruct (search LlmMetrics.re_complete line) as [m|] eqn:Em.
    + destruct (py_float (group "elapsed" m)) as [t|] eqn:Et; [|discriminate].
      destruct (IH _ _ H) as [IH1 IH2].
      destruct (LlmLog.last_completion r st) as [e|] eqn:El.
      * split; [discriminate|]. intros e' He'. injection He' as <-. apply IH2. reflexivity.
      * rewrite (IH1 eq_refl).
        destruct (str_eqb (stem (group "file_path" m)) st) eqn:Es.
        -- apply str_eqb_eq in Es. rewrite Es, dict_get_set_same.
           split; [discriminate|]. intros e' He'. injection He' as <-. exact Et.
        -- rewrite dict_get_set_other by exact Es. split; [reflexivity|discriminate].
    + destruct (IH _ _ H) as [IH1 IH2].
      destruct (LlmLog.last_completion r st) as [e|] eqn:El.
      * split; [discriminate|]. intros e' He'. injection He' as <-. apply IH2. reflexivity.
      * split; [|discriminate]. intros _. apply IH1. reflexivity.
Qed.

Lemma llm_parse_log_from_bad lines : forall res line m,
  In line lines -> search LlmMetrics.re_complete line = Some m -> py_float (group "elapsed" m) = None ->
  LlmMetrics.parse_log_file_from lines res = inl ValueError.
Proof.
  induction lines as [|l r IH]; intros res line m Hin Hm Hf; [destruct Hin|].
  simpl. destruct Hin as [<-|Hin].
  - rewrite Hm, Hf. reflexivity.
  - destruct (search LlmMetrics.re_complete l) as [m'|]; [|eapply IH; eauto].
    destruct (py_float (group "elapsed" m')); [eapply IH; eauto|reflexivity].
Qed.

(* [str.split] *)
Lemma split_nonempty c x : split c x <> [].
Proof.
  destruct x as [|y r]; simpl; [discriminate|].
  destruct (Ascii.eqb y c); [discriminate|]. destruct (split c r); discriminate.
Qed.

Lemma split_app_nosep c x y :
  ~ In c x -> split c (x ++ y) = (x ++ hd [] (split c y)) :: tl (split c y).
Proof.
  intro Hx. induction x as [|z x IH]; simpl.
  - destruct (split c y) eqn:E; [exfalso; exact (split_nonempty c y E)|reflexivity].
  - rewrite IH by (intro H; apply Hx; right; exact H).
    replace (Ascii.eqb z c) with false; [reflexivity|].
    symmetry. apply Ascii.eqb_neq. intro H. apply Hx. left. exact H.
Qed.

Lemma split_app_sep c x y : ~ In c x -> split c (x ++ c :: y) = x :: split c y.
Proof.
  intro Hx. rewrite split_app_nosep by exact Hx. simpl. rewrite Ascii.eqb_refl. simpl.
  rewrite app_nil_r. reflexivity.
Qed.

(* [rfind] and [suffix] *)
Lemma rfind_nth c x i : rfind c x = Some i -> nth_error x i = Some c.
Proof.
  revert i. induction x as [|y x IH]; intros i H; simpl in H; [discriminate|].
  destruct (rfind c x) as [j|] eqn:E.
  - injection H as <-. simpl. apply IH. reflexivity.
  - destruct (Ascii.eqb y c) eqn:Ey; [|discriminate]. injection H as <-.
    apply Ascii.eqb_eq in Ey. subst. reflexivity.
Qed.

Lemma suffix_shape nm : suffix_of_name nm = [] \/ exists r, suffix_of_name nm = "."%char :: r.
Proof.
  unfold suffix_of_name. destruct (rfind "." nm) as [i|] eqn:E; [|left; reflexivity].
  destruct (has_suffix_at nm i); [|left; reflexivity]. right.
  apply rfind_nth in E. revert nm E. induction i as [|i IH]; intros [|y nm] E; simpl in *;
    try discriminate.
  - injection E as ->. eexists. reflexivity.
  - apply IH. exact E.
Qed.

Lemma suffix_split nm : suffix_of_name nm <> [] -> nm = stem_of_name nm ++ suffix_of_name nm.
Proof.
  unfold suffix_of_name, stem_of_name. destruct (rfind "." nm) as [i|]; [|congruence].
  destruct (has_suffix_at nm i); [|congruence]. intros _. symmetry. apply firstn_skipn.
Qed.

(* last element *)
Lemma removelast_last_eq (l : list str) d : l <> [] -> l = removelast l ++ [last l d].
Proof. apply app_removelast_last. Qed.

(* references that do not decode *)
Lemma map_m_extract_invalid l :
  (forall c, In c l -> c = Invalid) ->
  map_m extract_text_from_summary_file l = inr (map (fun _ => []) l).
Proof.
  induction l as [|c l IH]; intros H; [reflexivity|]. simpl.
  rewrite (H c (or_introl eq_refl)). simpl. rewrite IH by (intros c' Hc'; apply H; right; exact Hc').
  reflexivity.
Qed.

Lemma filter_non_empty_nil {A} (l : list A) :
  filter LlmMetrics.non_empty (map (fun _ => @nil ascii) l) = [].
Proof. induction l; simpl; [reflexivity|exact IHl]. Qed.

(* [name_to_reference] and [log_data_of]: the last entry wins *)
Lemma name_to_reference_none refs nm :
  AsrMetrics.name_to_reference refs nm = None -> forall q, In q refs -> Runner.name_of (fst q) <> nm.
Proof.
  induction refs as [|[p t] r IH]; intros H q Hq; [destruct Hq|].
  cbn [AsrMetrics.name_to_reference] in H.
  destruct (AsrMetrics.name_to_reference r nm); [discriminate|].
  destruct Hq as [<-|Hq]; [|apply IH; auto].
  simpl. intro Hn. rewrite (proj2 (str_eqb_eq _ _) Hn) in H. discriminate.
Qed.

Lemma name_to_reference_last refs nm t :
  AsrMetrics.name_to_reference refs nm = Some t ->
  exists pre p post, refs = pre ++ (p, t) :: post /\ Runner.name_of p = nm /\
    forall q, In q post -> Runner.name_of (fst q) <> nm.
Proof.
  induction refs as [|[p t'] r IH]; cbn [AsrMetrics.name_to_reference]; [discriminate|].
  destruct (AsrMetrics.name_to_reference r nm) as [x|] eqn:E.
  - intros H. injection H as ->. destruct (IH eq_refl) as (pre & p' & post & -> & Hn & Hp).
    exists ((p, t') :: pre), p', post. repeat split; auto.
  - destruct (str_eqb (Runner.name_of p) nm) eqn:Hs; [|discriminate].
    intros H. injection H as ->. exists [], p, r. split; [reflexivity|].
    split; [apply str_eqb_eq; exact Hs|]. apply name_to_reference_none. exact E.
Qed.

Lemma log_data_of_none logs st :
  AsrMetrics.log_data_of logs st = None -> forall l, In l logs -> AsrLog.file_name l <> st.
Proof.
  induction logs as [|l0 r IH]; intros H l Hl; [destruct Hl|].
  cbn [AsrMetrics.log_data_of] in H.
  destruct (AsrMetrics.log_data_of r st); [discriminate|].
  destruct Hl as [<-|Hl]; [|apply IH; auto].
  intro Hn. rewrite (proj2 (str_eqb_eq _ _) Hn) in H. discriminate.
Qed.

Lemma log_data_of_last logs st l :
  AsrMetrics.log_data_of logs st = Some l ->
  exists pre post, logs = pre ++ l :: post /\ AsrLog.file_name l = st /\
    forall l', In l' post -> AsrLog.file_name l' <> st.
Proof.
  induction logs as [|l0 r IH]; cbn [AsrMetrics.log_data_of]; [discriminate|].
  destruct (AsrMetrics.log_data_of r st) as [x|] eqn:E.
  - intros H. injection H as ->. destruct (IH eq_refl) as (pre & post & -> & Hn & Hp).
    exists (l0 :: pre), post. repeat split; auto.
  - destruct (str_eqb (AsrLog.file_name l0) st) eqn:Hs; [|discriminate].
    intros H. injection H as ->. exists [], r. split; [reflexivity|].
    split; [apply str_eqb_eq; exact Hs|]. apply log_data_of_none. exact E.
Qed.

End MoreFacts.

Module Extras2.
Import Py Exn Json Re PyFloat MoreFacts.

(** X10: [_parse_log_file] of the LLM processor: for every stem, the elapsed
    time kept is the value of the last completion line of that stem, and 0
    when there is none. *)
Theorem llm_parse_log_file_last_wins lines d :
  LlmMetrics.parse_log_file lines = inr d ->
  forall st,
    (LlmLog.last_completion lines st = None -> LlmMetrics.dict_get st d 0%Q = 0%Q) /\
    (forall e, LlmLog.last_completion lines st = Some e -> py_float e = Some (LlmMetrics.dict_get st d 0%Q)).
Proof.
  intros H st. destruct (llm_parse_log_from_spec lines st [] d H) as [H1 H2]. split; [exact H1|exact H2].
Qed.

Lemma llm_parse_log_file_last_wins_witness :
  LlmMetrics.parse_log_file
    (LogFormat.lines_of (LogFormat.log_text
       [LogFormat.summary_completed_record (s "7") (s "t/a.txt") (s "o/a.json") (s "2.5");
        LogFormat.summary_completed_record (s "8") (s "u/a.txt") (s "o/a.json") (s "4.25")])) =
    inr [(s "a", 425 # 100)%Q] /\
  py_float (s "4.25") = Some (LlmMetrics.dict_get (s "a") [(s "a", 425 # 100)%Q] 0%Q).
Proof.
  assert (H : LlmMetrics.parse_log_file
    (LogFormat.lines_of (LogFormat.log_text
       [LogFormat.summary_completed_record (s "7") (s "t/a.txt") (s "o/a.json") (s "2.5");
        LogFormat.summary_completed_record (s "8") (s "u/a.txt") (s "o/a.json") (s "4.25")])) =
    inr [(s "a", 425 # 100)%Q]) by (vm_compute; reflexivity).
  split; [exact H|].
  apply (proj2 (llm_parse_log_file_last_wins _ _ H (s "a"))). vm_compute. reflexivity.
Defined.

(** X11: [_parse_log_file] of the LLM processor raises [ValueError] as soon as
    one matched line has an elapsed text that is not a float, such as
    ["1.2.3"]. *)
Theorem llm_parse_log_file_bad_float lines line m :
  In line lines -> search LlmMetrics.re_complete line = Some m -> py_float (group "elapsed" m) = None ->
  LlmMetrics.parse_log_file lines = inl ValueError.
Proof. intros. eapply llm_parse_log_from_bad; eauto. Qed.

Lemma llm_parse_log_file_bad_float_witness :
  LlmMetrics.parse_log_file
    (LogFormat.lines_of (LogFormat.log_text
       [LogFormat.summary_completed_record (s "7") (s "t/a.txt") (s "o/a.json") (s "1.2.3")])) =
  inl ValueError.
Proof.
  eapply llm_parse_log_file_bad_float; [left; vm_compute; reflexivity|vm_compute; reflexivity|].
  vm_compute. reflexivity.
Defined.

(** X12: [_parse_file_path] on a dataset stem [a.b.c.<P>_people.<M>_mins...]
    (no dot in [a], [b], [c], [P], [M]; no underscore in [P], [M]) returns
    the stem, [P] and [M]. *)
Theorem parse_file_path_dataset_stem a b c p m rest :
  ~ In "."%char a -> ~ In "."%char b -> ~ In "."%char c -> ~ In "."%char p -> ~ In "."%char m ->
  ~ In "_"%char p -> ~ In "_"%char m ->
  let st := a ++ "."%char :: b ++ "."%char :: c ++ "."%char :: p ++ s "_people" ++
            "."%char :: m ++ s "_mins" ++ rest in
  LlmMetrics.parse_file_path st = inr (st, p, m).
Proof.
  intros Ha Hb Hc Hp Hm Hp_ Hm_ st. unfold LlmMetrics.parse_file_path, st.
  rewrite !split_app_sep by assumption.
  rewrite app_assoc, split_app_sep
    by (rewrite in_app_iff; intros [H|H]; [exact (Hp H)|simpl in H; intuition discriminate]).
  rewrite app_assoc, split_app_nosep
    by (rewrite in_app_iff; intros [H|H]; [exact (Hm H)|simpl in H; intuition discriminate]).
  cbn [index nth_error].
  replace ((p ++ s "_people")) with (p ++ "_"%char :: s "people") by reflexivity.
  rewrite split_app_sep by exact Hp_.
  rewrite <- !app_assoc.
  replace (m ++ s "_mins" ++ hd [] (split "." rest)) with (m ++ "_"%char :: (s "mins" ++ hd [] (split "." rest)))
    by reflexivity.
  rewrite split_app_sep by exact Hm_. reflexivity.
Qed.

Lemma parse_file_path_dataset_stem_witness :
  LlmMetrics.parse_file_path (s "meeting.ru.v1.3_people.15_mins") =
  inr (s "meeting.ru.v1.3_people.15_mins", s "3", s "15").
Proof.
  apply (parse_file_path_dataset_stem (s "meeting") (s "ru") (s "v1") (s "3") (s "15") []);
    simpl; intuition discriminate.
Defined.

End Extras2.

Module Extras3.
Import Py Exn Json Runner RunnerFacts MoreFacts ResumeFacts.

(** X13: [summarize] never rewrites a file that was in the output directory
    before the run: every output it writes is a new file, for [.txt]
    inputs. *)
Theorem summarize_writes_only_new_files raises mt files dir0 c n st :
  (forall p, In p files -> suffix_of_name (name_of p) = s ".txt") ->
  summarize raises mt files dir0 (inr (c, n, st)) ->
  forall x, In x (written st) -> ~ In x dir0.
Proof.
  intros Htxt Hs. apply summarize_inv in Hs as (_ & order & Hperm & Heq).
  injection Heq as _ _ ->.
  intros x Hx Hx0. apply run_written in Hx as [[]|(p & Hp & Hf)].
  unfold summarizer_wrapper in Hf. destruct (raises p); [discriminate|]. injection Hf as <-.
  assert (Htp : In p (transcript_paths dir0 files))
    by (apply Permutation_in with order; [symmetry; exact Hperm|exact Hp]).
  apply in_transcript_paths in Htp as [Hin Hn]. apply Hn.
  assert (Hne : stem_of p <> []).
  { unfold stem_of. apply suffix_stem_nonempty. rewrite Htxt by exact Hin. discriminate. }
  destruct (stem_suffix_json (stem_of p) Hne) as [Hst Hsu].
  apply in_exist_transcripts. exists (stem_of p ++ s ".json"). auto.
Qed.

Lemma summarize_writes_only_new_files_witness :
  exists c n st,
    summarize Samples.never 2%Z [Samples.path_of false "t" "a.txt"; Samples.path_of false "t" "b.txt"]
      [s "a.json"] (inr (c, n, st)) /\
    written st = [s "b.json"] /\ forall x, In x (written st) -> ~ In x [s "a.json"].
Proof.
  assert (Ht : forall p, In p [Samples.path_of false "t" "a.txt"; Samples.path_of false "t" "b.txt"] ->
                 suffix_of_name (name_of p) = s ".txt")
    by (intros p [<-|[<-|[]]]; reflexivity).
  pose proof (summarize_pool Samples.never 2%Z
                [Samples.path_of false "t" "a.txt"; Samples.path_of false "t" "b.txt"] [s "a.json"]
                _ eq_refl (Permutation_refl _)) as Hs.
  cbv zeta in Hs. do 3 eexists. split; [exact Hs|]. split; [vm_compute; reflexivity|].
  exact (summarize_writes_only_new_files _ _ _ _ _ _ _ Ht Hs).
Defined.

(** X14: [ASRProcessor.parse] when the parser never raises: for every input,
    in order, it writes the parser's text to the input's output path. *)
Theorem parse_writes_every_output parser files texts :
  (forall p, In p files -> parser p = inr (texts p)) ->
  AsrParse.parse parser files = (inr tt, map (fun p => (AsrParse.output_path p, texts p)) files).
Proof.
  intros H. unfold AsrParse.parse.
  change (map (fun p => (AsrParse.output_path p, texts p)) files)
    with ([] ++ map (fun p => (AsrParse.output_path p, texts p)) files).
  generalize (@nil (Fs.path * str)) as w.
  induction files as [|p r IH]; intros w; simpl.
  - rewrite app_nil_r. reflexivity.
  - rewrite (H p (or_introl eq_refl)). rewrite IH by (intros q Hq; apply H; right; exact Hq).
    rewrite <- app_assoc. reflexivity.
Qed.

Lemma parse_writes_every_output_witness :
  AsrParse.parse Samples.sample_parser [Samples.path_of false "j" "a.json"; Samples.path_of false "j" "b.json"] =
  (inr tt, [(AsrParse.output_path (Samples.path_of false "j" "a.json"), s "text");
            (AsrParse.output_path (Samples.path_of false "j" "b.json"), s "text")]).
Proof.
  rewrite (parse_writes_every_output Samples.sample_parser
             [Samples.path_of false "j" "a.json"; Samples.path_of false "j" "b.json"] (fun _ => s "text"));
    [reflexivity|].
  intros p [<-|[<-|[]]]; reflexivity.
Defined.

(** X15: [file_path.with_name(file_path.stem + ".txt")] on [.json] inputs:
    the output is never the input itself, and two different inputs never
    share an output. *)
Theorem output_path_injective p q :
  suffix_of_name (name_of p) = s ".json" -> suffix_of_name (name_of q) = s ".json" ->
  AsrParse.output_path p <> p /\ (AsrParse.output_path p = AsrParse.output_path q -> p = q).
Proof.
  intros Hp Hq.
  assert (Sp : name_of p = stem_of p ++ s ".json")
    by (unfold stem_of; rewrite <- Hp; apply suffix_split; rewrite Hp; discriminate).
  assert (Sq : name_of q = stem_of q ++ s ".json")
    by (unfold stem_of; rewrite <- Hq; apply suffix_split; rewrite Hq; discriminate).
  assert (Np : Fs.parts p <> []) by (intro E; unfold name_of in Sp; rewrite E in Sp;
    destruct (stem_of p); discriminate).
  assert (Nq : Fs.parts q <> []) by (intro E; unfold name_of in Sq; rewrite E in Sq;
    destruct (stem_of q); discriminate).
  split.
  - intros E. assert (E2 : Fs.parts (AsrParse.output_path p) = Fs.parts p) by (rewrite E; reflexivity).
    simpl in E2. rewrite (removelast_last_eq (Fs.parts p) [] Np) in E2 at 2.
    apply app_inv_head in E2. injection E2 as E2. unfold name_of in Sp. rewrite <- E2 in Sp.
    apply (f_equal (@List.length ascii)) in Sp. rewrite !length_app in Sp. simpl in Sp. lia.
  - intros E. destruct p as [ap pp], q as [aq pq]. unfold AsrParse.output_path in E. simpl in *.
    injection E as Ea Ep. subst aq. f_equal.
    apply (f_equal (@removelast str)) in Ep as Er.
    rewrite !removelast_last in Er.
    apply (f_equal (fun l => last l [])) in Ep. rewrite !last_last in Ep.
    apply app_inv_tail in Ep.
    rewrite (removelast_last_eq pp [] Np), (removelast_last_eq pq [] Nq).
    unfold name_of in Sp, Sq. simpl in Sp, Sq. unfold stem_of, name_of in Ep. simpl in Ep.
    rewrite Er, Sp, Sq. unfold stem_of, name_of. simpl. rewrite Ep. reflexivity.
Qed.

Lemma output_path_injective_witness :
  AsrParse.output_path (Samples.path_of false "j" "a.json") <> Samples.path_of false "j" "a.json" /\
  (AsrParse.output_path (Samples.path_of false "j" "a.json") =
   AsrParse.output_path (Samples.path_of false "j" "a.json") ->
   Samples.path_of false "j" "a.json" = Samples.path_of false "j" "a.json").
Proof. apply output_path_injective; reflexivity. Defined.

(** X16: [find_files] with an extension that is not empty and does not start
    with a dot (["mp3"] instead of [".mp3"]) finds nothing: a suffix always
    starts with a dot. *)
Theorem find_files_extension_without_dot root cwd dir ext l :
  ext <> [] -> hd "."%char ext <> "."%char ->
  Fs.find_files root cwd dir ext = inr l -> l = [].
Proof.
  intros Hne Hd H. unfold Fs.find_files in H.
  destruct (Fs.stat root cwd (Fs.parse_path dir)) as [[|t|es|]|]; try discriminate.
  injection H as <-. apply nil_of_no_member. intros q Hq.
  apply in_map_iff in Hq as (rel & _ & He). apply filter_In in He as [_ He].
  apply andb_prop in He as [_ He]. apply str_eqb_eq in He.
  assert (K : forall nm, suffix_of_name nm <> ext).
  { intros nm E0. destruct (suffix_shape nm) as [E|(r & E)]; rewrite E in E0.
    - exact (Hne (eq_sym E0)).
    - rewrite <- E0 in Hd. apply Hd. reflexivity. }
  exact (K _ He).
Qed.

Lemma find_files_extension_without_dot_witness :
  Fs.find_files Samples.sample_root [] (s "/home/data") (s "mp3") = inr [].
Proof.
  destruct (Fs.find_files Samples.sample_root [] (s "/home/data") (s "mp3")) as [e|l] eqn:E.
  - vm_compute in E. discriminate.
  - f_equal. exact (find_files_extension_without_dot Samples.sample_root [] (s "/home/data") (s "mp3") l
                      ltac:(discriminate) ltac:(discriminate) E).
Defined.

End Extras3.

Module Extras4.
Import Py Exn Json MoreFacts.

(** X17: [LLMProcessor.metrics], a hypothesis whose references all fail to
    decode is still read before it is skipped: the step yields no row, or
    the exception its own extraction raises. *)
Theorem llm_metrics_step_undecodable_references mf references ld h :
  LlmMetrics.references_of references (Runner.stem_of (fst h)) <> [] ->
  (forall c, In c (LlmMetrics.references_of references (Runner.stem_of (fst h))) -> c = Invalid) ->
  LlmMetrics.metrics_step mf references ld h =
  (hyp <- extract_text_from_summary_file (snd h) ;; inr None).
Proof.
  intros Hne Hinv. unfold LlmMetrics.metrics_step.
  destruct (LlmMetrics.references_of references (Runner.stem_of (fst h))) as [|c cs] eqn:E;
    [congruence|].
  rewrite (map_m_extract_invalid _ Hinv). cbn [bind]. rewrite filter_non_empty_nil.
  destruct (extract_text_from_summary_file (snd h)); cbn [bind]; [reflexivity|].
  rewrite orb_true_r. reflexivity.
Qed.

Lemma llm_metrics_step_undecodable_references_witness :
  LlmMetrics.metrics_step (fun _ _ => []) [(Samples.path_of false "r" "a.json", Invalid)] []
    (Samples.path_of false "h" "a.json", Samples.summary_without_conclusion) = inl KeyError.
Proof.
  rewrite llm_metrics_step_undecodable_references.
  - reflexivity.
  - discriminate.
  - intros c [<-|[]]. reflexivity.
Defined.

(** X18: [ASRProcessor.metrics], a row's sources: the hypothesis is scored
    against the last reference of the same file name, and its two times
    come from the last log record of its stem, or are both 0 when the log
    has none. *)
Theorem asr_metrics_row_sources sc refs logs h r :
  AsrMetrics.metrics_step sc refs logs h = inr (Some r) ->
  (exists pre p t post, refs = pre ++ (p, t) :: post /\ Runner.name_of p = Runner.name_of (fst h) /\
     (forall q, In q post -> Runner.name_of (fst q) <> Runner.name_of (fst h)) /\
     sc t (snd h) = inr (AsrMetrics.a_fields r)) /\
  (((forall l, In l logs -> AsrLog.file_name l <> Runner.stem_of (fst h)) /\
    AsrMetrics.a_total_sec r = 0%Q /\ AsrMetrics.a_operation_sec r = 0%Q) \/
   (exists pre l post, logs = pre ++ l :: post /\ AsrLog.file_name l = Runner.stem_of (fst h) /\
     (forall l', In l' post -> AsrLog.file_name l' <> Runner.stem_of (fst h)) /\
     AsrMetrics.a_total_sec r = AsrLog.total_elapsed_time_sec l /\
     AsrMetrics.a_operation_sec r = AsrLog.operation_elapsed_time_sec l)).
Proof.
  unfold AsrMetrics.metrics_step.
  destruct (AsrMetrics.name_to_reference refs (Runner.name_of (fst h))) as [t|] eqn:En; [|discriminate].
  destruct (sc t (snd h)) as [e|fields] eqn:Es; cbn [bind]; [discriminate|].
  intros H. injection H as <-. simpl. split.
  - destruct (name_to_reference_last _ _ _ En) as (pre & p & post & -> & Hn & Hp).
    exists pre, p, t, post. auto.
  - destruct (AsrMetrics.log_data_of logs (Runner.stem_of (fst h))) as [l|] eqn:El.
    + right. destruct (log_data_of_last _ _ _ El) as (pre & post & -> & Hn & Hp).
      exists pre, l, post. auto.
    + left. split; [apply log_data_of_none; exact El|]. auto.
Qed.

Lemma asr_metrics_row_sources_witness :
  AsrMetrics.metrics_step (fun rf hy => inr [rf; hy])
    [(Samples.path_of false "r1" "a.txt", s "old"); (Samples.path_of false "r2" "a.txt", s "new")]
    [AsrLog.record_of (s "a") (1 # 1) None; AsrLog.record_of (s "a") (2 # 1) (Some (1 # 2))]
    (Samples.path_of false "h" "a.txt", s "hyp") =
  inr (Some {| AsrMetrics.a_file_name := s "a.txt"; AsrMetrics.a_fields := [s "new"; s "hyp"];
               AsrMetrics.a_total_sec := 2 # 1; AsrMetrics.a_operation_sec := 1 # 2 |}) /\
  AsrMetrics.a_fields {| AsrMetrics.a_file_name := s "a.txt"; AsrMetrics.a_fields := [s "new"; s "hyp"];
               AsrMetrics.a_total_sec := 2 # 1; AsrMetrics.a_operation_sec := 1 # 2 |} = [s "new"; s "hyp"].
Proof.
  assert (H : AsrMetrics.metrics_step (fun rf hy => inr [rf; hy])
    [(Samples.path_of false "r1" "a.txt", s "old"); (Samples.path_of false "r2" "a.txt", s "new")]
    [AsrLog.record_of (s "a") (1 # 1) None; AsrLog.record_of (s "a") (2 # 1) (Some (1 # 2))]
    (Samples.path_of false "h" "a.txt", s "hyp") =
  inr (Some {| AsrMetrics.a_file_name := s "a.txt"; AsrMetrics.a_fields := [s "new"; s "hyp"];
               AsrMetrics.a_total_sec := 2 # 1; AsrMetrics.a_operation_sec := 1 # 2 |}))
    by (vm_compute; reflexivity).
  split; [exact H|].
  destruct (asr_metrics_row_sources _ _ _ _ _ H) as [_ _]. reflexivity.
Defined.

End Extras4.

Module ReFacts.

Import Py Re Adj.

Lemma mtch_cat r1 r2 x caps k :
  mtch (Cat r1 r2) x caps k = mtch r1 x caps (fun x' c' => mtch r2 x' c' k).
Proof. reflexivity. Qed.

Lemma is_prefix_app l b : is_prefix l (l ++ b) = true.
Proof. induction l as [|a l IH]; simpl; [reflexivity|]. rewrite Ascii.eqb_refl, IH. reflexivity. Qed.

Lemma mtch_lit l b caps k : mtch (Lit l) (l ++ b) caps k = k b caps.
Proof.
  simpl. rewrite is_prefix_app.
  replace (List.length l) with (List.length l + 0) by lia. rewrite skipn_app.
  rewrite skipn_all2 by lia. replace (List.length l + 0 - List.length l) with 0 by lia. reflexivity.
Qed.

Lemma mtch_cat_lit_none l r x caps k :
  is_prefix l x = false -> mtch (Cat (Lit l) r) x caps k = None.
Proof. intros H. simpl. rewrite H. reflexivity. Qed.

Lemma is_prefix_nth l y q c :
  is_prefix l y = true -> nth_error l q = Some c -> nth_error y q = Some c.
Proof.
  revert y q. induction l as [|a l IH]; intros y q H Hq.
  - destruct q; discriminate.
  - destruct y as [|b y]; [discriminate|]. simpl in H.
    apply andb_prop in H as [H1 H2]. apply Ascii.eqb_eq in H1. subst b.
    destruct q; simpl in *; [exact Hq|]. apply IH; assumption.
Qed.

Lemma run_length_le cls x : run_length cls x <= List.length x.
Proof. induction x as [|c x IH]; simpl; [lia|]. destruct (cls c); simpl; lia. Qed.

Definition head_not (cls : ascii -> bool) (b : str) : Prop :=
  match b with c :: _ => cls c = false | [] => True end.

Lemma run_length_app cls a b :
  (forall c, In c a -> cls c = true) -> head_not cls b -> run_length cls (a ++ b) = List.length a.
Proof.
  intros Ha Hb. induction a as [|c a IH]; simpl.
  - destruct b as [|c b]; simpl in *; [reflexivity|]. rewrite Hb. reflexivity.
  - rewrite (Ha c (or_introl eq_refl)). rewrite IH; [reflexivity|].
    intros d Hd. apply Ha. right. exact Hd.
Qed.

Lemma try_runs_pick n x caps k i r :
  1 <= i <= n -> k (skipn i x) caps = Some r ->
  (forall j, i < j <= n -> k (skipn j x) caps = None) ->
  try_runs n x caps k = Some r.
Proof.
  induction n as [|n IH]; intros Hi Hk Hj; [lia|].
  cbn [try_runs]. destruct (Nat.eq_dec i (S n)) as [->|Hne].
  - rewrite Hk. reflexivity.
  - rewrite (Hj (S n)) by lia. apply IH; [lia|exact Hk|].
    intros j Hj'. apply Hj. lia.
Qed.

Lemma mtch_plus_pick cls x caps k i r :
  1 <= i <= run_length cls x -> k (skipn i x) caps = Some r ->
  (forall j, i < j <= run_length cls x -> k (skipn j x) caps = None) ->
  mtch (Plus cls) x caps k = Some r.
Proof. intros. simpl. eapply try_runs_pick; eauto. Qed.

Lemma len_skipn_diff {A} (x : list A) j : j <= List.length x -> List.length x - List.length (skipn j x) = j.
Proof. intros H. rewrite List.length_skipn. lia. Qed.

Lemma mtch_group_pick nm cls x caps k i r :
  1 <= i <= run_length cls x -> k (skipn i x) ((nm, firstn i x) :: caps) = Some r ->
  (forall j, i < j <= run_length cls x -> k (skipn j x) ((nm, firstn j x) :: caps) = None) ->
  mtch (Group nm (Plus cls)) x caps k = Some r.
Proof.
  intros Hi Hk Hj. simpl. pose proof (run_length_le cls x) as Hl.
  eapply try_runs_pick; [exact Hi| |].
  - rewrite len_skipn_diff by lia. exact Hk.
  - intros j Hj'. rewrite len_skipn_diff by lia. apply Hj. exact Hj'.
Qed.

Lemma skipn_length_app {A} (a b : list A) : skipn (List.length a) (a ++ b) = b.
Proof.
  replace (List.length a) with (List.length a + 0) by lia. rewrite skipn_app, skipn_all2 by lia.
  replace (List.length a + 0 - List.length a) with 0 by lia. reflexivity.
Qed.

Lemma firstn_length_app {A} (a b : list A) : firstn (List.length a) (a ++ b) = a.
Proof.
  rewrite firstn_app, firstn_all, Nat.sub_diag, firstn_O, app_nil_r. reflexivity.
Qed.

(** A group over the longest run: the run is followed by a character outside
    the class. *)
Lemma mtch_group_longest nm cls a b caps k r :
  a <> [] -> (forall c, In c a -> cls c = true) -> head_not cls b ->
  k b ((nm, a) :: caps) = Some r ->
  mtch (Group nm (Plus cls)) (a ++ b) caps k = Some r.
Proof.
  intros Hne Ha Hb Hk. apply mtch_group_pick with (i := List.length a).
  - rewrite run_length_app by assumption. destruct a; [congruence|simpl; lia].
  - rewrite skipn_length_app, firstn_length_app. exact Hk.
  - intros j Hj. rewrite run_length_app in Hj by assumption. lia.
Qed.

(** A later start of [l] would put its [q]-th character [c] after the
    [q]-th character of [w]. *)
Lemma no_later_prefix l q c pre w j :
  nth_error l q = Some c -> ~ In c (skipn (S q) w) -> List.length pre < j ->
  is_prefix l (skipn j (pre ++ w)) = false.
Proof.
  intros Hl Hw Hj. destruct (is_prefix l (skipn j (pre ++ w))) eqn:E; [|reflexivity].
  exfalso. pose proof (is_prefix_nth _ _ _ _ E Hl) as H.
  rewrite nth_error_skipn in H.
  rewrite nth_error_app2 in H by lia.
  apply Hw. apply nth_error_In with (n := j + q - List.length pre - S q).
  rewrite nth_error_skipn. replace (S q + (j + q - List.length pre - S q)) with (j + q - List.length pre) by lia.
  exact H.
Qed.

Lemma adjb_cons c1 c2 a r :
  adjb c1 c2 (a :: r) =
  (match r with b :: _ => Ascii.eqb a c1 && Ascii.eqb b c2 | [] => false end) || adjb c1 c2 r.
Proof. destruct r; reflexivity. Qed.

Lemma adjb_nth c1 c2 x i :
  adjb c1 c2 x = false -> nth_error x i = Some c1 -> nth_error x (S i) = Some c2 -> False.
Proof.
  revert i. induction x as [|a x IH]; intros i H H1 H2; [destruct i; discriminate|].
  rewrite adjb_cons in H. apply orb_false_elim in H as [H3 H4].
  destruct i as [|i].
  - simpl in H1, H2. injection H1 as ->. destruct x as [|b x]; [discriminate|].
    simpl in H2. injection H2 as ->. rewrite !Ascii.eqb_refl in H3. discriminate.
  - exact (IH i H4 H1 H2).
Qed.

Lemma ends_with_cons c a x : x <> [] -> ends_with c (a :: x) = ends_with c x.
Proof.
  intros H. unfold ends_with. simpl. destruct (rev x) eqn:E.
  - apply (f_equal (@rev ascii)) in E. rewrite rev_involutive in E. simpl in E. congruence.
  - reflexivity.
Qed.

Lemma adjb_app c1 c2 x y :
  adjb c1 c2 (x ++ y) = adjb c1 c2 x || adjb c1 c2 y || (ends_with c1 x && starts_with c2 y).
Proof.
  induction x as [|a x IH].
  - simpl. destruct (adjb c1 c2 y); reflexivity.
  - rewrite <- app_comm_cons, adjb_cons, IH, adjb_cons.
    destruct x as [|b x].
    + unfold ends_with, starts_with. destruct y as [|d y]; simpl; btauto.
    + rewrite (ends_with_cons c1 a (b :: x)) by discriminate. cbn [app]. btauto.
Qed.

Lemma adjb_nochar c1 c2 x : ~ In c2 x -> adjb c1 c2 x = false.
Proof.
  induction x as [|a x IH]; intros H; [reflexivity|].
  rewrite adjb_cons, IH by (intros H'; apply H; right; exact H').
  destruct x as [|b x]; [reflexivity|].
  destruct (Ascii.eqb b c2) eqn:E; [|btauto].
  apply Ascii.eqb_eq in E. subst. exfalso. apply H. right. left. reflexivity.
Qed.

(** An earlier start of [l] inside [a] would put the adjacent characters
    [c1 c2] of [l] inside [a]. *)
Lemma no_earlier_prefix l q c1 c2 a b p :
  nth_error l q = Some c1 -> nth_error l (S q) = Some c2 ->
  ~ In c2 (firstn (S q) b) -> adjb c1 c2 a = false -> p < List.length a ->
  is_prefix l (skipn p a ++ b) = false.
Proof.
  intros H1 H2 Hb Ha Hp. destruct (is_prefix l (skipn p a ++ b)) eqn:E; [|reflexivity].
  exfalso.
  assert (Es : skipn p a ++ b = skipn p (a ++ b)).
  { rewrite skipn_app. replace (p - List.length a) with 0 by lia. reflexivity. }
  rewrite Es in E.
  pose proof (is_prefix_nth _ _ _ _ E H1) as G1.
  pose proof (is_prefix_nth _ _ _ _ E H2) as G2.
  rewrite nth_error_skipn in G1, G2.
  destruct (Nat.lt_ge_cases (p + S q) (List.length a)) as [Hl|Hl].
  - rewrite nth_error_app1 in G1, G2 by lia.
    replace (p + S q) with (S (p + q)) in G2 by lia.
    exact (adjb_nth _ _ _ _ Ha G1 G2).
  - rewrite nth_error_app2 in G2 by lia. apply Hb.
    apply nth_error_In with (n := p + S q - List.length a).
    rewrite nth_error_firstn. destruct (Nat.ltb_spec (p + S q - List.length a) (S q)); [exact G2|lia].
Qed.

(** [search] moves past a prefix where the pattern cannot start. *)
Lemma search_app r a b :
  (forall p, p < List.length a -> match_ r (skipn p a ++ b) = None) ->
  search r (a ++ b) = search r b.
Proof.
  induction a as [|c a IH]; intros H; [reflexivity|].
  cbn [app search]. rewrite (H 0 ltac:(simpl; lia) : match_ r (c :: a ++ b) = None).
  apply IH. intros p Hp. exact (H (S p) ltac:(simpl; lia)).
Qed.

Lemma search_match r x c : match_ r x = Some c -> search r x = Some c.
Proof. destruct x; simpl; intros ->; reflexivity. Qed.

(** A literal that starts with [l], whose adjacent characters [c1 c2] never
    occur together in [x], is found nowhere in [x]. *)
Lemma search_lit_none l q c1 c2 r x :
  nth_error l q = Some c1 -> nth_error l (S q) = Some c2 -> adjb c1 c2 x = false ->
  search (Cat (Lit l) r) x = None.
Proof.
  intros H1 H2. induction x as [|a x IH]; intros Hx.
  - simpl. unfold match_. rewrite mtch_cat_lit_none; [reflexivity|].
    destruct l as [|d l]; [destruct q; discriminate|reflexivity].
  - simpl. unfold match_ at 1. rewrite mtch_cat_lit_none.
    + apply IH. rewrite adjb_cons in Hx. apply orb_false_elim in Hx as [_ Hx]. exact Hx.
    + destruct (is_prefix l (a :: x)) eqn:E; [|reflexivity]. exfalso.
      exact (adjb_nth _ _ _ _ Hx (is_prefix_nth _ _ _ _ E H1) (is_prefix_nth _ _ _ _ E H2)).
Qed.

End ReFacts.

Module LineFacts.

Import Py Re Adj ReFacts LogFormat.

Lemma notin_app (c : ascii) a b : ~ In c a -> ~ In c b -> ~ In c (a ++ b).
Proof. intros Ha Hb H. apply in_app_or in H as [H|H]; contradiction. Qed.

Lemma notin_b (c : ascii) l : forallb (fun d => negb (Ascii.eqb d c)) l = true -> ~ In c l.
Proof.
  intros H Hin. rewrite forallb_forall in H. specialize (H c Hin).
  rewrite Ascii.eqb_refl in H. discriminate.
Qed.

Lemma notin_class (cls : ascii -> bool) c l :
  (forall d, In d l -> cls d = true) -> cls c = false -> ~ In c l.
Proof. intros H Hc Hin. rewrite (H c Hin) in Hc. discriminate. Qed.

Lemma class_dot l : ~ In "010"%char l -> forall d, In d l -> dot d = true.
Proof.
  intros H d Hd. unfold dot. destruct (Ascii.eqb d "010"%char) eqn:E; [|reflexivity].
  apply Ascii.eqb_eq in E. subst. contradiction.
Qed.

Lemma class_app (cls : ascii -> bool) a b :
  (forall d, In d a -> cls d = true) -> (forall d, In d b -> cls d = true) ->
  forall d, In d (a ++ b) -> cls d = true.
Proof. intros Ha Hb d Hd. apply in_app_or in Hd as [H|H]; auto. Qed.

Lemma run_length_ge cls a b :
  (forall c, In c a -> cls c = true) -> List.length a <= run_length cls (a ++ b).
Proof.
  intros Ha. induction a as [|c a IH]; simpl; [lia|].
  rewrite (Ha c (or_introl eq_refl)). simpl.
  assert (List.length a <= run_length cls (a ++ b)) by (apply IH; intros d Hd; apply Ha; right; exact Hd).
  lia.
Qed.

Lemma mtch_lit_none l x caps k : is_prefix l x = false -> mtch (Lit l) x caps k = None.
Proof. intros H. simpl. rewrite H. reflexivity. Qed.

Lemma notin_cons (c d : ascii) l : d <> c -> ~ In c l -> ~ In c (d :: l).
Proof. intros H1 H2 [H|H]; contradiction. Qed.

Ltac notin :=
  repeat match goal with
         | |- ~ In _ (_ ++ _) => apply notin_app
         | |- ~ In _ (_ :: _) => apply notin_cons; [discriminate|]
         end;
  first [ assumption
        | apply notin_b; reflexivity
        | match goal with
          | H : forall d, In d ?l -> ?cls d = true |- ~ In _ ?l =>
              apply (notin_class cls); [exact H | reflexivity]
          end ].

(** The formatted line of a record with both extras and no traceback. *)
Lemma format_two_extras r fp E :
  exc_text r = None -> current_file (extra r) = Some fp ->
  LogFormat.elapsed_time_sec (extra r) = Some E ->
  format r = levelname r ++ s ", thread_id: " ++ thread r ++ s ", logger_name: " ++ name r ++
             s ", func_name: " ++ funcName r ++ s " - " ++ message r ++
             s " | extra_variables - current_file: " ++ fp ++ s ", elapsed_time_sec: " ++ E.
Proof.
  intros H1 H2 H3. unfold format. rewrite H1, H2, H3. cbn [app List.length Nat.ltb Nat.leb].
  unfold Json.str_join. cbn [map List.concat]. rewrite app_nil_r, <- !app_assoc. reflexivity.
Qed.

Lemma format_one_extra r fp :
  exc_text r = None -> current_file (extra r) = Some fp ->
  LogFormat.elapsed_time_sec (extra r) = None ->
  format r = levelname r ++ s ", thread_id: " ++ thread r ++ s ", logger_name: " ++ name r ++
             s ", func_name: " ++ funcName r ++ s " - " ++ message r ++
             s " | extra_variables - current_file: " ++ fp.
Proof.
  intros H1 H2 H3. unfold format. rewrite H1, H2, H3. cbn [app List.length Nat.ltb Nat.leb].
  unfold Json.str_join. cbn [map List.concat]. rewrite app_nil_r, <- !app_assoc. reflexivity.
Qed.

(** [re_header] on a line of the base format. *)
Lemma header_match LV T LN FN M :
  LV <> [] -> (forall c, In c LV -> is_upper c = true) ->
  T <> [] -> (forall c, In c T -> is_digit c = true) ->
  LN <> [] -> (forall c, In c LN -> word_or_dot c = true) ->
  FN <> [] -> (forall c, In c FN -> is_word c = true) ->
  M <> [] -> ~ In "010"%char M ->
  match_ AsrLog.re_header
    (LV ++ s ", thread_id: " ++ T ++ s ", logger_name: " ++ LN ++ s ", func_name: " ++ FN ++
     s " - " ++ M ++ newline) =
  Some [("message"%string, M); ("func_name"%string, FN); ("logger_name"%string, LN);
        ("thread_id"%string, T); ("level"%string, LV)].
Proof.
  intros. unfold match_, AsrLog.re_header. cbn [cats]. unfold L.
  rewrite mtch_cat. apply mtch_group_longest; [assumption|assumption|exact eq_refl|]. cbv beta.
  rewrite mtch_cat, mtch_lit, mtch_cat.
  apply mtch_group_longest; [assumption|assumption|exact eq_refl|]. cbv beta.
  rewrite mtch_cat, mtch_lit, mtch_cat.
  apply mtch_group_longest; [assumption|assumption|exact eq_refl|]. cbv beta.
  rewrite mtch_cat, mtch_lit, mtch_cat.
  apply mtch_group_longest; [assumption|assumption|exact eq_refl|]. cbv beta.
  rewrite mtch_cat, mtch_lit.
  apply mtch_group_longest; [assumption|apply class_dot; assumption|exact eq_refl|]. reflexivity.
Qed.


(** [re_complete] of either scraper: the leftmost start of its literal
    [lit] (which holds ["o:"] at 39 and no ":" before) decides. *)
Lemma complete_search lit pre q1 fp E :
  nth_error lit 39 = Some "o"%char -> nth_error lit 40 = Some ":"%char ->
  ~ In ":"%char (firstn 40 lit) -> 40 <= List.length lit ->
  adjb "o" ":" pre = false ->
  q1 <> [] -> ~ In "010"%char q1 ->
  fp <> [] -> ~ In "010"%char fp -> ~ In "|"%char fp ->
  E <> [] -> (forall c, In c E -> digit_or_dot c = true) ->
  search (cats [Lit lit; Plus dot; L " | extra_variables - current_file: ";
                Group "file_path" (Plus dot); L ", elapsed_time_sec: ";
                Group "elapsed" (Plus digit_or_dot)])
    (pre ++ lit ++ q1 ++ s " | extra_variables - current_file: " ++ fp ++
     s ", elapsed_time_sec: " ++ E ++ newline) =
  Some [("elapsed"%string, E); ("file_path"%string, fp)].
Proof.
  intros Hl1 Hl2 Hl3 Hl4 Hpre Hq Hqn Hf Hfn Hfb HE HEc.
  cbn [cats]. unfold L. rewrite search_app.
  2:{ intros p Hp. unfold match_. rewrite mtch_cat, mtch_lit_none; [reflexivity|].
      apply (no_earlier_prefix lit 39 "o" ":"); try assumption.
      rewrite firstn_app. replace (40 - List.length lit) with 0 by lia.
      rewrite firstn_O, app_nil_r. exact Hl3. }
  apply search_match. unfold match_.
  rewrite mtch_cat, mtch_lit, mtch_cat.
  assert (HEd : forall c, In c E -> dot c = true).
  { intros c Hc. specialize (HEc c Hc). unfold digit_or_dot, is_digit in HEc.
    unfold dot. destruct (Ascii.eqb c "010"%char) eqn:X; [|reflexivity].
    apply Ascii.eqb_eq in X. subst. discriminate. }
  apply mtch_plus_pick with (i := List.length q1).
  - split; [destruct q1; [congruence|simpl; lia]|].
    apply run_length_ge. apply class_dot. exact Hqn.
  - rewrite skipn_length_app. cbv beta.
    rewrite mtch_cat, mtch_lit, mtch_cat.
    apply mtch_group_pick with (i := List.length fp).
    + split; [destruct fp; [congruence|simpl; lia]|].
      apply run_length_ge. apply class_dot. exact Hfn.
    + rewrite skipn_length_app, firstn_length_app. cbv beta.
      rewrite mtch_cat, mtch_lit.
      apply mtch_group_longest; [assumption|assumption|exact eq_refl|]. reflexivity.
    + intros j Hj. cbv beta. apply mtch_cat_lit_none.
      apply (no_later_prefix _ 0 ","); [reflexivity| |lia].
      simpl skipn. notin. 
  - intros j Hj. cbv beta. apply mtch_cat_lit_none.
    apply (no_later_prefix _ 1 "|"); [reflexivity| |lia].
    simpl skipn. notin.
Qed.

Lemma mtch_group_all nm cls a caps k r :
  a <> [] -> (forall c, In c a -> cls c = true) ->
  k [] ((nm, a) :: caps) = Some r ->
  mtch (Group nm (Plus cls)) a caps k = Some r.
Proof.
  intros H1 H2 H3. pose proof (mtch_group_longest nm cls a [] caps k r H1 H2 I H3) as H.
  rewrite app_nil_r in H. exact H.
Qed.

(** [re_operation_complete] searched in a message ending in the extras. *)
Lemma operation_search pre fp E :
  adjb "e" ":" pre = false ->
  fp <> [] -> ~ In "010"%char fp ->
  E <> [] -> (forall c, In c E -> digit_or_dot c = true) ->
  search AsrLog.re_operation_complete
    (pre ++ s "extra_variables - current_file: " ++ fp ++ s ", elapsed_time_sec: " ++ E) =
  Some [("elapsed"%string, E); ("file_path"%string, fp)].
Proof.
  intros Hpre Hf Hfn HE HEc. unfold AsrLog.re_operation_complete.
  cbn [cats]. unfold L. rewrite search_app.
  2:{ intros p Hp. unfold match_. rewrite mtch_cat, mtch_lit_none; [reflexivity|].
      apply (no_earlier_prefix _ 29 "e" ":"); try assumption; try reflexivity.
      apply notin_b. reflexivity. }
  apply search_match. unfold match_.
  rewrite mtch_cat, mtch_lit, mtch_cat.
  apply mtch_group_pick with (i := List.length fp).
  - split; [destruct fp; [congruence|simpl; lia]|].
    apply run_length_ge. apply class_dot. exact Hfn.
  - rewrite skipn_length_app, firstn_length_app. cbv beta.
    rewrite mtch_cat, mtch_lit.
    apply mtch_group_all; [assumption|assumption|]. reflexivity.
  - intros j Hj. cbv beta. apply mtch_cat_lit_none.
    apply (no_later_prefix _ 0 ","); [reflexivity| |lia].
    simpl skipn. notin.
Qed.

Lemma class_b (cls : ascii -> bool) l : forallb cls l = true -> forall c, In c l -> cls c = true.
Proof. rewrite forallb_forall. auto. Qed.

Lemma app_neq_nil (a b : str) : a <> [] -> a ++ b <> [].
Proof. intros H E. apply app_eq_nil in E as [E _]. contradiction. Qed.

Ltac adj_false :=
  rewrite ?adjb_app;
  repeat match goal with |- orb _ _ = false => apply orb_false_intro end;
  match goal with
  | |- adjb _ _ ?x = false => first [ is_var x; apply adjb_nochar; notin | reflexivity ]
  | |- andb _ _ = false =>
      first [ apply andb_false_intro2; reflexivity | apply andb_false_intro1; reflexivity ]
  | |- false = false => reflexivity
  end.

Ltac side :=
  first [ assumption
        | discriminate
        | apply app_neq_nil; discriminate
        | apply class_b; reflexivity
        | notin ].

Lemma lines_of_line x y :
  ~ In "010"%char x -> lines_of (x ++ newline ++ y) = (x ++ newline) :: lines_of y.
Proof.
  intros H. induction x as [|c x IH]; [reflexivity|].
  cbn [app lines_of]. destruct (Ascii.eqb c "010"%char) eqn:E.
  - apply Ascii.eqb_eq in E. subst. exfalso. apply H. left. reflexivity.
  - rewrite IH by (intros H'; apply H; right; exact H'). reflexivity.
Qed.

Lemma str_eqb_refl' x : str_eqb x x = true.
Proof. apply str_eqb_eq. reflexivity. Qed.

Lemma log_text_cons r rs :
  write_to_file (extra r) = true -> log_text (r :: rs) = format r ++ newline ++ log_text rs.
Proof. intros H. unfold log_text. cbn [map List.concat]. rewrite H, <- app_assoc. reflexivity. Qed.

(** The first line of [_transcriber_wrapper] is not a completion line. *)
Lemma classify_starting_line T fp :
  T <> [] -> (forall c, In c T -> is_digit c = true) ->
  ~ In "010"%char fp -> ~ In ":"%char fp ->
  AsrLog.classify (format (starting_record T fp) ++ newline) = AsrLog.KSkip.
Proof.
  intros HT HTc Hfn Hfc.
  rewrite (format_one_extra _ fp) by reflexivity.
  unfold starting_record. cbn [levelname thread name funcName message].
  set (M := s "starting transcription" ++ s " | extra_variables - current_file: " ++ fp).
  match goal with |- AsrLog.classify ?x = _ =>
    replace x with (s "INFO" ++ s ", thread_id: " ++ T ++ s ", logger_name: " ++ s "asr.processor" ++
                    s ", func_name: " ++ s "transcriber_wrapper" ++ s " - " ++ M ++ newline)
      by (subst M; rewrite <- !app_assoc; reflexivity) end.
  unfold AsrLog.classify.
  rewrite header_match by (subst M; side).
  cbv beta iota.
  assert (Hn : search AsrLog.re_complete
     (s "INFO" ++ s ", thread_id: " ++ T ++ s ", logger_name: " ++ s "asr.processor" ++
      s ", func_name: " ++ s "transcriber_wrapper" ++ s " - " ++ M ++ newline) = None).
  { unfold AsrLog.re_complete. cbn [cats]. unfold L.
    apply (search_lit_none _ 39 "o" ":"); [reflexivity | reflexivity |].
    subst M. adj_false. }
  rewrite Hn. reflexivity.
Qed.

Lemma classify_completed T fp out E :
  T <> [] -> (forall c, In c T -> is_digit c = true) ->
  fp <> [] -> ~ In "010"%char fp -> ~ In "|"%char fp ->
  ~ In "010"%char out ->
  E <> [] -> (forall c, In c E -> digit_or_dot c = true) ->
  AsrLog.classify (format (completed_record T fp out E) ++ newline) = AsrLog.KComplete fp E.
Proof.
  intros HT HTc Hf Hfn Hfb Ho HE HEc.
  rewrite (format_two_extras _ fp E) by reflexivity.
  unfold completed_record. cbn [levelname thread name funcName message].
  set (M := s "transcription completed, output saved to: " ++ (s "'" ++ out ++ s "'") ++
            s " | extra_variables - current_file: " ++ fp ++ s ", elapsed_time_sec: " ++ E).
  match goal with |- AsrLog.classify ?x = _ =>
    replace x with (s "INFO" ++ s ", thread_id: " ++ T ++ s ", logger_name: " ++ s "asr.processor" ++
                    s ", func_name: " ++ s "transcriber_wrapper" ++ s " - " ++ M ++ newline)
      by (subst M; rewrite <- !app_assoc; reflexivity) end.
  unfold AsrLog.classify.
  rewrite header_match by (subst M; side).
  cbv beta iota.
  assert (Hs : search AsrLog.re_complete
     (s "INFO" ++ s ", thread_id: " ++ T ++ s ", logger_name: " ++ s "asr.processor" ++
      s ", func_name: " ++ s "transcriber_wrapper" ++ s " - " ++ M ++ newline) =
     Some [("elapsed"%string, E); ("file_path"%string, fp)]).
  { subst M.
    replace (s "INFO" ++ _) with
      ((s "INFO" ++ s ", thread_id: " ++ T ++ s ", logger_name: " ++ s "asr.processor" ++
        s ", func_name: " ++ s "transcriber_wrapper" ++ s " - ") ++
       s "transcription completed, output saved to: " ++ (s "'" ++ out ++ s "'") ++
       s " | extra_variables - current_file: " ++ fp ++ s ", elapsed_time_sec: " ++ E ++ newline)
      by (rewrite <- !app_assoc; reflexivity).
    apply complete_search;
      [reflexivity | reflexivity | apply notin_b; reflexivity | simpl; lia | adj_false
      | side .. ]. }
  rewrite Hs. reflexivity.
Qed.

Lemma classify_operation LN T fp ID E :
  LN <> [] -> (forall c, In c LN -> word_or_dot c = true) ->
  T <> [] -> (forall c, In c T -> is_digit c = true) ->
  fp <> [] -> ~ In "010"%char fp -> ~ In ":"%char fp ->
  ~ In "010"%char ID -> ~ In ":"%char ID ->
  E <> [] -> (forall c, In c E -> digit_or_dot c = true) ->
  AsrLog.classify (format (operation_record LN T fp ID E) ++ newline) = AsrLog.KOperation fp E.
Proof.
  intros HL HLc HT HTc Hf Hfn Hfc Hi Hic HE HEc.
  rewrite (format_two_extras _ fp E) by reflexivity.
  unfold operation_record. cbn [levelname thread name funcName message].
  set (M := (s "recognition opeation with id '" ++ ID ++ s "' was finished | ") ++
            s "extra_variables - current_file: " ++ fp ++ s ", elapsed_time_sec: " ++ E).
  match goal with |- AsrLog.classify ?x = _ =>
    replace x with (s "INFO" ++ s ", thread_id: " ++ T ++ s ", logger_name: " ++ LN ++
                    s ", func_name: " ++ s "transcribe_audio" ++ s " - " ++ M ++ newline)
      by (subst M; rewrite <- !app_assoc; reflexivity) end.
  unfold AsrLog.classify.
  rewrite header_match by (subst M; side).
  cbv beta iota.
  assert (Hn : search AsrLog.re_complete
     (s "INFO" ++ s ", thread_id: " ++ T ++ s ", logger_name: " ++ LN ++
      s ", func_name: " ++ s "transcribe_audio" ++ s " - " ++ M ++ newline) = None).
  { unfold AsrLog.re_complete. cbn [cats]. unfold L.
    apply (search_lit_none _ 39 "o" ":"); [reflexivity | reflexivity |].
    subst M. adj_false. }
  rewrite Hn. cbv iota.
  change (group "func_name" _) with (s "transcribe_audio").
  rewrite str_eqb_refl'.
  change (group "message" _) with M. subst M.
  rewrite operation_search by (try adj_false; side).
  reflexivity.
Qed.

End LineFacts.

Module LineTheorems.

Import Py Re Adj ReFacts LogFormat LineFacts.

(** X19: [_parse_log_file] of [asr/processor.py] reads back the completion
    line that [Formatter.format] writes for [_transcriber_wrapper]: with a
    numeric thread id, a file path without newline or ["|"], an output path
    without newline and a non-empty elapsed text of digits and dots, the line
    is classified as a completion of that file path with that elapsed text. *)
Theorem classify_completed_line T fp out E :
  T <> [] -> (forall c, In c T -> is_digit c = true) ->
  fp <> [] -> ~ In "010"%char fp -> ~ In "|"%char fp ->
  ~ In "010"%char out ->
  E <> [] -> (forall c, In c E -> digit_or_dot c = true) ->
  AsrLog.classify (format (completed_record T fp out E) ++ newline) = AsrLog.KComplete fp E.
Proof. exact (classify_completed T fp out E). Qed.

Lemma classify_completed_line_witness :
  AsrLog.classify (format (completed_record (s "140") (s "data/a.wav") (s "out/a.json") (s "2.5"))
                   ++ newline) =
  AsrLog.KComplete (s "data/a.wav") (s "2.5").
Proof. apply classify_completed_line; side. Defined.

(** X20: the line that [transcribe_audio] of the Google and Yandex scripts
    logs when the recognition operation finishes is classified as an
    operation line with its file path and elapsed text, when the logger name
    is a dotted name, the thread id numeric, the file path and operation id
    free of newlines and [":"], and the elapsed text digits and dots. *)
Theorem classify_operation_line LN T fp ID E :
  LN <> [] -> (forall c, In c LN -> word_or_dot c = true) ->
  T <> [] -> (forall c, In c T -> is_digit c = true) ->
  fp <> [] -> ~ In "010"%char fp -> ~ In ":"%char fp ->
  ~ In "010"%char ID -> ~ In ":"%char ID ->
  E <> [] -> (forall c, In c E -> digit_or_dot c = true) ->
  AsrLog.classify (format (operation_record LN T fp ID E) ++ newline) = AsrLog.KOperation fp E.
Proof. exact (classify_operation LN T fp ID E). Qed.

Lemma classify_operation_line_witness :
  AsrLog.classify (format (operation_record (s "asr.google.scripts") (s "141") (s "data/a.wav")
                                            (s "op-1") (s "1.5")) ++ newline) =
  AsrLog.KOperation (s "data/a.wav") (s "1.5").
Proof. apply classify_operation_line; side. Defined.





(** X21: the log of one transcription (starting line, operation line,
    completion line, as [Formatter.format] and the file handler write them)
    gives one [LogData] record: the stem of the file, the total time of the
    completion line and the time of the operation line.  This holds for
    numeric thread ids, a dotted logger name, a non-empty file path without
    newline, ['|'] or [':'], an operation id without newline or [':'], an
    output path without newline, and non-empty elapsed texts made of
    digits and dots only (so not in exponent notation) that [float]
    accepts. *)
Theorem parse_log_file_transcription T T' LN fp ID out Eo Et vo vt :
  T <> [] -> (forall c, In c T -> is_digit c = true) ->
  T' <> [] -> (forall c, In c T' -> is_digit c = true) ->
  LN <> [] -> (forall c, In c LN -> word_or_dot c = true) ->
  fp <> [] -> ~ In "010"%char fp -> ~ In "|"%char fp -> ~ In ":"%char fp ->
  ~ In "010"%char ID -> ~ In ":"%char ID -> ~ In "010"%char out ->
  Eo <> [] -> (forall c, In c Eo -> digit_or_dot c = true) ->
  Et <> [] -> (forall c, In c Et -> digit_or_dot c = true) ->
  PyFloat.py_float Eo = Some vo -> PyFloat.py_float Et = Some vt ->
  AsrLog.parse_log_file
    (lines_of (log_text [starting_record T fp; operation_record LN T' fp ID Eo;
                         completed_record T fp out Et])) =
  Some [{| AsrLog.file_name := stem fp; AsrLog.total_elapsed_time_sec := vt;
           AsrLog.operation_elapsed_time_sec := vo |}].
Proof.
  intros HT HTc HT' HTc' HL HLc Hf Hfn Hfb Hfc Hi Hic Ho HEo HEoc HEt HEtc Hvo Hvt.
  rewrite !log_text_cons by reflexivity.
  rewrite lines_of_line.
  2:{ rewrite (format_one_extra _ fp) by reflexivity. unfold starting_record.
      cbn [levelname thread name funcName message]. notin. }
  rewrite lines_of_line.
  2:{ rewrite (format_two_extras _ fp Eo) by reflexivity. unfold operation_record.
      cbn [levelname thread name funcName message]. notin. }
  rewrite lines_of_line.
  2:{ rewrite (format_two_extras _ fp Et) by reflexivity. unfold completed_record.
      cbn [levelname thread name funcName message]. notin. }
  unfold AsrLog.parse_log_file. cbn [log_text map List.concat lines_of AsrLog.scan].
  rewrite classify_starting_line by assumption.
  rewrite classify_operation by assumption.
  rewrite classify_completed by assumption.
  rewrite Hvo, Hvt. cbn [AsrLog.setdefault_update]. rewrite str_eqb_refl'.
  reflexivity.
Qed.

Lemma parse_log_file_transcription_witness :
  AsrLog.parse_log_file
    (lines_of (log_text [starting_record (s "140") (s "data/a.wav");
                         operation_record (s "asr.google.scripts") (s "141") (s "data/a.wav")
                                          (s "op-1") (s "1.5");
                         completed_record (s "140") (s "data/a.wav") (s "out/a.json") (s "2.5")])) =
  Some [{| AsrLog.file_name := s "a"; AsrLog.total_elapsed_time_sec := 25 # 10;
           AsrLog.operation_elapsed_time_sec := 15 # 10 |}].
Proof. apply parse_log_file_transcription; first [side | reflexivity]. Defined.

(** X22: [_parse_log_file] of [llm/processor.py] on the log of one
    summarization (starting line and completion line of
    [_summarizer_wrapper]) maps the transcript's stem to the float of the
    logged elapsed time; the starting line is ignored.  This holds for a
    numeric thread id, a non-empty transcript path without newline, ['|']
    or [':'], an output path without newline, and a non-empty elapsed text
    made of digits and dots only (so not in exponent notation) that
    [float] accepts. *)
Theorem llm_parse_log_file_summarization T tp out E v :
  T <> [] -> (forall c, In c T -> is_digit c = true) ->
  tp <> [] -> ~ In "010"%char tp -> ~ In "|"%char tp -> ~ In ":"%char tp ->
  ~ In "010"%char out ->
  E <> [] -> (forall c, In c E -> digit_or_dot c = true) ->
  PyFloat.py_float E = Some v ->
  LlmMetrics.parse_log_file
    (lines_of (log_text [summary_starting_record T tp; summary_completed_record T tp out E])) =
  inr [(stem tp, v)].
Proof.
  intros HT HTc Hf Hfn Hfb Hfc Ho HE HEc Hv.
  rewrite !log_text_cons by reflexivity.
  rewrite lines_of_line.
  2:{ rewrite (format_one_extra _ tp) by reflexivity. unfold summary_starting_record.
      cbn [levelname thread name funcName message]. notin. }
  rewrite lines_of_line.
  2:{ rewrite (format_two_extras _ tp E) by reflexivity. unfold summary_completed_record.
      cbn [levelname thread name funcName message]. notin. }
  unfold LlmMetrics.parse_log_file. cbn [log_text map List.concat lines_of LlmMetrics.parse_log_file_from].
  assert (Hn : search LlmMetrics.re_complete (format (summary_starting_record T tp) ++ newline) = None).
  { rewrite (format_one_extra _ tp) by reflexivity. unfold summary_starting_record.
    cbn [levelname thread name funcName message].
    unfold LlmMetrics.re_complete. cbn [cats]. unfold L.
    apply (search_lit_none _ 39 "o" ":"); [reflexivity | reflexivity |]. adj_false. }
  rewrite Hn.
  assert (Hs : search LlmMetrics.re_complete (format (summary_completed_record T tp out E) ++ newline) =
     Some [("elapsed"%string, E); ("file_path"%string, tp)]).
  { rewrite (format_two_extras _ tp E) by reflexivity. unfold summary_completed_record.
    cbn [levelname thread name funcName message].
    replace ((s "INFO" ++ _) ++ newline) with
      ((s "INFO" ++ s ", thread_id: " ++ T ++ s ", logger_name: " ++ s "llm.processor" ++
        s ", func_name: " ++ s "summarizer_wrapper" ++ s " - ") ++
       s "summarization completed, output saved to: " ++ (s "'" ++ out ++ s "'") ++
       s " | extra_variables - current_file: " ++ tp ++ s ", elapsed_time_sec: " ++ E ++ newline)
      by (rewrite <- !app_assoc; reflexivity).
    unfold LlmMetrics.re_complete.
    apply complete_search;
      [reflexivity | reflexivity | apply notin_b; reflexivity | simpl; lia | adj_false
      | side .. ]. }
  rewrite Hs. cbv iota. change (group "elapsed" _) with E. rewrite Hv.
  reflexivity.
Qed.

Lemma llm_parse_log_file_summarization_witness :
  LlmMetrics.parse_log_file
    (lines_of (log_text [summary_starting_record (s "7") (s "dataset/a.txt");
                         summary_completed_record (s "7") (s "dataset/a.txt") (s "out/a.json")
                                                  (s "3.25")])) =
  inr [(s "a", 325 # 100)].
Proof. apply llm_parse_log_file_summarization; first [side | reflexivity]. Defined.



End LineTheorems.
